(** * scheduled-workflow-with-timezone.js: scheduling resolver and HTML rendering

    A shallow embedding of [src/scheduled-workflow-with-timezone.js]: the
    local-hour to UTC-hour resolver [convertLocalToUTC], the due-set
    computation of [runScheduledWorkflows], the four section renderers and
    the assembler [formatMarketingStrategyToHtml]; and the asynchronous
    functions [runWorkflowForUser], [updateLastRunTimestamp],
    [sendAnalysisEmail] and [runScheduledWorkflows], as tasks over the calls
    they make to the analysis service, the store and the mail transport.

    Conventions of the embedding.
    - A JavaScript string is a [string]: a sequence of code units below 256
      (the Latin-1 range of UTF-16).  White space ([\s], [trim]) and case
      mapping ([toLowerCase], the [i] flag) are the ECMAScript ones restricted
      to that range.
    - A JavaScript value is a [value]; numbers are integers or NaN.
    - What the platform provides ([JSON.parse], [Intl.DateTimeFormat], the
      text of an integer that is not safe) is a Section variable, and so is
      each collaborator.
    - A regular expression of the source is translated to the function that
      computes its leftmost, backtracking-priority match; the regular
      expression is quoted beside each translation. *)

From Stdlib Require Import ZArith Lia Bool List Ascii String.
From stdpp Require Import base option strings list gmap pretty.

Local Open Scope string_scope.

(** ** JavaScript strings *)

Module JsString.

Definition code (c : ascii) : N := N_of_ascii c.

(** ECMAScript WhiteSpace and LineTerminator below 256: TAB, LF, VT, FF, CR,
    SP and NBSP. *)
Definition is_space (c : ascii) : bool :=
  match code c with
  | 9 | 10 | 11 | 12 | 13 | 32 | 160 => true
  | _ => false
  end%N.

(** [\d] *)
Definition is_digit (c : ascii) : bool :=
  ((48 <=? code c) && (code c <=? 57))%N.

(** [\w] : [A-Za-z0-9_] *)
Definition is_word (c : ascii) : bool :=
  (is_digit c
   || ((65 <=? code c) && (code c <=? 90))
   || ((97 <=? code c) && (code c <=? 122))
   || (code c =? 95))%N.

(** [String.prototype.toLowerCase] on one code unit below 256: A-Z and the
    Latin-1 capitals (all of 192..222 but the multiplication sign 215). *)
Definition lower_char (c : ascii) : ascii :=
  let n := code c in
  if (((65 <=? n) && (n <=? 90))
      || ((192 <=? n) && (n <=? 222) && negb (n =? 215)))%N
  then ascii_of_N (n + 32) else c.

(** Canonicalize of a regular expression with the [i] flag and without the
    [u] flag: the upper-case mapping, which the patterns of this file (ASCII
    only) meet on ASCII letters only. *)
Definition fold_char (c : ascii) : ascii :=
  let n := code c in
  if ((97 <=? n) && (n <=? 122))%N then ascii_of_N (n - 32) else c.

Fixpoint toLowerCase (s : string) : string :=
  match s with
  | EmptyString => EmptyString
  | String c r => String (lower_char c) (toLowerCase r)
  end.

Fixpoint trimStart (s : string) : string :=
  match s with
  | String c r => if is_space c then trimStart r else s
  | EmptyString => EmptyString
  end.

Fixpoint trimEnd (s : string) : string :=
  match s with
  | EmptyString => EmptyString
  | String c r =>
      match trimEnd r with
      | EmptyString => if is_space c then EmptyString else String c EmptyString
      | r' => String c r'
      end
  end.

Definition trim (s : string) : string := trimEnd (trimStart s).

(** [strip_prefix p s] is the rest of [s] after the literal [p], when [s]
    starts with [p]. *)
Fixpoint strip_prefix (p s : string) : option string :=
  match p, s with
  | EmptyString, _ => Some s
  | String a p', String b s' =>
      if Ascii.eqb a b then strip_prefix p' s' else None
  | String _ _, EmptyString => None
  end.

(** The same under the [i] flag. *)
Fixpoint strip_prefix_ci (p s : string) : option string :=
  match p, s with
  | EmptyString, _ => Some s
  | String a p', String b s' =>
      if Ascii.eqb (fold_char a) (fold_char b) then strip_prefix_ci p' s'
      else None
  | String _ _, EmptyString => None
  end.

(** [s.startsWith(p)] *)
Definition startsWith (s p : string) : bool :=
  match strip_prefix p s with Some _ => true | None => false end.

(** [s.includes(p)], that is [s.indexOf(p) !== -1] *)
Fixpoint includes (s p : string) : bool :=
  startsWith s p
  || match s with
     | EmptyString => false
     | String _ r => includes r p
     end.

(** [s.substring(n)] for [0 <= n] *)
Fixpoint substring_from (n : nat) (s : string) : string :=
  match n, s with
  | O, _ => s
  | S n', String _ r => substring_from n' r
  | S _, EmptyString => EmptyString
  end.

(** [s.replace(/p/g, rep)] for a literal, non-empty [p]: the matches are taken
    from the left and do not overlap.  The recursion is on a bound on the
    length of what is left to scan. *)
Fixpoint replaceAll_from (fuel : nat) (p rep s : string) : string :=
  match fuel with
  | O => s
  | S fuel' =>
      match s with
      | EmptyString => EmptyString
      | String c r =>
          match strip_prefix p s with
          | Some rest => rep +:+ replaceAll_from fuel' p rep rest
          | None => String c (replaceAll_from fuel' p rep r)
          end
      end
  end.

Definition replaceAll (p rep s : string) : string :=
  replaceAll_from (String.length s) p rep s.

(** [s.split(sep)] for a non-empty separator.  [cur] is the piece being read,
    in reverse; when the bound is reached, which [split] never does, what is
    left goes to that piece. *)
Fixpoint split_from (fuel : nat) (sep : string) (cur : string) (s : string)
  : list string :=
  match fuel with
  | O => [String.rev_app cur s]
  | S fuel' =>
      match s with
      | EmptyString => [String.rev cur]
      | String c r =>
          match strip_prefix sep s with
          | Some rest => String.rev cur :: split_from fuel' sep EmptyString rest
          | None => split_from fuel' sep (String c cur) r
          end
      end
  end.

Definition split (sep s : string) : list string :=
  split_from (String.length s) sep EmptyString s.

(** The longest prefix of [s] whose code units satisfy [f], and the rest. *)
Fixpoint span (f : ascii -> bool) (s : string) : string * string :=
  match s with
  | String c r =>
      if f c then let '(a, b) := span f r in (String c a, b)
      else (EmptyString, s)
  | EmptyString => (EmptyString, EmptyString)
  end.

(** [/pat[\s\S]*/i] : the leftmost place where the literal [pat] stands,
    letter case apart; the match runs to the end of the string.  The result
    is the matched text [m[0]] and what follows the literal. *)
Fixpoint search_ci (pat s : string) : option (string * string) :=
  match strip_prefix_ci pat s with
  | Some rest => Some (s, rest)
  | None =>
      match s with
      | EmptyString => None
      | String _ r => search_ci pat r
      end
  end.

(** [([\s\S]*?)(pat|$)] under the [i] flag: the shortest prefix of [s] that is
    followed by the literal [pat] or by the end of the string. *)
Fixpoint lazy_until_ci (pat s : string) : string :=
  match strip_prefix_ci pat s with
  | Some _ => EmptyString
  | None =>
      match s with
      | EmptyString => EmptyString
      | String c r => String c (lazy_until_ci pat r)
      end
  end.

End JsString.

Import JsString.

(** The double quote, as a one-unit string. *)
Definition dquote : string := String (ascii_of_nat 34) EmptyString.

(** ** JavaScript values and completions *)

#[warnings="-register-all"]
Inductive value : Type :=
  | VUndefined
  | VNull
  | VBool (b : bool)
  | VNum (n : Z)
  | VNaN
  | VStr (s : string)
  | VArr (items : list value)
  | VObj (fields : list (string * value)).

(** ToBoolean *)
Definition truthy (v : value) : bool :=
  match v with
  | VUndefined | VNull | VNaN => false
  | VBool b => b
  | VNum n => negb (n =? 0)%Z
  | VStr s => negb (String.eqb s "")
  | VArr _ | VObj _ => true
  end.

(** [a || b] *)
Definition js_or (a b : value) : value := if truthy a then a else b.

(** [typeof v === 'string'] *)
Definition is_string (v : value) : bool :=
  match v with VStr _ => true | _ => false end.

(** [Array.isArray(v)] *)
Definition isArray (v : value) : bool :=
  match v with VArr _ => true | _ => false end.

Inductive error : Type := TypeError | SyntaxError | RangeError.

(** The outcome of evaluating an expression or of a call: a value, or an
    exception on its way to the nearest handler. *)
Inductive completion (A : Type) : Type :=
  | Normal (a : A)
  | Throw (e : error).
Arguments Normal {A} a.
Arguments Throw {A} e.

#[global] Instance completion_ret : MRet completion := fun _ a => Normal a.
#[global] Instance completion_bind : MBind completion := fun _ _ f c =>
  match c with
  | Normal a => f a
  | Throw e => Throw e
  end.

(** [try { body } catch (e) { handler }] *)
Definition try_catch {A} (body : completion A) (handler : error -> completion A)
  : completion A :=
  match body with
  | Normal a => Normal a
  | Throw e => handler e
  end.

(** [this.m(...)] for a method [m] of String.prototype ([trim], [replace],
    [split], [match], ...): on a string it applies; any other value of this
    program (undefined, null, a boolean, a number, an array, a plain object)
    has no such method, and the call throws a TypeError. *)
Definition str_method {A} (this : value) (m : string -> A) : completion A :=
  match this with
  | VStr s => Normal (m s)
  | _ => Throw TypeError
  end.

(** The truth value of a string. *)
Definition nonempty (s : string) : bool := negb (String.eqb s "").

(** Strings of white space only, the empty one among them. *)
Fixpoint all_space (s : string) : bool :=
  match s with
  | EmptyString => true
  | String c r => is_space c && all_space r
  end.

(** The values the renderers of text have a placeholder for: what is not a
    string, and the strings of white space only. *)
Definition blank_or_not_a_string (v : value) : Prop :=
  match v with
  | VStr s => all_space s = true
  | _ => True
  end.

(** ** The renderers *)

(** [text.replace(/^- /, '')] *)
Definition strip_dash (text : string) : string :=
  match strip_prefix "- " text with
  | Some rest => rest
  | None => text
  end.

(** [function cleanListItemText(text)] *)
Definition cleanListItemText (text : string) : string :=
  trim (replaceAll "\n" " " (strip_dash text)).

(** [[\w\s()]] *)
Definition is_header_char (c : ascii) : bool :=
  is_word c || is_space c || Ascii.eqb c "(" || Ascii.eqb c ")".

(** [s.replace(/^\s*\d\.\s*([\w\s()]+:)?/i, '')].  Each starred class is
    followed by a class disjoint from it or by the end of the pattern, so the
    greedy choice is the only one that can succeed.  The optional group is
    tried first: the longest run of [[\w\s()]], which has to be non-empty and
    followed by a colon (a shorter run is followed by a unit of the class,
    not by a colon); when it fails the group matches nothing. *)
Definition strip_ordinal_header (s : string) : string :=
  match trimStart s with
  | String d (String "." r) =>
      if is_digit d then
        let r1 := trimStart r in
        match span is_header_char r1 with
        | (String _ _, String ":" r2) => r2
        | _ => r1
        end
      else s
  | _ => s
  end.

(** The [<li>] items of a list, as [forEach] appends them. *)
Definition list_items (items : list string) : string :=
  fold_left (fun html item => html +:+ "<li>" +:+ item +:+ "</li>") items "".

(** [function createListHtml(str, title)] *)
Definition createListHtml (str : value) (title : string) : completion string :=
  blank ← (if negb (is_string str) then mret true
           else t ← str_method str trim; mret (negb (nonempty t)));
  if blank : bool then mret ("<p>No " +:+ toLowerCase title +:+ " provided.</p>")
  else
    cleanedStr ← str_method str (replaceAll "**" "");
    let cleanedStr := strip_ordinal_header cleanedStr in
    let cleanedStr := trim (replaceAll "---" "" cleanedStr) in
    let items :=
      List.filter nonempty (map cleanListItemText (split "\n- " cleanedStr)) in
    if (length items =? 0)%nat
       || ((length items =? 1)%nat && negb (includes cleanedStr "\n- "))
    then mret ("<p>" +:+ replaceAll "\n" "<br>" cleanedStr +:+ "</p>")
    else
      mret ("<ul>"
            +:+ list_items (List.filter nonempty items)
            +:+ "</ul>").

(** [scriptStr.match(/Visual Cues:([\s\S]*?)(Voiceover\/Script:|$)/i)]:
    [None] when there is no match, else the first group. *)
Definition visualCuesMatch (s : string) : option string :=
  match search_ci "Visual Cues:" s with
  | Some (_, rest) => Some (lazy_until_ci "Voiceover/Script:" rest)
  | None => None
  end.

(** [scriptStr.match(/Voiceover\/Script:(G)/i)] with [G] the greedy
    [[\s\S]*]: the first group, which runs to the end of the string. *)
Definition voiceoverMatch (s : string) : option string :=
  match search_ci "Voiceover/Script:" s with
  | Some (_, rest) => Some rest
  | None => None
  end.

(** [m && m[1] && m[1].trim()] *)
Definition group_present (m : option string) : bool :=
  match m with
  | Some g => nonempty g && nonempty (trim g)
  | None => false
  end.

(** [function formatSampleScriptHtml(scriptStr)] *)
Definition formatSampleScriptHtml (scriptStr : value) : completion string :=
  blank ← (if negb (is_string scriptStr) then mret true
           else t ← str_method scriptStr trim; mret (negb (nonempty t)));
  if blank : bool then mret "<p>No sample script provided.</p>"
  else
    cleanedScriptStr ← str_method scriptStr (replaceAll "**" "");
    let visual := visualCuesMatch cleanedScriptStr in
    let voice := voiceoverMatch cleanedScriptStr in
    let html :=
      if group_present visual then
        "<h4>Visual Cues:</h4><ul>"
        +:+ list_items
              (List.filter nonempty
                 (map cleanListItemText (split "\n- " (default "" visual))))
        +:+ "</ul>"
      else "<h4>Visual Cues:</h4><p>Not specified.</p>" in
    let html :=
      if group_present voice then
        let voiceoverContent :=
          trim (replaceAll ("*" +:+ dquote) dquote
                  (replaceAll "\n" "<br>" (default "" voice))) in
        html +:+ "<h4>Voiceover/Script:</h4>"
             +:+ "<p>" +:+ voiceoverContent +:+ "</p>"
      else html +:+ "<h4>Voiceover/Script:</h4><p>Not specified.</p>" in
    mret html.

(** [theme.replace(/^\s*\*\s*/, '')] *)
Definition strip_star (theme : string) : string :=
  match trimStart theme with
  | String "*" r => trimStart r
  | _ => theme
  end.

(** [[\d.]] *)
Definition is_digit_or_dot (c : ascii) : bool := is_digit c || Ascii.eqb c ".".

(** [theme.replace(/^\s*[\d.]*\s*\*\s*/, '')]: the four classes that follow
    one another are pairwise disjoint, so only the greedy choice can reach
    the asterisk. *)
Definition strip_ordinal_star (theme : string) : string :=
  match trimStart (snd (span is_digit_or_dot (trimStart theme))) with
  | String "*" r => trimStart r
  | _ => theme
  end.

(** [cleanedTheme.match(/^\d+\.$/)], as a truth value. *)
Definition is_bare_ordinal (s : string) : bool :=
  match span is_digit s with
  | (String _ _, String "." EmptyString) => true
  | _ => false
  end.

(** [line.match(/^\s*\d\.\s*$/)], as a truth value. *)
Definition is_lone_ordinal (line : string) : bool :=
  match trimStart line with
  | String d (String "." r) =>
      is_digit d && negb (nonempty (trimStart r))
  | _ => false
  end.

Section Renderers.

(** [JSON.parse]: its result, or the SyntaxError it throws. *)
Variable JSON_parse : value -> completion value.

(** The [catch] branch of [formatContentThemesHtml]. *)
Definition split_themes (themesInput : string) : list string :=
  List.filter
    (fun theme => nonempty theme && negb (String.eqb theme "*")
                  && negb (String.eqb theme "--"))
    (map (fun theme => trim (replaceAll "**" "" (strip_star theme)))
       (split "\n- " themesInput)).

(** The body of [themes.forEach] in [formatContentThemesHtml]. *)
Definition append_theme (html : string) (theme : value) : string :=
  match theme with
  | VStr t =>
      let cleanedTheme :=
        trim (strip_dash (replaceAll "**" "" (strip_ordinal_star t))) in
      if nonempty cleanedTheme
         && (1 <? String.length cleanedTheme)%nat
         && negb (String.eqb cleanedTheme "*")
         && negb (String.eqb cleanedTheme "--")
         && negb (is_bare_ordinal cleanedTheme)
      then html +:+ "<li>" +:+ cleanedTheme +:+ "</li>"
      else html
  | _ => html
  end.

(** [formatContentThemesHtml] from its first [return] on, with [themes]
    assigned. *)
Definition render_themes (themes : value) : completion string :=
  match themes with
  | VArr [] => mret "<p>No specific themes provided.</p>"
  | VArr items =>
      let html := fold_left append_theme items "<ul>" +:+ "</ul>" in
      mret (if includes html "<li>" then html
            else "<p>No specific themes provided.</p>")
  | _ => mret "<p>No specific themes provided.</p>"
  end.

(** [function formatContentThemesHtml(themesInput)] *)
Definition formatContentThemesHtml (themesInput : value) : completion string :=
  themes ←
    (if isArray themesInput then mret themesInput
     else if is_string themesInput then
       try_catch (JSON_parse themesInput)
         (fun _ => pieces ← str_method themesInput split_themes;
                   mret (VArr (map VStr pieces)))
     else mret (VArr []));
  render_themes themes.

(** The local variables of [formatHashtagStrategyHtml] that its loop
    updates. *)
Record hashtag_state : Type := HashtagState {
  hs_html : string;
  currentTitle : option string;
  currentHashtags : list string;
  foundContent : bool
}.

Definition sectionTitles : list string :=
  ["Primary (Niche):"; "Secondary (Trending/Regional):"; "Broad Appeal:"].

(** The two statements that close a section: they stand once in the loop, at
    a title line, and once after the loop. *)
Definition flush_section (st : hashtag_state) : hashtag_state :=
  match currentTitle st with
  | Some title =>
      match currentHashtags st with
      | _ :: _ =>
          HashtagState
            (hs_html st +:+ "<h4>" +:+ title +:+ "</h4><ul>"
               +:+ list_items (currentHashtags st) +:+ "</ul>")
            (currentTitle st) (currentHashtags st) true
      | [] =>
          HashtagState
            (hs_html st +:+ "<h4>" +:+ title
               +:+ "</h4><p>No specific hashtags listed.</p>")
            (currentTitle st) (currentHashtags st) (foundContent st)
      end
  | None => st
  end.

(** One turn of [cleanedStr.split('\\n').forEach(line => ...)]. *)
Definition hashtag_line (st : hashtag_state) (line : string) : hashtag_state :=
  let line := trim line in
  match List.find (fun title => startsWith line title) sectionTitles with
  | Some title =>
      let st := flush_section st in
      let contentAfterTitle :=
        trim (substring_from (String.length title) line) in
      HashtagState (hs_html st) (Some title)
        (if startsWith contentAfterTitle "- "
         then [cleanListItemText contentAfterTitle] else [])
        (foundContent st)
  | None =>
      if match currentTitle st with Some _ => true | None => false end
         && nonempty line
         && negb (startsWith line "---")
         && negb (is_lone_ordinal line)
         && negb (String.eqb (toLowerCase line) "(e. g.,")
         && negb (String.eqb (toLowerCase line) "(e.g.,")
      then
        if startsWith line "- "
        then HashtagState (hs_html st) (currentTitle st)
               (currentHashtags st ++ [cleanListItemText line])
               (foundContent st)
        else st
      else st
  end.

(** [function formatHashtagStrategyHtml(str)] *)
Definition formatHashtagStrategyHtml (str : value) : completion string :=
  blank ← (if negb (is_string str) then mret true
           else t ← str_method str trim; mret (negb (nonempty t)));
  if blank : bool then mret "<p>No hashtag strategy provided.</p>"
  else
    cleanedStr ← str_method str (replaceAll "**" "");
    let st :=
      flush_section
        (fold_left hashtag_line (split "\n" cleanedStr)
           (HashtagState "" None [] false)) in
    mret (if foundContent st || includes (hs_html st) "<h4>"
          then hs_html st
          else "<p>No hashtag strategy provided.</p>").

(** ** The assembler *)

(** One [<br>] followed by its white space: one turn of the group [B] of
    [/(B){2,}/g], where [B] is [<br>\s*].  The white space is taken greedily:
    what follows it in the pattern is [<] or the end. *)
Definition br_unit (s : string) : option string :=
  match strip_prefix "<br>" s with
  | Some r => Some (trimStart r)
  | None => None
  end.

(** What is left of [s] after as many such turns as there are. *)
Fixpoint skip_br_units (fuel : nat) (s : string) : string :=
  match fuel with
  | O => s
  | S fuel' =>
      match br_unit s with
      | Some r => skip_br_units fuel' r
      | None => s
      end
  end.

(** [html.replace(/(B){2,}/g, '<br>')] with [B] as above: at a place where
    two turns or more stand, all of them are replaced by one [<br>]. *)
Fixpoint collapse_breaks_from (fuel : nat) (s : string) : string :=
  match fuel with
  | O => s
  | S fuel' =>
      match s with
      | EmptyString => EmptyString
      | String c r =>
          match br_unit s with
          | Some r1 =>
              match br_unit r1 with
              | Some r2 =>
                  "<br>" +:+ collapse_breaks_from fuel'
                               (skip_br_units (String.length r2) r2)
              | None => String c (collapse_breaks_from fuel' r)
              end
          | None => String c (collapse_breaks_from fuel' r)
          end
      end
  end.

Definition collapse_breaks (s : string) : string :=
  collapse_breaks_from (String.length s) s.

(** The three last statements of [formatMarketingStrategyToHtml] before its
    [return]. *)
Definition cleanup (emailBodyHtml : string) : string :=
  replaceAll "<p><br></p>" ""
    (collapse_breaks (replaceAll "\n" "<br>" emailBodyHtml)).

Definition no_strategy : string :=
  "<h2>Marketing Strategy & Content Ideas</h2><p>No detailed strategy information available.</p>".

Definition no_strategy_at_this_time : string :=
  "<h2>Marketing Strategy & Content Ideas</h2><p>No detailed strategy information available at this time.</p>".

(** An element of the array [sections]. *)
Record section_desc : Type := SectionDesc {
  title : string;
  key : string;
  processor : value -> completion string
}.

Definition sections : list section_desc :=
  [ SectionDesc "Observations" "observations"
      (fun content => createListHtml content "Observations");
    SectionDesc "Key Trend Takeaways" "keyTakeaways"
      (fun content => createListHtml content "Key Trend Takeaways");
    SectionDesc "Sample TikTok Script" "sampleScript" formatSampleScriptHtml;
    SectionDesc "Technical Specifications" "technicalSpecifications"
      (fun content => createListHtml content "Technical Specifications");
    SectionDesc "General Content Themes" "contentThemes"
      formatContentThemesHtml;
    SectionDesc "Hashtag Strategy" "hashtagStrategy" formatHashtagStrategyHtml;
    SectionDesc "Posting Frequency" "postingFrequency"
      (fun content => createListHtml content "Posting Frequency") ].

(** [marketingStrategy[k]]: the value of an own property, or undefined. *)
Definition get (marketingStrategy : gmap string value) (k : string) : value :=
  default VUndefined (marketingStrategy !! k).

(** [Object.keys(marketingStrategy)] *)
Definition Object_keys (marketingStrategy : gmap string value) : list string :=
  (map_to_list marketingStrategy).*1.

(** The content a section is rendered from. *)
Definition section_content (marketingStrategy : gmap string value)
    (section : section_desc) : value :=
  js_or (get marketingStrategy (key section))
        (if String.eqb (key section) "observations"
         then get marketingStrategy "rawContent" else VNull).

(** The test that lets a rendered section into the document. *)
Definition kept (sectionHtml : string) : bool :=
  nonempty sectionHtml
  && negb (includes (toLowerCase sectionHtml) "no information provided")
  && negb (includes (toLowerCase sectionHtml) "not specified")
  && negb (includes (toLowerCase sectionHtml) "no specific").

(** One turn of [for (const section of sections)], on the pair of
    [emailBodyHtml] and [hasContent]. *)
Definition section_step (marketingStrategy : gmap string value)
    (acc : string * bool) (section : section_desc)
  : completion (string * bool) :=
  let content := section_content marketingStrategy section in
  if truthy content then
    sectionHtml ← processor section content;
    if kept sectionHtml
    then mret (acc.1 +:+ "<h3>" +:+ title section +:+ "</h3>" +:+ sectionHtml,
               true)
    else mret acc
  else mret acc.

Fixpoint for_sections (marketingStrategy : gmap string value)
    (todo : list section_desc) (acc : string * bool)
  : completion (string * bool) :=
  match todo with
  | [] => mret acc
  | section :: rest =>
      acc' ← section_step marketingStrategy acc section;
      for_sections marketingStrategy rest acc'
  end.

(** A section leaves nothing in the document when it has no content or when
    what it is rendered to is not kept. *)
Definition section_suppressed (marketingStrategy : gmap string value)
    (section : section_desc) : Prop :=
  truthy (section_content marketingStrategy section) = false
  \/ exists sectionHtml,
       processor section (section_content marketingStrategy section)
         = Normal sectionHtml
       /\ kept sectionHtml = false.

(** A section survives when its heading and its rendering are appended. *)
Definition section_survives (marketingStrategy : gmap string value)
    (section : section_desc) : Prop :=
  truthy (section_content marketingStrategy section) = true
  /\ exists sectionHtml,
       processor section (section_content marketingStrategy section)
         = Normal sectionHtml
       /\ kept sectionHtml = true.

(** [s.match(/This strategy balances[\s\S]*/i)]: the matched text. *)
Definition strategy_balances (s : string) : option string :=
  match search_ci "This strategy balances" s with
  | Some (m0, _) => Some m0
  | None => None
  end.

(** The paragraph appended for the concluding line. *)
Definition trailer_paragraph (m0 : string) : string :=
  "<p>" +:+ trim (replaceAll "\n" " " (replaceAll "**" "" m0)) +:+ "</p>".

(** The [if] on [marketingStrategy.postingFrequency]. *)
Definition add_trailer (marketingStrategy : gmap string value)
    (emailBodyHtml : string) : completion string :=
  let postingFrequency := get marketingStrategy "postingFrequency" in
  if truthy postingFrequency && is_string postingFrequency then
    m ← str_method postingFrequency strategy_balances;
    match m with
    | Some m0 =>
        if nonempty m0 then mret (emailBodyHtml +:+ trailer_paragraph m0)
        else mret emailBodyHtml
    | None => mret emailBodyHtml
    end
  else mret emailBodyHtml.

(** [function formatMarketingStrategyToHtml(marketingStrategy)].  The
    argument is an object or, as [None], null or undefined. *)
Definition formatMarketingStrategyToHtml
    (marketingStrategy : option (gmap string value)) : completion string :=
  match marketingStrategy with
  | None => mret no_strategy
  | Some marketingStrategy =>
      if (length (Object_keys marketingStrategy) =? 0)%nat
      then mret no_strategy
      else
        '(emailBodyHtml, hasContent) ←
          for_sections marketingStrategy sections
            ("<h2>Marketing Strategy & Content Ideas</h2>", false);
        if negb hasContent then mret no_strategy_at_this_time
        else
          emailBodyHtml ← add_trailer marketingStrategy emailBodyHtml;
          mret (cleanup emailBodyHtml)
  end.

End Renderers.

(** Two contents that the loop over the sections does not tell apart: the
    same value, or two values that are both falsy. *)
Definition same_content (a b : value) : Prop :=
  a = b \/ (truthy a = false /\ truthy b = false).

(** Documents used as instances. *)
Definition script_without_labels : gmap string value :=
  {[ "sampleScript" := VStr "x" ]}.

Definition suppressed_posting_frequency : gmap string value :=
  {[ "postingFrequency" :=
       VStr "Not specified. This strategy balances reach" ]}.

Definition posting_frequency_with_conclusion : gmap string value :=
  {[ "postingFrequency" := VStr "Post daily. This strategy balances reach" ]}.

Definition takeaways_only : gmap string value :=
  {[ "keyTakeaways" := VStr "- a\n- b" ]}.

(** A [JSON.parse] that rejects every text, for documents in which no text is
    handed to it. *)
Definition JSON_parse_rejecting (v : value) : completion value :=
  Throw SyntaxError.

(** ** The scheduler *)

Local Open Scope Z_scope.

(** The columns of a row of [users] that the due sets depend on: a column is
    null ([None]) or holds a string, respectively an integer. *)
Record user : Type := User {
  id : nat;
  timezone : option string;
  email_time_hour : option Z
}.

(** [user.timezone || 'UTC'] *)
Definition timezone_of (u : user) : string :=
  match timezone u with
  | Some tz => if nonempty tz then tz else "UTC"
  | None => "UTC"
  end.

(** [user.email_time_hour || 9] *)
Definition localHour_of (u : user) : Z :=
  match email_time_hour u with
  | Some h => if h =? 0 then 9 else h
  | None => 9
  end.

(** [(utcHour - 1 + 24) % 24]: the remainder of JavaScript has the sign of the
    dividend, as [Z.rem]. *)
Definition analysisHour (utcHour : Z) : Z := Z.rem (utcHour - 1 + 24) 24.

(** [a === b] for the number [a] that [parseInt] returns, NaN as [None]. *)
Definition same_number (a : option Z) (b : Z) : bool :=
  match a with
  | Some x => x =? b
  | None => false
  end.

Section Scheduler.

(** [new Intl.DateTimeFormat('en-US', { timeZone, hour: 'numeric', hour12:
    false })] throws a RangeError on a time zone it does not know; else, for
    the candidate hour [h], it gives the number that
    [parseInt(formatter.format(date))] is when [date] is the current day at
    [h]:00:00.000 UTC (NaN as [None]).  The day is the same for the 24
    candidates of one call. *)
Variable DateTimeFormat : string -> completion (Z -> option Z).

(** The [for] loop of [convertLocalToUTC], with [count] candidates left:
    [Some] candidate when the loop returns it, [None] when it runs to its
    end. *)
Fixpoint candidates_from (count : nat) (utcHourCandidate : Z)
    (localHour : Z) (timezone : string) : completion (option Z) :=
  match count with
  | O => mret None
  | S count' =>
      formatter ← DateTimeFormat timezone;
      let hourInUserTimezone := formatter utcHourCandidate in
      if same_number hourInUserTimezone localHour
      then mret (Some utcHourCandidate)
      else candidates_from count' (utcHourCandidate + 1) localHour timezone
  end.

(** [function convertLocalToUTC(localHour, timezone)] *)
Definition convertLocalToUTC (localHour : Z) (timezone : string)
  : completion Z :=
  try_catch
    (found ← candidates_from 24 0 localHour timezone;
     match found with
     | Some utcHourCandidate => mret utcHourCandidate
     | None => mret localHour
     end)
    (fun _ => mret localHour).

(** The resolution is not degraded when the loop returns a candidate: the
    function then logs the conversion, and on both other paths an error. *)
Definition resolved (localHour : Z) (timezone : string) : Prop :=
  exists utcHourCandidate,
    candidates_from 24 0 localHour timezone = Normal (Some utcHourCandidate).

(** One turn of [for (const user of allUsers)] in [runScheduledWorkflows], on
    the pair of [usersForAnalysis] and [usersForEmail]. *)
Definition schedule_user (currentHour : Z) (acc : list user * list user)
    (u : user) : completion (list user * list user) :=
  let timezone := timezone_of u in
  let localHour := localHour_of u in
  utcHour ← convertLocalToUTC localHour timezone;
  let usersForAnalysis :=
    if analysisHour utcHour =? currentHour then (acc.1 ++ [u])%list else acc.1 in
  let usersForEmail :=
    if utcHour =? currentHour then (acc.2 ++ [u])%list else acc.2 in
  mret (usersForAnalysis, usersForEmail).

Fixpoint schedule_users (currentHour : Z) (allUsers : list user)
    (acc : list user * list user) : completion (list user * list user) :=
  match allUsers with
  | [] => mret acc
  | u :: rest =>
      acc' ← schedule_user currentHour acc u;
      schedule_users currentHour rest acc'
  end.

(** The two due sets of a tick. *)
Definition due_sets (currentHour : Z) (allUsers : list user)
  : completion (list user * list user) :=
  schedule_users currentHour allUsers ([], []).

End Scheduler.

(** Platforms used as instances.  The first knows one zone, at a fixed offset
    from UTC, and renders its hours as 0 to 23.  The second renders the hour
    of midnight as 24, as the hour cycle from 1 to 24 does. *)
Definition fixed_offset_platform (known : string) (offset : Z)
  : string -> completion (Z -> option Z) :=
  fun tz => if String.eqb tz known
            then Normal (fun h => Some ((h + offset) mod 24))
            else Throw RangeError.

Definition midnight_as_24_platform (known : string) (offset : Z)
  : string -> completion (Z -> option Z) :=
  fun tz => if String.eqb tz known
            then Normal (fun h => let l := (h + offset) mod 24 in
                                  Some (if l =? 0 then 24 else l))
            else Throw RangeError.

Local Close Scope Z_scope.


(** ** The scheduler: what the resolver settles on *)

(** The hour [runScheduledWorkflows] compares with the current hour for a
    user: what [convertLocalToUTC] returns for the user's preferences. *)
Definition utcHour_of (DateTimeFormat : string -> completion (Z -> option Z))
    (u : user) : Z :=
  match convertLocalToUTC DateTimeFormat (localHour_of u) (timezone_of u) with
  | Normal utcHour => utcHour
  | Throw _ => localHour_of u
  end.

(** The two tests of the loop over the users. *)
Definition analysis_due (DateTimeFormat : string -> completion (Z -> option Z))
    (currentHour : Z) (u : user) : bool :=
  (analysisHour (utcHour_of DateTimeFormat u) =? currentHour)%Z.

Definition email_due (DateTimeFormat : string -> completion (Z -> option Z))
    (currentHour : Z) (u : user) : bool :=
  (utcHour_of DateTimeFormat u =? currentHour)%Z.


(** ** The hashtag renderer: the lines it reads *)

(** The lines of [formatHashtagStrategyHtml]: the pieces between escaped
    newlines of the text without bold markers. *)
Definition hashtag_lines (str : string) : list string :=
  split "\n" (replaceAll "**" "" str).

(** The section title a line starts with, once trimmed: the one the [for]
    loop over [sectionTitles] breaks at. *)
Definition label_of (line : string) : option string :=
  List.find (fun title => startsWith (trim line) title) sectionTitles.

(** A title line that brings no item of its own on the same line. *)
Definition bare_label (line : string) : bool :=
  match label_of line with
  | Some title =>
      negb (startsWith
              (trim (substring_from (String.length title) (trim line))) "- ")
  | None => false
  end.

(** A line that starts, once trimmed, as an item. *)
Definition item_line (line : string) : bool := startsWith (trim line) "- ".


(** ** The theme renderer: the item of one element *)

(** The text [themes.forEach] appends an item for, if it appends one. *)
Definition theme_item (theme : value) : option string :=
  match theme with
  | VStr t =>
      let cleanedTheme :=
        trim (strip_dash (replaceAll "**" "" (strip_ordinal_star t))) in
      if nonempty cleanedTheme
         && (1 <? String.length cleanedTheme)%nat
         && negb (String.eqb cleanedTheme "*")
         && negb (String.eqb cleanedTheme "--")
         && negb (is_bare_ordinal cleanedTheme)
      then Some cleanedTheme
      else None
  | _ => None
  end.


(** ** The assembler: the fields it reads *)

(** The keys of the seven sections, in their order. *)
Definition section_keys : list string :=
  [ "observations"; "keyTakeaways"; "sampleScript"; "technicalSpecifications";
    "contentThemes"; "hashtagStrategy"; "postingFrequency" ].

(** The heading every assembled document starts with. *)
Definition strategy_heading : string :=
  "<h2>Marketing Strategy & Content Ideas</h2>".


(** ** Properties of values *)

(** The elements of an array under their index keys "0", "1", ... *)
Definition indexed (items : list value) : gmap string value :=
  list_to_map (imap (fun i x => (pretty i, x)) items).

(** The code units of a string, each as a string of one unit. *)
Definition units (s : string) : list value :=
  map (fun c => VStr (String c EmptyString)) (list_ascii_of_string s).

(** The own enumerable properties of a value that is neither null nor
    undefined: the fields of an object (the first binding of a key is the
    field), the elements of an array and the units of a string under their
    indices; a number or a boolean has none. *)
Definition own_properties (v : value) : gmap string value :=
  match v with
  | VObj fields => list_to_map fields
  | VArr items => indexed items
  | VStr s => indexed (units s)
  | _ => ∅
  end.

(** [v.k] and [v[k]], for the names this program reads, none of which is
    inherited from a prototype: a TypeError on null and undefined; [length]
    of an array or a string; else the own property, or undefined. *)
Definition get_property (v : value) (k : string) : completion value :=
  match v with
  | VUndefined | VNull => Throw TypeError
  | VArr items =>
      Normal (if String.eqb k "length" then VNum (Z.of_nat (length items))
              else get (own_properties v) k)
  | VStr s =>
      Normal (if String.eqb k "length" then VNum (Z.of_nat (String.length s))
              else get (own_properties v) k)
  | _ => Normal (get (own_properties v) k)
  end.

(** [v?.k] *)
Definition optional_get (v : value) (k : string) : value :=
  match get_property v k with
  | Normal x => x
  | Throw _ => VUndefined
  end.

(** [Object.keys(v).length], a TypeError on null and undefined. *)
Definition keys_length (v : value) : completion nat :=
  match v with
  | VUndefined | VNull => Throw TypeError
  | _ => Normal (length (Object_keys (own_properties v)))
  end.

(** The argument of [formatMarketingStrategyToHtml] for a value: a falsy
    value takes the first [return] as null does, and any other value is read
    through its own properties. *)
Definition document_of (v : value) : option (gmap string value) :=
  if truthy v then Some (own_properties v) else None.

(** [v === null || v === undefined] *)
Definition nullish (v : value) : bool :=
  match v with
  | VUndefined | VNull => true
  | _ => false
  end.

(** Number::toString on the integers: a safe integer (of magnitude below
    2^53) is written in decimal; for the others, which are written with their
    shortest digits followed by zeros or by an exponent, the text is taken
    from [large]. *)
Definition Number_toString (large : Z -> string) (n : Z) : string :=
  if (Z.abs n <? 2 ^ 53)%Z then pretty n else large n.

(** Whether an object has a field [toString] of its own: it hides the method
    of Object.prototype, and is not callable. *)
Definition hides_toString (fields : list (string * value)) : bool :=
  existsb (fun field => String.eqb field.1 "toString") fields.

(** ToString, as a template literal applies it.  An array is joined with
    commas, null and undefined elements as the empty string; an object is
    [[object Object]], unless a field [toString] of its own hides the method,
    when no primitive value is found and a TypeError is thrown. *)
Fixpoint ToString (large : Z -> string) (v : value) : completion string :=
  match v with
  | VUndefined => Normal "undefined"
  | VNull => Normal "null"
  | VBool b => Normal (if b then "true" else "false")
  | VNum n => Normal (Number_toString large n)
  | VNaN => Normal "NaN"
  | VStr s => Normal s
  | VArr items =>
      pieces ← (fix each (xs : list value) : completion (list string) :=
                  match xs with
                  | [] => Normal []
                  | x :: rest =>
                      piece ← (if nullish x then Normal ""
                               else ToString large x);
                      pieces ← each rest;
                      Normal (piece :: pieces)
                  end) items;
      Normal (String.concat "," pieces)
  | VObj fields =>
      if hides_toString fields then Throw TypeError
      else Normal "[object Object]"
  end.


(** ** The orchestration *)

(** A row of [users]: the columns of [user], and the columns the two passes
    read.  A column of text is null ([None]) or holds a string, the flag is
    null or a boolean, and [last_analysis_results] holds any value of JSON. *)
Record account : Type := Account {
  preferences : user;
  email : option string;
  full_name : option string;
  business_description : option string;
  auth_id : option string;
  last_analysis_results : value;
  analysis_ready_for_email : option bool
}.

(** The value of a column of text, and of the flag. *)
Definition text (column : option string) : value :=
  match column with
  | Some s => VStr s
  | None => VNull
  end.

Definition flag (column : option bool) : value :=
  match column with
  | Some b => VBool b
  | None => VNull
  end.

(** The body of the request of [runWorkflowForUser]. *)
Record workflow_request : Type := WorkflowRequest {
  businessDescription : value;
  userId : value;
  videosPerQuery : Z
}.

(** The argument of [sendTransacEmail]: one recipient, the sender, the
    subject and the page. *)
Record smtp_email : Type := SmtpEmail {
  to_email : value;
  to_name : value;
  sender_email : value;
  sender_name : string;
  subject : string;
  htmlContent : string
}.

(** The three objects the program passes to [update]; the time stamps they
    hold are left out. *)
Inductive patch : Type :=
  | LastWorkflowRun
      (* { last_workflow_run: now } *)
  | AnalysisStored (result : value)
      (* { last_analysis_results: result, analysis_ready_for_email: true } *)
  | EmailSent.
      (* { last_email_sent: now, analysis_ready_for_email: false } *)

(** The calls the program makes to its collaborators. *)
Inductive event : Type :=
  | SelectUsers
      (* supabase.from('users').select('*').eq('email_notifications', true) *)
  | Post (request : workflow_request)
      (* api.post('/api/complete-workflow', request) *)
  | Update (row : nat) (change : patch)
      (* supabase.from('users').update(change).eq('id', row) *)
  | SendTransacEmail (mail : smtp_email).
      (* emailApi.sendTransacEmail(mail) *)

(** What is thrown, or what a promise is rejected with. *)
Inductive exception : Type :=
  | Builtin (e : error)
  | NewError (message : string)
  | Reason (v : value).

(** [error.message] in a handler; what is read is only logged.  An Error has
    a message; on any other value the read is that of a property, and throws
    on null and undefined. *)
Definition read_message (x : exception) : completion unit :=
  match x with
  | Builtin _ | NewError _ => mret tt
  | Reason v => _ ← get_property v "message"; mret tt
  end.

(** [error.response] and [error.request]: an Error of the program or of a
    built-in has neither. *)
Definition error_property (x : exception) (k : string) : completion value :=
  match x with
  | Builtin _ | NewError _ => mret VUndefined
  | Reason v => get_property v k
  end.

(** A promise, settled. *)
Inductive settled (A : Type) : Type :=
  | Fulfilled (a : A)
  | Rejected (x : exception).
Arguments Fulfilled {A} a.
Arguments Rejected {A} x.

(** An asynchronous computation, awaited: from the calls made before it
    starts, how it settles and the calls it makes, in order. *)
Definition task (A : Type) : Type := list event -> settled A * list event.

#[global] Instance task_ret : MRet task := fun _ a _ => (Fulfilled a, []).
#[global] Instance task_bind : MBind task := fun _ _ f t history =>
  match t history with
  | (Fulfilled a, made) =>
      let '(r, made') := f a (history ++ made)%list in (r, (made ++ made')%list)
  | (Rejected x, made) => (Rejected x, made)
  end.

(** An awaited call to a collaborator: it is recorded, and it settles as the
    collaborator decides. *)
Definition perform {A} (call : event) (outcome : list event -> settled A)
  : task A :=
  fun history => (outcome history, [call]).

(** [throw x] *)
Definition throw {A} (x : exception) : task A := fun _ => (Rejected x, []).

(** [try { body } catch (error) { handler }] around awaited calls. *)
Definition try_task {A} (body : task A) (handler : exception -> task A)
  : task A :=
  fun history =>
    match body history with
    | (Fulfilled a, made) => (Fulfilled a, made)
    | (Rejected x, made) =>
        let '(r, made') := handler x (history ++ made)%list in
        (r, (made ++ made')%list)
    end.

(** A synchronous computation inside an asynchronous one. *)
Definition of_completion {A} (c : completion A) : task A :=
  match c with
  | Normal a => mret a
  | Throw e => throw (Builtin e)
  end.

(** [for (const x of xs) { await body(x) }] *)
Fixpoint for_each {A} (xs : list A) (body : A -> task unit) : task unit :=
  match xs with
  | [] => mret tt
  | x :: rest => _ ← body x; for_each rest body
  end.

(** What [select] resolves to. *)
Record select_result : Type := SelectResult {
  data : option (list account);
  select_error : value
}.

(** The text of the template literal of [sendAnalysisEmail] up to the name in the greeting. *)
Definition template_head : string :=
  "
      <html>
        <head>
          <style>
            body { font-family: sans-serif; line-height: 1.6; color: #333; }
            h1 { color: #1a1a1a; }
            h2 { color: #2c2c2c; border-bottom: 1px solid #eee; padding-bottom: 5px; margin-top: 30px;}
            h3 { color: #444; margin-top: 25px; }
            h4 { color: #555; margin-top: 20px; }
            ul { margin-left: 20px; padding-left: 0; }
            li { margin-bottom: 8px; }
            p { margin-bottom: 12px; }
            .container { max-width: 700px; margin: 20px auto; padding: 20px; border: 1px solid #ddd; border-radius: 5px; }
            .footer { margin-top: 30px; font-size: 0.9em; color: #777; }
          </style>
        </head>
        <body>
          <div class="
  +:+ dquote +:+ "container"
  +:+ dquote +:+ ">
            <h1>Your TikTok Analysis Results</h1>
            <p>Hello ".

(** The text of the template literal of [sendAnalysisEmail] from the greeting to the count of queries. *)
Definition template_queries : string :=
  ",</p>
            <p>We've completed your scheduled TikTok trend analysis. Here's what we found:</p>

            <h2>Analysis Stats</h2>
            <ul>
              <li>Search Queries Analyzed: ".

(** The text of the template literal of [sendAnalysisEmail] from the count of queries to the count of videos. *)
Definition template_videos : string :=
  "</li>
              <li>TikTok Videos Analyzed: ".

(** The text of the template literal of [sendAnalysisEmail] from the count of videos to the strategy. *)
Definition template_strategy : string :=
  "</li>
            </ul>

            ".

(** The text of the template literal of [sendAnalysisEmail] after the strategy. *)
Definition template_foot : string :=
  "

            <p class="
  +:+ dquote +:+ "footer"
  +:+ dquote +:+ ">Log in to your dashboard to see the full analysis and more detailed recommendations.</p>
            <p class="
  +:+ dquote +:+ "footer"
  +:+ dquote +:+ ">Best regards,<br>The Complete Lazy Trend Team</p>
          </div>
        </body>
      </html>
    ".


(** The template literal of [sendAnalysisEmail], with its four holes. *)
Definition email_template
    (name queriesCount videosCount formattedStrategyHtml : string) : string :=
  template_head +:+ name +:+ template_queries +:+ queriesCount
  +:+ template_videos +:+ videosCount +:+ template_strategy
  +:+ formattedStrategyHtml +:+ template_foot.

Section Orchestration.

(** The collaborators: how each call settles, given the calls made before
    it.  [api_post] resolves to the response.

    The calls to [console] are left out where they write columns of text,
    numbers and keys, which a template literal always converts; where a
    handler reads a property of what it caught, or writes such a property
    into a template literal, the read and the conversion are kept, since
    they can throw. *)
Variable api_post : list event -> workflow_request -> settled value.
Variable store_select : list event -> settled select_result.
Variable store_update : list event -> nat -> patch -> settled unit.
Variable sendTransacEmail : list event -> smtp_email -> settled unit.

(** [process.env.EMAIL_SENDER] *)
Variable EMAIL_SENDER : value.

Variable JSON_parse : value -> completion value.
Variable DateTimeFormat : string -> completion (Z -> option Z).

(** Number::toString on the integers that are not safe. *)
Variable large : Z -> string.

(** The [catch] block of [runWorkflowForUser], up to its [return]: the
    properties it reads and the one it writes into a template literal. *)
Definition log_workflow_error (error : exception) : completion unit :=
  _ ← read_message error;
  response ← error_property error "response";
  if truthy response then
    status ← get_property response "status";
    _ ← ToString large status;
    _ ← get_property response "data";
    mret tt
  else
    request ← error_property error "request";
    if truthy request then mret tt
    else read_message error.

(** [async function runWorkflowForUser(user)] *)
Definition runWorkflowForUser (user : account) : task value :=
  try_task
    (if negb (truthy (text (business_description user))) then mret VNull
     else
       let userId := text (auth_id user) in
       _ ← (if negb (truthy userId)
            then throw (NewError "User auth_id is required for workflow execution")
            else mret tt);
       let request :=
         WorkflowRequest (text (business_description user)) userId 3 in
       response ←
         perform (Post request) (fun history => api_post history request);
       of_completion (get_property response "data"))
    (fun error =>
       _ ← of_completion (log_workflow_error error);
       mret VNull).

(** [async function updateLastRunTimestamp(userId)] *)
Definition updateLastRunTimestamp (row : nat) : task unit :=
  try_task
    (perform (Update row LastWorkflowRun)
       (fun history => store_update history row LastWorkflowRun))
    (fun error => of_completion (read_message error)).

(** The template literal and the object [sendSmtpEmail] of
    [sendAnalysisEmail]. *)
Definition analysis_email (user : account) (analysisResults_data : value)
    (formattedStrategyHtml : string) : completion smtp_email :=
  let queriesCount :=
    js_or (optional_get (optional_get analysisResults_data "searchQueries")
             "length") (VNum 0) in
  let videosCount :=
    js_or (optional_get analysisResults_data "videosCount") (VNum 0) in
  name ← ToString large (js_or (text (full_name user)) (VStr "there"));
  queries ← ToString large queriesCount;
  videos ← ToString large videosCount;
  mret (SmtpEmail (text (email user))
          (js_or (text (full_name user)) (text (email user)))
          (js_or EMAIL_SENDER (VStr "noreply@lazy-trends.com"))
          "The Complete Lazy Trend"
          "Your TikTok Trend Analysis Results"
          (email_template name queries videos formattedStrategyHtml)).

(** [async function sendAnalysisEmail(user, analysisResults)] *)
Definition sendAnalysisEmail (user : account) (analysisResults : value)
  : task bool :=
  try_task
    (if negb (truthy (text (email user))) then mret false
     else
       data ← of_completion (get_property analysisResults "data");
       let marketingStrategyData :=
         js_or (optional_get data "marketingStrategy") (VObj []) in
       formattedStrategyHtml ←
         of_completion
           (formatMarketingStrategyToHtml JSON_parse
              (document_of marketingStrategyData));
       sendSmtpEmail ←
         of_completion (analysis_email user data formattedStrategyHtml);
       _ ← perform (SendTransacEmail sendSmtpEmail)
             (fun history => sendTransacEmail history sendSmtpEmail);
       mret true)
    (fun error =>
       _ ← of_completion (read_message error);
       mret false).

(** One turn of the loop over the users, on the rows. *)
Definition schedule_account (currentHour : Z)
    (acc : list account * list account) (a : account)
  : completion (list account * list account) :=
  let timezone := timezone_of (preferences a) in
  let localHour := localHour_of (preferences a) in
  utcHour ← convertLocalToUTC DateTimeFormat localHour timezone;
  let usersForAnalysis :=
    if (analysisHour utcHour =? currentHour)%Z
    then (acc.1 ++ [a])%list else acc.1 in
  let usersForEmail :=
    if (utcHour =? currentHour)%Z then (acc.2 ++ [a])%list else acc.2 in
  mret (usersForAnalysis, usersForEmail).

Fixpoint schedule_accounts (currentHour : Z) (allUsers : list account)
    (acc : list account * list account)
  : completion (list account * list account) :=
  match allUsers with
  | [] => mret acc
  | a :: rest =>
      acc' ← schedule_account currentHour acc a;
      schedule_accounts currentHour rest acc'
  end.

(** [result && Object.keys(result).length > 0] *)
Definition has_keys (result : value) : completion bool :=
  if truthy result then n ← keys_length result; mret (0 <? n)%nat
  else mret false.

(** The body of [for (const user of usersForAnalysis)]. *)
Definition analysis_turn (user : account) : task unit :=
  result ← runWorkflowForUser user;
  stored ← of_completion (has_keys result);
  if stored : bool then
    _ ← updateLastRunTimestamp (id (preferences user));
    _ ← perform (Update (id (preferences user)) (AnalysisStored result))
          (fun history =>
             store_update history (id (preferences user))
               (AnalysisStored result));
    mret tt
  else mret tt.

(** [user.analysis_ready_for_email && user.last_analysis_results &&
    Object.keys(user.last_analysis_results).length > 0] *)
Definition ready_for_email (user : account) : completion bool :=
  if truthy (flag (analysis_ready_for_email user))
  then has_keys (last_analysis_results user)
  else mret false.

(** The body of [for (const user of usersForEmail)]. *)
Definition email_turn (user : account) : task unit :=
  ready ← of_completion (ready_for_email user);
  if ready : bool then
    emailSent ← sendAnalysisEmail user (last_analysis_results user);
    if emailSent : bool then
      perform (Update (id (preferences user)) EmailSent)
        (fun history => store_update history (id (preferences user)) EmailSent)
    else mret tt
  else mret tt.

(** [async function runScheduledWorkflows()], at the hour
    [now.getUTCHours()]. *)
Definition runScheduledWorkflows (currentHour : Z) : task unit :=
  try_task
    (selected ← perform SelectUsers store_select;
     _ ← (if truthy (select_error selected)
          then throw (Reason (select_error selected)) else mret tt);
     allUsers ← match data selected with
                | Some rows => mret rows
                | None => throw (Builtin TypeError)
                end;
     '(usersForAnalysis, usersForEmail) ←
       of_completion (schedule_accounts currentHour allUsers ([], []));
     _ ← for_each usersForAnalysis analysis_turn;
     _ ← for_each usersForEmail email_turn;
     mret tt)
    (fun _ => mret tt).

End Orchestration.


(** ** The orchestration: reading a run *)

(** The prerequisites of [runWorkflowForUser]. *)
Definition eligible (user : account) : bool :=
  truthy (text (business_description user)) && truthy (text (auth_id user)).

(** The request [runWorkflowForUser] posts for a user. *)
Definition request_of (user : account) : workflow_request :=
  WorkflowRequest (text (business_description user)) (text (auth_id user)) 3.

(** A rejection whose reason is null or undefined. *)
Definition nullish_reason (x : exception) : bool :=
  match x with
  | Reason v => nullish v
  | _ => false
  end.

(** A rejection that the [catch] block of [runWorkflowForUser] logs without
    throwing: an Error; or a value other than null and undefined of which the
    [response], when truthy, has a [status] that a template literal can
    write. *)
Definition loggable (large : Z -> string) (x : exception) : Prop :=
  match x with
  | Reason v =>
      nullish v = false
      /\ (truthy (optional_get v "response") = true ->
          exists written,
            ToString large (optional_get (optional_get v "response") "status")
            = Normal written)
  | _ => True
  end.

(** What [runWorkflowForUser] gives for a response. *)
Definition data_of (response : value) : value :=
  match get_property response "data" with
  | Normal response_data => response_data
  | Throw _ => VNull
  end.

(** The requests posted, the mails handed to the transport and the updates
    of the store among the calls of a run, in order. *)
Definition posts (made : list event) : list workflow_request :=
  omap (fun call => match call with Post request => Some request | _ => None end)
       made.

Definition mails (made : list event) : list smtp_email :=
  omap (fun call => match call with
                    | SendTransacEmail mail => Some mail
                    | _ => None
                    end) made.

Definition updates (made : list event) : list (nat * patch) :=
  omap (fun call => match call with
                    | Update row change => Some (row, change)
                    | _ => None
                    end) made.

(** The mail [sendAnalysisEmail] hands to the transport for a user and
    stored results, when it gets that far. *)
Definition mail_for (EMAIL_SENDER : value)
    (JSON_parse : value -> completion value) (large : Z -> string)
    (user : account) (analysisResults : value) : option smtp_email :=
  if truthy (text (email user)) then
    match
      data ← get_property analysisResults "data";
      formattedStrategyHtml ←
        formatMarketingStrategyToHtml JSON_parse
          (document_of
             (js_or (optional_get data "marketingStrategy") (VObj [])));
      analysis_email EMAIL_SENDER large user data formattedStrategyHtml
    with
    | Normal mail => Some mail
    | Throw _ => None
    end
  else None.

(** The mail of the email pass for a row: the one for its stored results,
    when the row is ready. *)
Definition mail_due (EMAIL_SENDER : value)
    (JSON_parse : value -> completion value) (large : Z -> string)
    (user : account) : option smtp_email :=
  match ready_for_email user with
  | Normal true =>
      mail_for EMAIL_SENDER JSON_parse large user (last_analysis_results user)
  | _ => None
  end.

(** The name in the greeting of the page. *)
Definition greeting_name (user : account) : string :=
  match full_name user with
  | Some name => if nonempty name then name else "there"
  | None => "there"
  end.

(** Whether a promise was fulfilled. *)
Definition fulfilled {A} (s : settled A) : bool :=
  match s with Fulfilled _ => true | Rejected _ => false end.


(** ** The orchestration: what a turn of each pass does *)

(** The calls of one turn of the analysis pass for a row. *)
Definition analysis_turn_made
    (api_post : list event -> workflow_request -> settled value)
    (user : account) (made : list event) : Prop :=
  posts made = (if eligible user then [request_of user] else [])
  /\ mails made = []
  /\ forall row change,
       (row, change) ∈ updates made ->
       row = id (preferences user)
       /\ eligible user = true
       /\ exists response history,
            api_post history (request_of user) = Fulfilled response
            /\ has_keys (data_of response) = Normal true
            /\ (change = LastWorkflowRun
                \/ change = AnalysisStored (data_of response)).

(** The calls of one turn of the email pass for a row. *)
Definition email_turn_made
    (sendTransacEmail : list event -> smtp_email -> settled unit)
    (EMAIL_SENDER : value) (JSON_parse : value -> completion value)
    (large : Z -> string)
    (user : account) (made : list event) : Prop :=
  posts made = []
  /\ mails made = option_list (mail_due EMAIL_SENDER JSON_parse large user)
  /\ forall row change,
       (row, change) ∈ updates made ->
       row = id (preferences user)
       /\ change = EmailSent
       /\ exists mail history,
            mail_due EMAIL_SENDER JSON_parse large user = Some mail
            /\ sendTransacEmail history mail = Fulfilled tt.


(** ** Rows and collaborators used as instances *)

(** Stored results with the counts and the strategy under [data]; and
    without that field. *)
Definition stored_report : value :=
  VObj [("data",
         VObj [("searchQueries", VArr [VStr "bread"; VStr "cake"]);
               ("videosCount", VNum 6);
               ("marketingStrategy",
                VObj [("keyTakeaways", VStr "- a\n- b")])])].

Definition bare_report : value :=
  VObj [("searchQueries", VArr [VStr "bread"; VStr "cake"]);
        ("videosCount", VNum 6);
        ("marketingStrategy", VObj [("keyTakeaways", VStr "- a\n- b")])].

Definition ann : account :=
  Account (User 1 (Some "UTC") (Some 9%Z)) (Some "ann@example.org")
    (Some "Ann") (Some "bakery") (Some "auth-1") stored_report (Some true).

Definition bob : account :=
  Account (User 2 (Some "UTC") (Some 10%Z)) (Some "bob@example.org")
    None (Some "cafe") (Some "auth-2") VNull (Some false).

Definition cyd : account :=
  Account (User 3 (Some "UTC") (Some 10%Z)) (Some "cyd@example.org")
    None (Some "bar") None VNull (Some false).

(** A row in Karachi, five hours ahead of UTC, with the email at 5. *)
Definition dua : account :=
  Account (User 4 (Some "Asia/Karachi") (Some 5%Z)) (Some "dua@example.org")
    (Some "Dua") (Some "tea house") (Some "auth-4") bare_report (Some true).

(** The instances hold no integer that is not safe. *)
Definition no_large_integer : Z -> string := fun _ => "".

Definition service_up (response_data : value)
  : list event -> workflow_request -> settled value :=
  fun _ _ => Fulfilled (VObj [("data", response_data)]).

(** A service that rejects as an HTTP client does on a status out of the
    range of success: with an object that has a message and a response. *)
Definition service_fails : list event -> workflow_request -> settled value :=
  fun _ _ =>
    Rejected
      (Reason
         (VObj [("message", VStr "Request failed with status code 500");
                ("response",
                 VObj [("status", VNum 500); ("data", VStr "busy")])])).

(** A service that rejects without a reason. *)
Definition service_rejects_with_null
  : list event -> workflow_request -> settled value :=
  fun _ _ => Rejected (Reason VNull).

Definition store_answers : list event -> nat -> patch -> settled unit :=
  fun _ _ _ => Fulfilled tt.

Definition store_refuses_results : list event -> nat -> patch -> settled unit :=
  fun _ _ change =>
    match change with
    | AnalysisStored _ => Rejected (NewError "fetch failed")
    | _ => Fulfilled tt
    end.

Definition transport_accepts : list event -> smtp_email -> settled unit :=
  fun _ _ => Fulfilled tt.

Definition rows_loaded (rows : list account)
  : list event -> settled select_result :=
  fun _ => Fulfilled (SelectResult (Some rows) VNull).

(** * Properties *)

(** ** The bounded recursions reach the end of the string

    [replaceAll], [split] and [collapse_breaks] recurse on a bound, the
    length of the string.  A step leaves a string that is shorter, so the
    bound is never what stops them: any larger bound gives the same result,
    and the functions satisfy the equations of the unbounded recursion. *)

Lemma strip_prefix_length (a : ascii) (p s rest : string) :
  strip_prefix (String a p) s = Some rest ->
  String.length rest < String.length s.
Proof.
  destruct s as [|c r]; simpl; [discriminate|].
  destruct (Ascii.eqb a c); [|discriminate].
  revert r. induction p as [|b p IH]; intros r; simpl.
  - intros [= ->]. lia.
  - destruct r as [|c' r]; [discriminate|].
    destruct (Ascii.eqb b c'); [|discriminate].
    intros Hrest. apply IH in Hrest. simpl. lia.
Qed.

Lemma replaceAll_from_enough (a : ascii) (p rep : string) (fuel1 fuel2 : nat) :
  forall s,
    String.length s <= fuel1 -> String.length s <= fuel2 ->
    replaceAll_from fuel1 (String a p) rep s
    = replaceAll_from fuel2 (String a p) rep s.
Proof.
  revert fuel2. induction fuel1 as [|fuel1 IH]; intros fuel2 s H1 H2.
  - destruct s; [|simpl in H1; lia]. now destruct fuel2.
  - destruct fuel2 as [|fuel2].
    + destruct s; [reflexivity|simpl in H2; lia].
    + destruct s as [|c r]; [reflexivity|]. cbn [replaceAll_from].
      destruct (strip_prefix (String a p) (String c r)) as [rest|] eqn:Hp.
      * apply strip_prefix_length in Hp. simpl in *.
        f_equal. apply IH; lia.
      * simpl in *. f_equal. apply IH; lia.
Qed.

(** The equation of [replaceAll] at a string that is not empty. *)
Lemma replaceAll_step (a c : ascii) (p rep r : string) :
  replaceAll (String a p) rep (String c r)
  = match strip_prefix (String a p) (String c r) with
    | Some rest => rep +:+ replaceAll (String a p) rep rest
    | None => String c (replaceAll (String a p) rep r)
    end.
Proof.
  unfold replaceAll. cbn [String.length replaceAll_from].
  destruct (strip_prefix (String a p) (String c r)) as [rest|] eqn:Hp.
  - apply strip_prefix_length in Hp. simpl in Hp.
    f_equal. apply replaceAll_from_enough; lia.
  - reflexivity.
Qed.

Lemma split_from_enough (a : ascii) (p : string) (fuel1 fuel2 : nat) :
  forall cur s,
    String.length s <= fuel1 -> String.length s <= fuel2 ->
    split_from fuel1 (String a p) cur s = split_from fuel2 (String a p) cur s.
Proof.
  revert fuel2. induction fuel1 as [|fuel1 IH]; intros fuel2 cur s H1 H2.
  - destruct s; [|simpl in H1; lia]. now destruct fuel2.
  - destruct fuel2 as [|fuel2].
    + destruct s; [reflexivity|simpl in H2; lia].
    + destruct s as [|c r]; [reflexivity|]. cbn [split_from].
      destruct (strip_prefix (String a p) (String c r)) as [rest|] eqn:Hp.
      * apply strip_prefix_length in Hp. simpl in *.
        f_equal. apply IH; lia.
      * simpl in *. apply IH; lia.
Qed.

Lemma trimStart_length (s : string) :
  String.length (trimStart s) <= String.length s.
Proof.
  induction s as [|c r IH]; simpl; [lia|].
  destruct (is_space c); simpl; lia.
Qed.

Lemma br_unit_length (s rest : string) :
  br_unit s = Some rest -> String.length rest < String.length s.
Proof.
  unfold br_unit.
  destruct (strip_prefix "<br>" s) as [r|] eqn:Hp; [|discriminate].
  intros [= <-]. apply strip_prefix_length in Hp.
  pose proof (trimStart_length r). lia.
Qed.

Lemma skip_br_units_length (fuel : nat) (s : string) :
  String.length (skip_br_units fuel s) <= String.length s.
Proof.
  revert s. induction fuel as [|fuel IH]; intros s; simpl; [lia|].
  destruct (br_unit s) as [r|] eqn:Hu; [|lia].
  apply br_unit_length in Hu. specialize (IH r). lia.
Qed.

Lemma skip_br_units_enough (fuel1 fuel2 : nat) :
  forall s,
    String.length s <= fuel1 -> String.length s <= fuel2 ->
    skip_br_units fuel1 s = skip_br_units fuel2 s.
Proof.
  revert fuel2. induction fuel1 as [|fuel1 IH]; intros fuel2 s H1 H2.
  - destruct s; [|simpl in H1; lia]. now destruct fuel2.
  - destruct fuel2 as [|fuel2].
    + destruct s; [reflexivity|simpl in H2; lia].
    + simpl. destruct (br_unit s) as [r|] eqn:Hu; [|reflexivity].
      apply br_unit_length in Hu. apply IH; lia.
Qed.

Lemma collapse_breaks_from_enough (fuel1 fuel2 : nat) :
  forall s,
    String.length s <= fuel1 -> String.length s <= fuel2 ->
    collapse_breaks_from fuel1 s = collapse_breaks_from fuel2 s.
Proof.
  revert fuel2. induction fuel1 as [|fuel1 IH]; intros fuel2 s H1 H2.
  - destruct s; [|simpl in H1; lia]. now destruct fuel2.
  - destruct fuel2 as [|fuel2].
    + destruct s; [reflexivity|simpl in H2; lia].
    + destruct s as [|c r]; [reflexivity|]. cbn [collapse_breaks_from].
      destruct (br_unit (String c r)) as [r1|] eqn:Hu1.
      * destruct (br_unit r1) as [r2|] eqn:Hu2.
        -- apply br_unit_length in Hu1, Hu2.
           pose proof (skip_br_units_length (String.length r2) r2).
           simpl in *. f_equal. apply IH; lia.
        -- simpl in *. f_equal. apply IH; lia.
      * simpl in *. f_equal. apply IH; lia.
Qed.

(** The equation of [collapse_breaks] at a string that is not empty. *)
Lemma collapse_breaks_step (c : ascii) (r : string) :
  collapse_breaks (String c r)
  = match br_unit (String c r) with
    | Some r1 =>
        match br_unit r1 with
        | Some r2 =>
            "<br>" +:+ collapse_breaks (skip_br_units (String.length r2) r2)
        | None => String c (collapse_breaks r)
        end
    | None => String c (collapse_breaks r)
    end.
Proof.
  unfold collapse_breaks. cbn [String.length collapse_breaks_from].
  destruct (br_unit (String c r)) as [r1|] eqn:Hu1; [|reflexivity].
  destruct (br_unit r1) as [r2|] eqn:Hu2; [|reflexivity].
  apply br_unit_length in Hu1, Hu2.
  pose proof (skip_br_units_length (String.length r2) r2).
  simpl in *. f_equal. apply collapse_breaks_from_enough; lia.
Qed.

(** ** The scheduler *)

Section SchedulerFacts.

Local Open Scope Z_scope.

Variable DateTimeFormat : string -> completion (Z -> option Z).

Implicit Types (localHour utcHour currentHour : Z) (tz : string).

Lemma same_number_true (a : option Z) (b : Z) :
  same_number a b = true <-> a = Some b.
Proof.
  destruct a as [x|]; simpl; [|split; discriminate].
  rewrite Z.eqb_eq. split; congruence.
Qed.

Lemma same_number_false (a : option Z) (b : Z) :
  same_number a b = false <-> a <> Some b.
Proof.
  rewrite <- same_number_true. destruct (same_number a b); split; congruence.
Qed.

(** A candidate the loop returns is one of those it tried. *)
Lemma candidates_from_range count h0 localHour tz h :
  candidates_from DateTimeFormat count h0 localHour tz = Normal (Some h) ->
  h0 <= h < h0 + Z.of_nat count.
Proof.
  revert h0. induction count as [|count IH]; intros h0; simpl.
  - discriminate.
  - destruct (DateTimeFormat tz) as [formatter|e]; simpl; [|discriminate].
    destruct (same_number (formatter h0) localHour).
    + intros [= <-]. lia.
    + intros Hrest. apply IH in Hrest. lia.
Qed.

(** A candidate the loop returns renders to the local hour. *)
Lemma candidates_from_sound count h0 localHour tz h :
  candidates_from DateTimeFormat count h0 localHour tz = Normal (Some h) ->
  exists formatter,
    DateTimeFormat tz = Normal formatter /\ formatter h = Some localHour.
Proof.
  revert h0. induction count as [|count IH]; intros h0; simpl.
  - discriminate.
  - destruct (DateTimeFormat tz) as [formatter|e] eqn:Hfmt; simpl;
      [|discriminate].
    destruct (same_number (formatter h0) localHour) eqn:Hsame.
    + intros [= <-]. exists formatter. split; [reflexivity|].
      now apply same_number_true.
    + intros Hrest. destruct (IH _ Hrest) as (f & Hf & Hh).
      exists f. split; [assumption|exact Hh].
Qed.

(** The loop returns the first candidate that renders to the local hour. *)
Lemma candidates_from_first formatter tz localHour count h0 k :
  DateTimeFormat tz = Normal formatter ->
  h0 <= k < h0 + Z.of_nat count ->
  formatter k = Some localHour ->
  (forall j, h0 <= j < k -> formatter j <> Some localHour) ->
  candidates_from DateTimeFormat count h0 localHour tz = Normal (Some k).
Proof.
  intros Hfmt. revert h0.
  induction count as [|count IH]; intros h0 Hk Hhit Hmiss; simpl.
  - lia.
  - rewrite Hfmt; simpl.
    destruct (same_number (formatter h0) localHour) eqn:Hsame.
    + apply same_number_true in Hsame.
      destruct (Z.eq_dec h0 k) as [->|Hne]; [reflexivity|].
      exfalso. apply (Hmiss h0); [lia|assumption].
    + apply same_number_false in Hsame.
      apply IH; [|assumption|intros j Hj; apply Hmiss; lia].
      destruct (Z.eq_dec h0 k) as [->|Hne]; [contradiction|lia].
Qed.

(** The loop runs to its end when no candidate renders to the local hour. *)
Lemma candidates_from_none formatter tz localHour count h0 :
  DateTimeFormat tz = Normal formatter ->
  (forall j, h0 <= j < h0 + Z.of_nat count -> formatter j <> Some localHour) ->
  candidates_from DateTimeFormat count h0 localHour tz = Normal None.
Proof.
  intros Hfmt. revert h0.
  induction count as [|count IH]; intros h0 Hmiss; simpl; [reflexivity|].
  rewrite Hfmt; simpl.
  destruct (same_number (formatter h0) localHour) eqn:Hsame.
  - apply same_number_true in Hsame. exfalso. apply (Hmiss h0); [lia|assumption].
  - apply IH. intros j Hj. apply Hmiss. lia.
Qed.

(** The loop throws at once when the formatter cannot be made. *)
Lemma candidates_from_throw tz e localHour count h0 :
  DateTimeFormat tz = Throw e ->
  candidates_from DateTimeFormat (S count) h0 localHour tz = Throw e.
Proof. intros Hfmt. simpl. now rewrite Hfmt. Qed.

(** [convertLocalToUTC] returns: its handler catches what the loop throws. *)
Lemma convertLocalToUTC_returns localHour tz :
  exists utcHour, convertLocalToUTC DateTimeFormat localHour tz = Normal utcHour.
Proof.
  unfold convertLocalToUTC.
  destruct (candidates_from DateTimeFormat 24 0 localHour tz) as [[h|]|e]; simpl;
    eauto.
Qed.

Lemma convertLocalToUTC_resolved localHour tz h :
  candidates_from DateTimeFormat 24 0 localHour tz = Normal (Some h) ->
  convertLocalToUTC DateTimeFormat localHour tz = Normal h /\ 0 <= h < 24.
Proof.
  intros Hloop. split.
  - unfold convertLocalToUTC. now rewrite Hloop.
  - apply candidates_from_range in Hloop. lia.
Qed.

(** The hour of the analysis is never the hour of the email. *)
Lemma analysisHour_differs utcHour : analysisHour utcHour <> utcHour.
Proof. unfold analysisHour. Z.quot_rem_to_equations. lia. Qed.

(** One turn of the loop over the users: the resolver returns an hour, and
    the user joins each list by the test of the source. *)
Lemma schedule_user_spec currentHour (acc : list user * list user) (u : user) :
  exists utcHour,
    convertLocalToUTC DateTimeFormat (localHour_of u) (timezone_of u)
      = Normal utcHour
    /\ schedule_user DateTimeFormat currentHour acc u
       = Normal
           (if analysisHour utcHour =? currentHour
            then (acc.1 ++ [u])%list else acc.1,
            if utcHour =? currentHour then (acc.2 ++ [u])%list else acc.2).
Proof.
  destruct (convertLocalToUTC_returns (localHour_of u) (timezone_of u))
    as [utcHour Hconv].
  exists utcHour. split; [assumption|].
  unfold schedule_user. now rewrite Hconv.
Qed.

(** The loop over the users returns, and who is in its two lists. *)
Lemma schedule_users_spec currentHour (allUsers : list user) :
  forall acc : list user * list user,
  exists usersForAnalysis usersForEmail,
    schedule_users DateTimeFormat currentHour allUsers acc
      = Normal (usersForAnalysis, usersForEmail)
    /\ (forall u, u ∈ usersForAnalysis ->
          u ∈ acc.1
          \/ exists utcHour,
               convertLocalToUTC DateTimeFormat (localHour_of u) (timezone_of u)
                 = Normal utcHour
               /\ analysisHour utcHour = currentHour)
    /\ (forall u, u ∈ usersForEmail ->
          u ∈ acc.2
          \/ exists utcHour,
               convertLocalToUTC DateTimeFormat (localHour_of u) (timezone_of u)
                 = Normal utcHour
               /\ utcHour = currentHour).
Proof.
  induction allUsers as [|u0 rest IH]; intros acc; simpl.
  - exists acc.1, acc.2. destruct acc; simpl. repeat split; auto.
  - destruct (schedule_user_spec currentHour acc u0) as (h0 & Hconv & Hstep).
    rewrite Hstep; simpl.
    destruct (IH (if analysisHour h0 =? currentHour
                  then (acc.1 ++ [u0])%list else acc.1,
                  if h0 =? currentHour then (acc.2 ++ [u0])%list else acc.2))
      as (A & E & Hrun & HA & HE).
    exists A, E. split; [exact Hrun|]. simpl in HA, HE. split.
    + intros u Hu. destruct (HA u Hu) as [Hin|Hdue]; [|now right].
      destruct (analysisHour h0 =? currentHour) eqn:Htest; [|now left].
      apply elem_of_app in Hin as [Hin|Hin]; [now left|].
      apply list_elem_of_singleton in Hin as ->. right. exists h0.
      split; [assumption|]. now apply Z.eqb_eq.
    + intros u Hu. destruct (HE u Hu) as [Hin|Hdue]; [|now right].
      destruct (h0 =? currentHour) eqn:Htest; [|now left].
      apply elem_of_app in Hin as [Hin|Hin]; [now left|].
      apply list_elem_of_singleton in Hin as ->. right. exists h0.
      split; [assumption|]. now apply Z.eqb_eq.
Qed.

(** No user is due for both in one tick, on whichever path the hour was
    resolved. *)
Lemma due_sets_disjoint currentHour allUsers usersForAnalysis usersForEmail u :
  due_sets DateTimeFormat currentHour allUsers
    = Normal (usersForAnalysis, usersForEmail) ->
  ~ (u ∈ usersForAnalysis /\ u ∈ usersForEmail).
Proof.
  unfold due_sets. intros Hrun [HuA HuE].
  destruct (schedule_users_spec currentHour allUsers ([], []))
    as (A & E & Hrun' & HA & HE).
  rewrite Hrun in Hrun'. injection Hrun' as <- <-.
  destruct (HA u HuA) as [Hnil|(h1 & Hc1 & Hh1)];
    [simpl in Hnil; now apply elem_of_nil in Hnil|].
  destruct (HE u HuE) as [Hnil|(h2 & Hc2 & Hh2)];
    [simpl in Hnil; now apply elem_of_nil in Hnil|].
  rewrite Hc1 in Hc2. injection Hc2 as <-.
  apply (analysisHour_differs h1). congruence.
Qed.

(** C1. In the turn of the loop over the users of a tick for a user whose
    hour is resolved to [utcHour], from 0 to 23, the hour that triggers the
    analysis is [(utcHour - 1 + 24) mod 24]: the user is added to
    [usersForAnalysis] exactly when the current hour is that hour, and to
    [usersForEmail] exactly when it is [utcHour].  The turn is stated on the
    preferences of the user and on the whole row. *)
Theorem analysis_hour_is_one_hour_earlier
    currentHour (a : account) utcHour
    (usersForAnalysis usersForEmail : list user)
    (rowsForAnalysis rowsForEmail : list account) :
  convertLocalToUTC DateTimeFormat (localHour_of (preferences a))
    (timezone_of (preferences a)) = Normal utcHour ->
  0 <= utcHour < 24 ->
  schedule_user DateTimeFormat currentHour (usersForAnalysis, usersForEmail)
    (preferences a)
  = Normal
      (if (utcHour - 1 + 24) mod 24 =? currentHour
       then (usersForAnalysis ++ [preferences a])%list else usersForAnalysis,
       if utcHour =? currentHour
       then (usersForEmail ++ [preferences a])%list else usersForEmail)
  /\ schedule_account DateTimeFormat currentHour
       (rowsForAnalysis, rowsForEmail) a
     = Normal
         (if (utcHour - 1 + 24) mod 24 =? currentHour
          then (rowsForAnalysis ++ [a])%list else rowsForAnalysis,
          if utcHour =? currentHour
          then (rowsForEmail ++ [a])%list else rowsForEmail).
Proof.
  intros Hconv Hrange.
  assert (Hhour : analysisHour utcHour = (utcHour - 1 + 24) mod 24).
  { unfold analysisHour. apply Z.rem_mod_nonneg; lia. }
  unfold schedule_user, schedule_account. rewrite Hconv. simpl.
  rewrite Hhour. split; reflexivity.
Qed.

(** C2. When the resolver returns a candidate of its search for a user (the
    resolution is not degraded), that user is not in both due sets of the
    tick, whatever the current UTC hour. *)
Theorem analysis_and_email_exclusive
    currentHour allUsers usersForAnalysis usersForEmail u :
  due_sets DateTimeFormat currentHour allUsers
    = Normal (usersForAnalysis, usersForEmail) ->
  resolved DateTimeFormat (localHour_of u) (timezone_of u) ->
  ~ (u ∈ usersForAnalysis /\ u ∈ usersForEmail).
Proof.
  intros Hrun [h Hloop].
  apply convertLocalToUTC_resolved in Hloop as [Hconv Hrange].
  exact (due_sets_disjoint currentHour allUsers usersForAnalysis
           usersForEmail u Hrun).
Qed.

(** C3. When the formatter cannot be made for the time zone, or when none of
    the candidates 0 to 23 renders to the local hour, [convertLocalToUTC]
    returns the local hour it was given, and returns normally. *)
Theorem convertLocalToUTC_falls_back localHour tz :
  (exists e, DateTimeFormat tz = Throw e)
  \/ (exists formatter,
        DateTimeFormat tz = Normal formatter
        /\ forall h, 0 <= h < 24 -> formatter h <> Some localHour) ->
  convertLocalToUTC DateTimeFormat localHour tz = Normal localHour.
Proof.
  intros [[e Hthrow]|(formatter & Hfmt & Hmiss)]; unfold convertLocalToUTC.
  - now rewrite (candidates_from_throw tz e localHour 23 0 Hthrow).
  - rewrite (candidates_from_none formatter tz localHour 24 0 Hfmt);
      [reflexivity|].
    intros j Hj. apply Hmiss. lia.
Qed.

(** In a time zone that the platform renders five hours ahead of UTC, as
    hours from 0 to 23, at each of the 24 candidates, [convertLocalToUTC] maps
    every local hour from 0 to 23 to [(localHour - 5 + 24) mod 24]. *)
Lemma convertLocalToUTC_fixed_offset_5 tz formatter localHour :
  DateTimeFormat tz = Normal formatter ->
  (forall h, 0 <= h < 24 -> formatter h = Some ((h + 5) mod 24)) ->
  0 <= localHour < 24 ->
  convertLocalToUTC DateTimeFormat localHour tz
  = Normal ((localHour - 5 + 24) mod 24).
Proof.
  intros Hfmt Hrender Hrange. unfold convertLocalToUTC.
  pose proof (Z.mod_pos_bound (localHour - 5 + 24) 24 ltac:(lia)) as Hk.
  rewrite (candidates_from_first formatter tz localHour 24 0
             ((localHour - 5 + 24) mod 24) Hfmt); [reflexivity|lia| |].
  - rewrite Hrender by lia. f_equal.
    revert Hk. Z.div_mod_to_equations. lia.
  - intros j Hj. rewrite Hrender by lia. intros [= Heq].
    revert Heq Hj. Z.div_mod_to_equations. lia.
Qed.

End SchedulerFacts.

Local Open Scope Z_scope.

Lemma analysis_hour_at_midnight :
  schedule_user (fixed_offset_platform "Asia/Karachi" 5) 23 ([], [])
    (preferences dua) = Normal ([preferences dua], [])
  /\ schedule_account (fixed_offset_platform "Asia/Karachi" 5) 23 ([], []) dua
     = Normal ([dua], []).
Proof.
  apply (analysis_hour_is_one_hour_earlier
           (fixed_offset_platform "Asia/Karachi" 5) 23 dua 0 [] [] [] []).
  - reflexivity.
  - lia.
Defined.

Lemma no_double_due_at_eight :
  ~ (User 1 (Some "UTC") (Some 8) ∈ ([] : list user)
     /\ User 1 (Some "UTC") (Some 8) ∈ [User 1 (Some "UTC") (Some 8)]).
Proof.
  apply (analysis_and_email_exclusive (fixed_offset_platform "UTC" 0) 8
           [User 1 (Some "UTC") (Some 8)]).
  - reflexivity.
  - exists 8. reflexivity.
Defined.

Lemma fallback_on_unknown_zone_and_on_missing_hour :
  convertLocalToUTC (fixed_offset_platform "UTC" 0) 7 "Mars/Olympus" = Normal 7
  /\ convertLocalToUTC (midnight_as_24_platform "Asia/Karachi" 5) 0
       "Asia/Karachi" = Normal 0.
Proof.
  split.
  - apply (convertLocalToUTC_falls_back (fixed_offset_platform "UTC" 0) 7
             "Mars/Olympus").
    left. exists RangeError. reflexivity.
  - apply (convertLocalToUTC_falls_back
             (midnight_as_24_platform "Asia/Karachi" 5) 0 "Asia/Karachi").
    right. eexists. split; [reflexivity|].
    intros h Hh. simpl.
    destruct ((h + 5) mod 24 =? 0) eqn:Hz; [discriminate|].
    apply Z.eqb_neq in Hz. congruence.
Defined.

Lemma karachi_three_is_utc_twenty_two :
  convertLocalToUTC (fixed_offset_platform "Asia/Karachi" 5) 3 "Asia/Karachi"
  = Normal ((3 - 5 + 24) mod 24).
Proof.
  apply (convertLocalToUTC_fixed_offset_5
           (fixed_offset_platform "Asia/Karachi" 5) "Asia/Karachi"
           (fun h => Some ((h + 5) mod 24)) 3).
  - reflexivity.
  - intros h Hh. reflexivity.
  - lia.
Defined.


(** C9, at the record of a user who chose midnight in UTC: the hour 0 of the
    record is read as 9, so the user is due for the email at 9 UTC and for
    the analysis at 8 UTC, and for neither at 0 UTC or at 23 UTC. *)
Theorem midnight_preference_is_read_as_nine :
  let u := User 1 (Some "UTC") (Some 0) in
  let utc := fixed_offset_platform "UTC" 0 in
  localHour_of u = 9
  /\ due_sets utc 9 [u] = Normal ([], [u])
  /\ due_sets utc 8 [u] = Normal ([u], [])
  /\ due_sets utc 0 [u] = Normal ([], [])
  /\ due_sets utc 23 [u] = Normal ([], []).
Proof. repeat split. Qed.

Local Close Scope Z_scope.

(** ** The renderers *)

(** C10. The list renderer on the two inputs of the specification: a string of
    two items separated by the two-unit sequence backslash, n; and the empty
    string. *)
Theorem createListHtml_examples :
  createListHtml (VStr "- a\n- b") "X" = Normal "<ul><li>a</li><li>b</li></ul>"
  /\ createListHtml (VStr "") "X" = Normal "<p>No x provided.</p>".
Proof. split; reflexivity. Qed.

(** The renderers on inputs traced by hand in the source. *)

Example createListHtml_with_header :
  createListHtml (VStr "1. Key Points: foo\n- bar ---") "X"
  = Normal "<ul><li>foo</li><li>bar</li></ul>".
Proof. reflexivity. Qed.

Example createListHtml_single_block :
  createListHtml (VStr "**Post** daily\nat noon") "Posting Frequency"
  = Normal "<p>Post daily<br>at noon</p>".
Proof. reflexivity. Qed.

Example formatSampleScriptHtml_two_regions :
  formatSampleScriptHtml
    (VStr "**Visual Cues:** \n- a\n- b\nVoiceover/script: hi *there")
  = Normal
      ("<h4>Visual Cues:</h4><ul><li>a</li><li>b</li></ul>"
       +:+ "<h4>Voiceover/Script:</h4><p>hi *there</p>").
Proof. reflexivity. Qed.

Example formatContentThemesHtml_fallback_split :
  formatContentThemesHtml JSON_parse_rejecting
    (VStr "* a\n- 1. b\n- **\n- --\n- 3.")
  = Normal "<ul><li>1. b</li></ul>".
Proof. reflexivity. Qed.

Example formatContentThemesHtml_array :
  formatContentThemesHtml JSON_parse_rejecting
    (VArr [VStr "Theme A"; VNum 3; VStr "2. * **B**"; VStr "- cd"])
  = Normal "<ul><li>Theme A</li><li>cd</li></ul>".
Proof. reflexivity. Qed.

Example formatHashtagStrategyHtml_sections :
  formatHashtagStrategyHtml
    (VStr ("Primary (Niche): - #a\n- #b\n(e.g.,\n"
           +:+ "Secondary (Trending/Regional):\n---\nBroad Appeal:\n- #c\nfoo"))
  = Normal
      ("<h4>Primary (Niche):</h4><ul><li>#a</li><li>#b</li></ul>"
       +:+ "<h4>Secondary (Trending/Regional):</h4>"
       +:+ "<p>No specific hashtags listed.</p>"
       +:+ "<h4>Broad Appeal:</h4><ul><li>#c</li></ul>").
Proof. reflexivity. Qed.

Example formatHashtagStrategyHtml_no_labels :
  formatHashtagStrategyHtml (VStr "no labels here")
  = Normal "<p>No hashtag strategy provided.</p>".
Proof. reflexivity. Qed.

Section BlankStrings.

Variable s : string.
Hypothesis Hblank : all_space s = true.

Lemma trimStart_all_space : trimStart s = "".
Proof.
  induction s as [|c r IH]; simpl in *; [reflexivity|].
  apply andb_prop in Hblank as [Hc Hr]. rewrite Hc. now apply IH.
Qed.

Lemma trim_all_space : trim s = "".
Proof. unfold trim. now rewrite trimStart_all_space. Qed.

(** No literal that starts with a unit other than white space stands at the
    head of a blank string. *)
Lemma strip_prefix_all_space (a : ascii) (p : string) :
  is_space a = false -> strip_prefix (String a p) s = None.
Proof.
  intros Ha. destruct s as [|c r]; simpl in *; [reflexivity|].
  apply andb_prop in Hblank as [Hc Hr].
  destruct (Ascii.eqb_spec a c) as [->|Hne]; [congruence|reflexivity].
Qed.

End BlankStrings.

Lemma replaceAll_all_space (a : ascii) (p rep s : string) :
  is_space a = false -> all_space s = true ->
  replaceAll (String a p) rep s = s.
Proof.
  intros Ha. unfold replaceAll. generalize (String.length s) as fuel.
  intros fuel. revert s.
  induction fuel as [|fuel IH]; intros s Hs; [reflexivity|].
  destruct s as [|c r]; [reflexivity|].
  cbn [replaceAll_from]. rewrite (strip_prefix_all_space _ Hs a p Ha).
  simpl in Hs. apply andb_prop in Hs as [Hc Hr]. now rewrite IH.
Qed.

Lemma split_all_space (a : ascii) (p s : string) :
  is_space a = false -> all_space s = true ->
  split (String a p) s = [s].
Proof.
  intros Ha. unfold split.
  enough (Hgen : forall fuel cur r, all_space r = true ->
            split_from fuel (String a p) cur r = [String.rev_app cur r])
    by (intros Hs; now rewrite Hgen).
  induction fuel as [|fuel IH]; intros cur r Hr; [reflexivity|].
  destruct r as [|c r]; [reflexivity|].
  cbn [split_from]. rewrite (strip_prefix_all_space _ Hr a p Ha).
  simpl in Hr. apply andb_prop in Hr as [Hc Hr]. now rewrite IH.
Qed.

Lemma strip_star_all_space (s : string) :
  all_space s = true -> strip_star s = s.
Proof. intros Hs. unfold strip_star. now rewrite trimStart_all_space. Qed.

(** The [catch] branch of the theme renderer finds no theme in a blank
    string. *)
Lemma split_themes_all_space (s : string) :
  all_space s = true -> split_themes s = [].
Proof.
  intros Hs. unfold split_themes.
  rewrite split_all_space by (reflexivity || assumption). simpl.
  rewrite strip_star_all_space, replaceAll_all_space, trim_all_space
    by (reflexivity || assumption).
  reflexivity.
Qed.

Lemma nonempty_trim_all_space (s : string) :
  all_space s = true -> nonempty (trim s) = false.
Proof. intros Hs. now rewrite trim_all_space. Qed.

Section RendererFacts.

Variable JSON_parse : value -> completion value.

Lemma createListHtml_returns (v : value) (title : string) :
  exists html, createListHtml v title = Normal html.
Proof.
  unfold createListHtml. destruct v as [| | | | |s| |]; simpl; eauto.
  destruct (nonempty (trim s)); simpl; eauto.
  match goal with |- context [if ?c then _ else _] => destruct c end; eauto.
Qed.

Lemma formatSampleScriptHtml_returns (v : value) :
  exists html, formatSampleScriptHtml v = Normal html.
Proof.
  unfold formatSampleScriptHtml. destruct v as [| | | | |s| |]; simpl; eauto.
  destruct (nonempty (trim s)); simpl; eauto.
Qed.

Lemma formatHashtagStrategyHtml_returns (v : value) :
  exists html, formatHashtagStrategyHtml v = Normal html.
Proof.
  unfold formatHashtagStrategyHtml. destruct v as [| | | | |s| |]; simpl; eauto.
  destruct (nonempty (trim s)); simpl; eauto.
Qed.

Lemma render_themes_returns (themes : value) :
  exists html, render_themes themes = Normal html.
Proof.
  destruct themes as [| | | | | |[|x items]|]; eexists; reflexivity.
Qed.

Lemma formatContentThemesHtml_returns (v : value) :
  exists html, formatContentThemesHtml JSON_parse v = Normal html.
Proof.
  unfold formatContentThemesHtml.
  destruct v as [| | | | |s|items|]; simpl; try (eexists; reflexivity).
  - destruct (JSON_parse (VStr s)) as [themes|e]; simpl.
    + apply (render_themes_returns themes).
    + apply (render_themes_returns (VArr (map VStr (split_themes s)))).
  - apply (render_themes_returns (VArr items)).
Qed.

Lemma createListHtml_placeholder (v : value) (title : string) :
  blank_or_not_a_string v ->
  createListHtml v title
  = Normal ("<p>No " +:+ toLowerCase title +:+ " provided.</p>").
Proof.
  unfold createListHtml. destruct v as [| | | | |s| |]; simpl; try reflexivity.
  intros Hs. now rewrite nonempty_trim_all_space.
Qed.

Lemma formatSampleScriptHtml_placeholder (v : value) :
  blank_or_not_a_string v ->
  formatSampleScriptHtml v = Normal "<p>No sample script provided.</p>".
Proof.
  unfold formatSampleScriptHtml. destruct v as [| | | | |s| |]; simpl; try reflexivity.
  intros Hs. now rewrite nonempty_trim_all_space.
Qed.

Lemma formatHashtagStrategyHtml_placeholder (v : value) :
  blank_or_not_a_string v ->
  formatHashtagStrategyHtml v = Normal "<p>No hashtag strategy provided.</p>".
Proof.
  unfold formatHashtagStrategyHtml. destruct v as [| | | | |s| |]; simpl; try reflexivity.
  intros Hs. now rewrite nonempty_trim_all_space.
Qed.

Lemma formatContentThemesHtml_placeholder (v : value) :
  (forall s, all_space s = true -> exists e, JSON_parse (VStr s) = Throw e) ->
  blank_or_not_a_string v ->
  v = VArr [] \/ isArray v = false ->
  formatContentThemesHtml JSON_parse v
  = Normal "<p>No specific themes provided.</p>".
Proof.
  intros Hjson Hv Hshape. unfold formatContentThemesHtml.
  destruct v as [| | | | |s| |]; simpl in *; try reflexivity.
  - destruct (Hjson s Hv) as [e ->]. simpl.
    now rewrite split_themes_all_space.
  - destruct Hshape as [[= ->]|Hno]; [reflexivity|discriminate].
Qed.

(** C5. Each of the four renderers returns an HTML fragment, and throws
    nothing, on every value.  On a value that is not a string and on a string
    that is empty or of white space only, the list, script and hashtag
    renderers return their placeholder; so does the theme renderer, for which
    an array is well-formed input, on such a value other than an array with
    elements.  [JSON.parse] is any function that rejects blank text. *)
Theorem renderers_return_and_degrade_to_placeholders
    (v : value) (title : string) :
  (forall s, all_space s = true -> exists e, JSON_parse (VStr s) = Throw e) ->
  ((exists html, createListHtml v title = Normal html)
   /\ (exists html, formatSampleScriptHtml v = Normal html)
   /\ (exists html, formatContentThemesHtml JSON_parse v = Normal html)
   /\ (exists html, formatHashtagStrategyHtml v = Normal html))
  /\ (blank_or_not_a_string v ->
      createListHtml v title
        = Normal ("<p>No " +:+ toLowerCase title +:+ " provided.</p>")
      /\ formatSampleScriptHtml v = Normal "<p>No sample script provided.</p>"
      /\ formatHashtagStrategyHtml v
         = Normal "<p>No hashtag strategy provided.</p>"
      /\ (v = VArr [] \/ isArray v = false ->
          formatContentThemesHtml JSON_parse v
          = Normal "<p>No specific themes provided.</p>")).
Proof.
  intros Hjson. split.
  - repeat split.
    + apply createListHtml_returns.
    + apply formatSampleScriptHtml_returns.
    + apply formatContentThemesHtml_returns.
    + apply formatHashtagStrategyHtml_returns.
  - intros Hv. repeat split.
    + now apply createListHtml_placeholder.
    + now apply formatSampleScriptHtml_placeholder.
    + now apply formatHashtagStrategyHtml_placeholder.
    + now apply formatContentThemesHtml_placeholder.
Qed.

End RendererFacts.

Lemma blank_text_gives_the_four_placeholders :
  createListHtml (VStr "  ") "Observations"
    = Normal "<p>No observations provided.</p>"
  /\ formatSampleScriptHtml (VStr "  ")
     = Normal "<p>No sample script provided.</p>"
  /\ formatHashtagStrategyHtml (VStr "  ")
     = Normal "<p>No hashtag strategy provided.</p>"
  /\ formatContentThemesHtml (fun _ => Throw SyntaxError) (VStr "  ")
     = Normal "<p>No specific themes provided.</p>".
Proof.
  destruct (renderers_return_and_degrade_to_placeholders
              (fun _ => Throw SyntaxError) (VStr "  ") "Observations")
    as [_ Hplace].
  - intros s _. exists SyntaxError. reflexivity.
  - destruct (Hplace eq_refl) as (Hlist & Hscript & Htags & Hthemes).
    split; [exact Hlist|]. split; [exact Hscript|]. split; [exact Htags|].
    apply Hthemes. right. reflexivity.
Defined.

(** C5 fails on text that is malformed without being blank.  The list
    renderer removes the rule [---] and wraps what is left, nothing, in a
    paragraph; the theme renderer, on text that [JSON.parse] rejects, falls
    back to splitting the text into items.  Neither returns its
    placeholder. *)
Lemma malformed_text_gets_no_placeholder :
  (createListHtml (VStr "---") "Observations" = Normal "<p></p>"
   /\ createListHtml (VStr "---") "Observations"
      <> Normal "<p>No observations provided.</p>")
  /\ ~ (exists JSON_parse e,
          JSON_parse (VStr "[a, b") = Throw e
          /\ formatContentThemesHtml JSON_parse (VStr "[a, b")
             = Normal "<p>No specific themes provided.</p>").
Proof.
  split; [split; [reflexivity|discriminate]|].
  intros (JSON_parse & e & Hparse & Hrun).
  unfold formatContentThemesHtml in Hrun. rewrite Hparse in Hrun.
  vm_compute in Hrun. discriminate Hrun.
Qed.

(** ** The assembler *)

Section AssemblerFacts.

Variable JSON_parse : value -> completion value.

Implicit Types (d : gmap string value) (section : section_desc).

Lemma Object_keys_empty d :
  (length (Object_keys d) =? 0)%nat = true <-> d = ∅.
Proof.
  unfold Object_keys.
  rewrite length_fmap, Nat.eqb_eq, length_zero_iff_nil.
  apply map_to_list_empty_iff.
Qed.

Lemma Object_keys_non_empty d :
  d <> ∅ -> (length (Object_keys d) =? 0)%nat = false.
Proof.
  intros Hd. apply not_true_is_false. now rewrite Object_keys_empty.
Qed.

(** The processor of each of the seven sections returns. *)
Lemma processor_returns section (content : value) :
  section ∈ sections JSON_parse ->
  exists sectionHtml, processor section content = Normal sectionHtml.
Proof.
  unfold sections. intros Hin.
  repeat (apply elem_of_cons in Hin as [->|Hin]); simpl;
    auto using createListHtml_returns, formatSampleScriptHtml_returns,
      formatContentThemesHtml_returns, formatHashtagStrategyHtml_returns.
  now apply elem_of_nil in Hin.
Qed.

(** A section is suppressed or survives, and not both. *)
Lemma section_suppressed_or_survives d section :
  section ∈ sections JSON_parse ->
  section_suppressed d section \/ section_survives d section.
Proof.
  intros Hin. unfold section_suppressed, section_survives.
  destruct (truthy (section_content d section)) eqn:Htruthy; [|now left; left].
  destruct (processor_returns section (section_content d section) Hin)
    as [html Hhtml].
  destruct (kept html) eqn:Hkept; [right|left; right]; eauto.
Qed.

Lemma section_survives_not_suppressed d section :
  section_survives d section -> ~ section_suppressed d section.
Proof.
  intros [Htruthy (html & Hhtml & Hkept)] [Hfalsy|(html' & Hhtml' & Hkept')];
    congruence.
Qed.

Lemma section_step_suppressed d acc section :
  section_suppressed d section -> section_step d acc section = Normal acc.
Proof.
  unfold section_step. intros [Hfalsy|(html & Hhtml & Hkept)].
  - now rewrite Hfalsy.
  - destruct (truthy _); [|reflexivity]. rewrite Hhtml. simpl. now rewrite Hkept.
Qed.

Lemma section_step_survives d acc section :
  section_survives d section ->
  exists sectionHtml,
    section_step d acc section
    = Normal (acc.1 +:+ "<h3>" +:+ title section +:+ "</h3>" +:+ sectionHtml,
              true).
Proof.
  unfold section_step. intros [Htruthy (html & Hhtml & Hkept)].
  exists html. rewrite Htruthy, Hhtml. simpl. now rewrite Hkept.
Qed.

(** The loop over the sections returns; [hasContent] holds at its end when it
    held at its start or when one of the sections survives. *)
Lemma for_sections_spec d (todo : list section_desc) :
  (forall section, section ∈ todo -> section ∈ sections JSON_parse) ->
  forall acc : string * bool,
  exists emailBodyHtml hasContent,
    for_sections d todo acc = Normal (emailBodyHtml, hasContent)
    /\ (hasContent = true <->
        acc.2 = true
        \/ exists section, section ∈ todo /\ section_survives d section)
    /\ ((forall section, section ∈ todo -> section_suppressed d section) ->
        (emailBodyHtml, hasContent) = acc).
Proof.
  induction todo as [|section rest IH]; intros Hsub acc.
  - exists acc.1, acc.2. destruct acc as [html b]; simpl.
    split; [reflexivity|]. split; [|reflexivity].
    split; [now left|]. intros [Hb|(section & Hin & _)]; [assumption|].
    now apply elem_of_nil in Hin.
  - assert (Hrest : forall sec, sec ∈ rest -> sec ∈ sections JSON_parse)
      by (intros sec Hsec; apply Hsub; now right).
    cbn [for_sections].
    destruct (section_suppressed_or_survives d section) as [Hsup|Hsur];
      [apply Hsub; now left| |].
    + rewrite (section_step_suppressed d acc section Hsup). simpl.
      destruct (IH Hrest acc) as (html & b & Hrun & Hb & Hsame).
      exists html, b. split; [exact Hrun|]. split.
      * rewrite Hb. split.
        -- intros [Hacc|(sec & Hin & Hs)]; [now left|].
           right. exists sec. split; [now right|assumption].
        -- intros [Hacc|(sec & Hin & Hs)]; [now left|].
           apply elem_of_cons in Hin as [->|Hin].
           ++ now apply section_survives_not_suppressed in Hs.
           ++ right. now exists sec.
      * intros Hall. apply Hsame. intros sec Hsec. apply Hall. now right.
    + destruct (section_step_survives d acc section Hsur) as [html1 Hstep].
      rewrite Hstep. simpl.
      destruct (IH Hrest
                  (acc.1 +:+ "<h3>" +:+ title section +:+ "</h3>" +:+ html1,
                   true))
        as (html & b & Hrun & Hb & Hsame).
      exists html, b. split; [exact Hrun|]. split.
      * split; [intros _|intros _; apply Hb; now left].
        right. exists section. split; [now left|assumption].
      * intros Hall. exfalso.
        apply (section_survives_not_suppressed d section Hsur).
        apply Hall. now left.
Qed.

Lemma search_ci_nonempty (a : ascii) (p s m0 rest : string) :
  search_ci (String a p) s = Some (m0, rest) ->
  nonempty m0 = true /\ nonempty s = true.
Proof.
  induction s as [|c r IH]; [discriminate|]. cbn [search_ci].
  destruct (strip_prefix_ci (String a p) (String c r)) as [rest'|].
  - intros [= <- <-]. split; reflexivity.
  - intros Hr. split; [|reflexivity]. now apply IH.
Qed.

(** What [strategy_balances] matches is the end of the string, from a place
    where the sentence stands, letter case apart. *)
Lemma strategy_balances_suffix (s m0 : string) :
  strategy_balances s = Some m0 ->
  exists before rest,
    s = before +:+ m0
    /\ strip_prefix_ci "This strategy balances" m0 = Some rest.
Proof.
  unfold strategy_balances.
  induction s as [|c r IH]; [discriminate|]. cbn [search_ci].
  destruct (strip_prefix_ci "This strategy balances" (String c r))
    as [rest|] eqn:Hhere.
  - intros [= <-]. exists "", rest. split; [reflexivity|assumption].
  - intros Hr. destruct (IH Hr) as (before & rest & -> & Hm).
    exists (String c before), rest. split; [reflexivity|assumption].
Qed.

Lemma add_trailer_matched d (pf m0 emailBodyHtml : string) :
  d !! "postingFrequency" = Some (VStr pf) ->
  strategy_balances pf = Some m0 ->
  add_trailer d emailBodyHtml = Normal (emailBodyHtml +:+ trailer_paragraph m0).
Proof.
  intros Hpf Hm. unfold add_trailer, get. rewrite Hpf. simpl.
  unfold strategy_balances in Hm.
  destruct (search_ci "This strategy balances" pf) as [[m rest]|] eqn:Hsearch;
    [|discriminate].
  injection Hm as ->.
  destruct (search_ci_nonempty _ _ _ _ _ Hsearch) as [Hm0 Hs].
  unfold nonempty in Hs. rewrite Hs. simpl.
  unfold strategy_balances. rewrite Hsearch. now rewrite Hm0.
Qed.

Lemma all_suppressed_gives_no_strategy_at_this_time d :
  d <> ∅ ->
  (forall section,
     section ∈ sections JSON_parse -> section_suppressed d section) ->
  formatMarketingStrategyToHtml JSON_parse (Some d)
  = Normal no_strategy_at_this_time.
Proof.
  intros Hd Hall. unfold formatMarketingStrategyToHtml.
  rewrite (Object_keys_non_empty d Hd).
  destruct (for_sections_spec d (sections JSON_parse) (fun _ H => H)
              ("<h2>Marketing Strategy & Content Ideas</h2>", false))
    as (html & b & Hrun & _ & Hsame).
  rewrite Hrun. specialize (Hsame Hall). injection Hsame as -> ->.
  reflexivity.
Qed.

(** C6, as amended. Both degenerate cases give a fixed fragment under the
    title heading, and not the same one: the empty document gives the
    paragraph that ends in "available.", and a document that is not empty and
    of which every section is suppressed gives the one that ends in
    "available at this time.". *)
Theorem degenerate_documents_get_two_fragments d :
  d <> ∅ ->
  (forall section,
     section ∈ sections JSON_parse -> section_suppressed d section) ->
  formatMarketingStrategyToHtml JSON_parse (Some ∅) = Normal no_strategy
  /\ formatMarketingStrategyToHtml JSON_parse (Some d)
     = Normal no_strategy_at_this_time
  /\ no_strategy <> no_strategy_at_this_time.
Proof.
  intros Hd Hall. split; [|split].
  - unfold formatMarketingStrategyToHtml.
    now rewrite (proj2 (Object_keys_empty ∅) eq_refl).
  - now apply all_suppressed_gives_no_strategy_at_this_time.
  - discriminate.
Qed.

(** C7, as amended. For a document whose [postingFrequency] is a string in
    which the sentence stands, letter case apart: when a section survives, the
    text from the sentence to the end, without bold markers, with a space for
    each escaped newline and trimmed, is appended as one paragraph after the
    sections, and the line-break clean-up is then applied to the whole; when
    every section is suppressed, the fixed fragment is returned without it. *)
Theorem concluding_line_follows_surviving_sections d (pf m0 : string) :
  d !! "postingFrequency" = Some (VStr pf) ->
  strategy_balances pf = Some m0 ->
  ((exists section,
      section ∈ sections JSON_parse /\ section_survives d section) ->
   exists emailBodyHtml,
     for_sections d (sections JSON_parse)
       ("<h2>Marketing Strategy & Content Ideas</h2>", false)
     = Normal (emailBodyHtml, true)
     /\ formatMarketingStrategyToHtml JSON_parse (Some d)
        = Normal
            (cleanup
               (emailBodyHtml
                +:+ "<p>"
                +:+ trim (replaceAll "\n" " " (replaceAll "**" "" m0))
                +:+ "</p>")))
  /\ ((forall section,
         section ∈ sections JSON_parse -> section_suppressed d section) ->
      formatMarketingStrategyToHtml JSON_parse (Some d)
      = Normal no_strategy_at_this_time).
Proof.
  intros Hpf Hm.
  assert (Hd : d <> ∅) by (intros ->; now rewrite lookup_empty in Hpf).
  split; [|now apply all_suppressed_gives_no_strategy_at_this_time].
  intros Hsur.
  destruct (for_sections_spec d (sections JSON_parse) (fun _ H => H)
              ("<h2>Marketing Strategy & Content Ideas</h2>", false))
    as (html & b & Hrun & Hb & _).
  assert (b = true) as -> by (apply Hb; now right).
  exists html. split; [exact Hrun|].
  unfold formatMarketingStrategyToHtml.
  rewrite (Object_keys_non_empty d Hd), Hrun. simpl.
  now rewrite (add_trailer_matched d pf m0 html Hpf Hm).
Qed.

Lemma get_insert d (k k' : string) (v : value) :
  get (<[k:=v]> d) k' = if decide (k = k') then v else get d k'.
Proof.
  unfold get. destruct (decide (k = k')) as [->|Hne].
  - now rewrite lookup_insert_eq.
  - now rewrite lookup_insert_ne.
Qed.

Lemma get_delete d (k k' : string) :
  get (delete k d) k' = if decide (k = k') then VUndefined else get d k'.
Proof.
  unfold get. destruct (decide (k = k')) as [->|Hne].
  - now rewrite lookup_delete_eq.
  - now rewrite lookup_delete_ne.
Qed.

Lemma get_insert_delete d (k k' : string) (v : value) :
  truthy v = false ->
  same_content (get (<[k:=v]> d) k') (get (delete k d) k').
Proof.
  intros Hv. rewrite get_insert, get_delete.
  destruct (decide (k = k')); [right|left]; auto.
Qed.

Lemma js_or_same_content (a a' b b' : value) :
  same_content a a' -> same_content b b' ->
  same_content (js_or a b) (js_or a' b').
Proof.
  unfold js_or. intros [->|[Ha Ha']] Hb.
  - destruct (truthy a'); [now left|assumption].
  - now rewrite Ha, Ha'.
Qed.

Lemma section_content_insert_delete d (k : string) (v : value) section :
  truthy v = false ->
  same_content (section_content (<[k:=v]> d) section)
               (section_content (delete k d) section).
Proof.
  intros Hv. unfold section_content.
  apply js_or_same_content; [now apply get_insert_delete|].
  destruct (String.eqb (key section) "observations");
    [now apply get_insert_delete|now left].
Qed.

Lemma section_step_same d1 d2 acc section :
  same_content (section_content d1 section) (section_content d2 section) ->
  section_step d1 acc section = section_step d2 acc section.
Proof.
  unfold section_step. intros [->|[H1 H2]]; [reflexivity|].
  now rewrite H1, H2.
Qed.

Lemma for_sections_same d1 d2 (todo : list section_desc) :
  (forall section,
     same_content (section_content d1 section) (section_content d2 section)) ->
  forall acc, for_sections d1 todo acc = for_sections d2 todo acc.
Proof.
  intros Hsame. induction todo as [|section rest IH]; intros acc;
    [reflexivity|].
  cbn [for_sections]. rewrite (section_step_same d1 d2 acc section (Hsame _)).
  destruct (section_step d2 acc section) as [acc'|e]; simpl; [apply IH|].
  reflexivity.
Qed.

Lemma add_trailer_same d1 d2 (emailBodyHtml : string) :
  same_content (get d1 "postingFrequency") (get d2 "postingFrequency") ->
  add_trailer d1 emailBodyHtml = add_trailer d2 emailBodyHtml.
Proof.
  unfold add_trailer. intros [->|[H1 H2]]; [reflexivity|].
  now rewrite H1, H2.
Qed.

(** C8, as amended. A field that is present with a falsy value (the empty
    string, null, undefined, zero, false) is assembled as the field absent,
    for every document that has another field. *)
Theorem falsy_field_is_assembled_as_absent d (k : string) (v : value) :
  truthy v = false ->
  delete k d <> ∅ ->
  formatMarketingStrategyToHtml JSON_parse (Some (<[k:=v]> d))
  = formatMarketingStrategyToHtml JSON_parse (Some (delete k d)).
Proof.
  intros Hv Hrest. unfold formatMarketingStrategyToHtml.
  rewrite (Object_keys_non_empty _ (insert_non_empty d k v)),
    (Object_keys_non_empty _ Hrest).
  rewrite (for_sections_same (<[k:=v]> d) (delete k d) (sections JSON_parse))
    by (intros section; now apply section_content_insert_delete).
  destruct (for_sections _ _ _) as [[html b]|e]; simpl; [|reflexivity].
  destruct b; simpl; [|reflexivity].
  now rewrite (add_trailer_same (<[k:=v]> d) (delete k d) html)
    by now apply get_insert_delete.
Qed.

End AssemblerFacts.

(** The script section of [script_without_labels] is rendered to the two
    "Not specified." paragraphs and suppressed, and its other sections have
    no content. *)
Lemma script_without_labels_suppressed
    (JSON_parse : value -> completion value) (section : section_desc) :
  section ∈ sections JSON_parse ->
  section_suppressed script_without_labels section.
Proof.
  unfold sections. intros Hin.
  repeat (apply elem_of_cons in Hin as [->|Hin]);
    try (left; vm_compute; reflexivity);
    try (right; eexists; split; vm_compute; reflexivity).
  now apply elem_of_nil in Hin.
Qed.

Lemma script_without_labels_gets_the_second_fragment :
  formatMarketingStrategyToHtml JSON_parse_rejecting (Some ∅)
    = Normal no_strategy
  /\ formatMarketingStrategyToHtml JSON_parse_rejecting
       (Some script_without_labels)
     = Normal no_strategy_at_this_time
  /\ no_strategy <> no_strategy_at_this_time.
Proof.
  apply (degenerate_documents_get_two_fragments JSON_parse_rejecting
           script_without_labels).
  - intros Hempty.
    apply (f_equal (fun d : gmap string value => d !! "sampleScript")) in Hempty.
    vm_compute in Hempty. discriminate Hempty.
  - apply script_without_labels_suppressed.
Defined.

(** C6 fails at [script_without_labels]: every section of it is suppressed,
    and it is not assembled to the fragment of the empty document, whatever
    [JSON.parse] is. *)
Lemma suppressed_script_is_not_assembled_as_empty :
  ~ (exists JSON_parse,
       (forall section,
          section ∈ sections JSON_parse ->
          section_suppressed script_without_labels section) ->
       formatMarketingStrategyToHtml JSON_parse (Some ∅)
       = formatMarketingStrategyToHtml JSON_parse (Some script_without_labels)).
Proof.
  intros [JSON_parse Hclaim].
  specialize (Hclaim (script_without_labels_suppressed JSON_parse)).
  vm_compute in Hclaim. discriminate Hclaim.
Qed.

Lemma conclusion_is_appended_after_posting_frequency :
  exists emailBodyHtml,
    for_sections posting_frequency_with_conclusion
      (sections JSON_parse_rejecting)
      ("<h2>Marketing Strategy & Content Ideas</h2>", false)
    = Normal (emailBodyHtml, true)
    /\ formatMarketingStrategyToHtml JSON_parse_rejecting
         (Some posting_frequency_with_conclusion)
       = Normal
           (cleanup
              (emailBodyHtml
               +:+ "<p>"
               +:+ trim (replaceAll "\n" " "
                           (replaceAll "**" "" "This strategy balances reach"))
               +:+ "</p>")).
Proof.
  apply (proj1 (concluding_line_follows_surviving_sections
                  JSON_parse_rejecting posting_frequency_with_conclusion
                  "Post daily. This strategy balances reach"
                  "This strategy balances reach" eq_refl eq_refl)).
  exists (SectionDesc "Posting Frequency" "postingFrequency"
            (fun content => createListHtml content "Posting Frequency")).
  split.
  - unfold sections. rewrite !elem_of_cons. auto 10.
  - split; [reflexivity|]. eexists. split; reflexivity.
Defined.

(** C7 fails at [suppressed_posting_frequency]: the sentence stands in its
    [postingFrequency], its only section is suppressed, and what is returned
    does not contain the sentence, whatever [JSON.parse] is. *)
Lemma suppressed_posting_frequency_loses_its_conclusion :
  get suppressed_posting_frequency "postingFrequency"
    = VStr "Not specified. This strategy balances reach"
  /\ strategy_balances "Not specified. This strategy balances reach"
     = Some "This strategy balances reach"
  /\ ~ (exists JSON_parse html,
          formatMarketingStrategyToHtml JSON_parse
            (Some suppressed_posting_frequency) = Normal html
          /\ includes html "This strategy balances reach" = true).
Proof.
  split; [reflexivity|]. split; [reflexivity|].
  intros (JSON_parse & html & Hrun & Hin).
  vm_compute in Hrun. injection Hrun as <-.
  vm_compute in Hin. discriminate Hin.
Qed.

(** The clean-up reaches the appended paragraph: two line breaks in the
    concluding line are collapsed there as in the section. *)
Lemma clean_up_reaches_the_appended_paragraph :
  formatMarketingStrategyToHtml JSON_parse_rejecting
    (Some {[ "postingFrequency" :=
               VStr "This strategy balances<br><br>reach" ]})
  = Normal
      ("<h2>Marketing Strategy & Content Ideas</h2>"
       +:+ "<h3>Posting Frequency</h3><p>This strategy balances<br>reach</p>"
       +:+ "<p>This strategy balances<br>reach</p>").
Proof. vm_compute. reflexivity. Qed.

Lemma empty_observations_beside_takeaways :
  formatMarketingStrategyToHtml JSON_parse_rejecting
    (Some (<["observations" := VStr ""]> takeaways_only))
  = formatMarketingStrategyToHtml JSON_parse_rejecting
      (Some (delete "observations" takeaways_only)).
Proof.
  apply (falsy_field_is_assembled_as_absent JSON_parse_rejecting
           takeaways_only "observations" (VStr "")).
  - reflexivity.
  - intros Hempty.
    apply (f_equal (fun d : gmap string value => d !! "keyTakeaways")) in Hempty.
    vm_compute in Hempty. discriminate Hempty.
Defined.

(** C8 fails twice, whatever [JSON.parse] is: the document whose only field is
    an empty [observations] is not assembled as the empty document; and a
    blank [observations] beside a list of takeaways adds a section, with the
    placeholder of the list renderer in it. *)
Lemma empty_or_blank_field_is_not_assembled_as_absent :
  ~ (exists JSON_parse,
       formatMarketingStrategyToHtml JSON_parse
         (Some (<["observations" := VStr ""]> ∅))
       = formatMarketingStrategyToHtml JSON_parse
           (Some (delete "observations" ∅)))
  /\ ~ (exists JSON_parse,
          formatMarketingStrategyToHtml JSON_parse
            (Some (<["observations" := VStr " "]> takeaways_only))
          = formatMarketingStrategyToHtml JSON_parse
              (Some (delete "observations" takeaways_only))).
Proof.
  split; intros [JSON_parse Hclaim]; vm_compute in Hclaim; discriminate Hclaim.
Qed.


(** * Further properties *)

(** ** The scheduler *)

Section SchedulerMore.

Local Open Scope Z_scope.

Variable DateTimeFormat : string -> completion (Z -> option Z).

Implicit Types (localHour utcHour currentHour : Z) (tz : string).

(** The loop of [convertLocalToUTC], for a zone the platform knows: it returns
    the least candidate that renders to the local hour, or runs to its end
    when there is none. *)
Lemma candidates_from_spec formatter tz localHour count h0 :
  DateTimeFormat tz = Normal formatter ->
  (exists h,
     candidates_from DateTimeFormat count h0 localHour tz = Normal (Some h)
     /\ h0 <= h < h0 + Z.of_nat count
     /\ formatter h = Some localHour
     /\ forall j, h0 <= j < h -> formatter j <> Some localHour)
  \/ (candidates_from DateTimeFormat count h0 localHour tz = Normal None
      /\ forall j, h0 <= j < h0 + Z.of_nat count ->
                   formatter j <> Some localHour).
Proof.
  intros Hfmt. revert h0. induction count as [|count IH]; intros h0.
  - right. split; [reflexivity|]. intros j Hj. lia.
  - cbn [candidates_from]. rewrite Hfmt. simpl.
    destruct (same_number (formatter h0) localHour) eqn:Hsame.
    + left. exists h0. apply same_number_true in Hsame.
      split; [reflexivity|]. split; [lia|]. split; [assumption|].
      intros j Hj. lia.
    + apply same_number_false in Hsame.
      destruct (IH (h0 + 1)) as [(h & Hrun & Hrange & Hhit & Hmiss)|[Hrun Hmiss]].
      * left. exists h. split; [assumption|]. split; [lia|].
        split; [assumption|].
        intros j Hj. destruct (Z.eq_dec j h0) as [->|Hne]; [assumption|].
        apply Hmiss. lia.
      * right. split; [assumption|]. intros j Hj.
        destruct (Z.eq_dec j h0) as [->|Hne]; [assumption|].
        apply Hmiss. lia.
Qed.

(** X1. In a zone the platform knows, when some candidate from 0 to 23
    renders to the local hour, [convertLocalToUTC] returns the earliest such
    candidate: an hour from 0 to 23 that renders to the local hour, with no
    earlier one that does. *)
Theorem convertLocalToUTC_earliest_match formatter tz localHour k :
  DateTimeFormat tz = Normal formatter ->
  0 <= k < 24 ->
  formatter k = Some localHour ->
  exists utcHour,
    convertLocalToUTC DateTimeFormat localHour tz = Normal utcHour
    /\ 0 <= utcHour <= k
    /\ formatter utcHour = Some localHour
    /\ forall j, 0 <= j < utcHour -> formatter j <> Some localHour.
Proof.
  intros Hfmt Hk Hhit. unfold convertLocalToUTC.
  destruct (candidates_from_spec formatter tz localHour 24 0 Hfmt)
    as [(h & Hrun & Hrange & Hh & Hmiss)|[Hrun Hmiss]].
  - exists h. rewrite Hrun. simpl. split; [reflexivity|].
    split; [|split; assumption]. split; [lia|].
    destruct (Z.le_gt_cases h k) as [Hle|Hgt]; [assumption|].
    exfalso. apply (Hmiss k); [lia|assumption].
  - exfalso. apply (Hmiss k); [lia|assumption].
Qed.

(** What [convertLocalToUTC] returns is a candidate from 0 to 23 or the local
    hour itself. *)
Lemma convertLocalToUTC_cases localHour tz :
  exists utcHour,
    convertLocalToUTC DateTimeFormat localHour tz = Normal utcHour
    /\ (0 <= utcHour < 24 \/ utcHour = localHour).
Proof.
  unfold convertLocalToUTC.
  destruct (candidates_from DateTimeFormat 24 0 localHour tz)
    as [[h|]|e] eqn:Hrun; simpl.
  - exists h. split; [reflexivity|]. left.
    apply candidates_from_range in Hrun. lia.
  - exists localHour. split; [reflexivity|now right].
  - exists localHour. split; [reflexivity|now right].
Qed.

(** The range of [convertLocalToUTC] on local hours from 0 to 23. *)
Lemma convertLocalToUTC_range localHour tz :
  0 <= localHour < 24 ->
  exists utcHour,
    convertLocalToUTC DateTimeFormat localHour tz = Normal utcHour
    /\ 0 <= utcHour < 24.
Proof.
  intros Hrange.
  destruct (convertLocalToUTC_cases localHour tz) as (h & Hrun & Hcase).
  exists h. split; [assumption|]. destruct Hcase as [Hh|Hh]; [assumption|].
  now rewrite Hh.
Qed.

(** X2. For a local hour from 0 to 23, [convertLocalToUTC] returns an hour
    from 0 to 23 on every platform and for every time zone string, known or
    not. *)
Theorem convertLocalToUTC_in_range localHour tz :
  0 <= localHour < 24 ->
  exists utcHour,
    convertLocalToUTC DateTimeFormat localHour tz = Normal utcHour
    /\ 0 <= utcHour < 24.
Proof. exact (convertLocalToUTC_range localHour tz). Qed.

(** X3. In a zone that the platform renders at the offset [offset] from UTC,
    whatever its sign, [convertLocalToUTC] maps every local hour from 0 to 23
    to [(localHour - offset) mod 24]. *)
Theorem convertLocalToUTC_fixed_offset tz formatter (offset : Z) localHour :
  DateTimeFormat tz = Normal formatter ->
  (forall h, 0 <= h < 24 -> formatter h = Some ((h + offset) mod 24)) ->
  0 <= localHour < 24 ->
  convertLocalToUTC DateTimeFormat localHour tz
  = Normal ((localHour - offset) mod 24).
Proof.
  intros Hfmt Hrender Hrange. unfold convertLocalToUTC.
  pose proof (Z.mod_pos_bound (localHour - offset) 24 ltac:(lia)) as Hk.
  rewrite (candidates_from_first DateTimeFormat formatter tz localHour 24 0
             ((localHour - offset) mod 24) Hfmt); [reflexivity|lia| |].
  - rewrite Hrender by lia. f_equal.
    revert Hk. Z.div_mod_to_equations. lia.
  - intros j Hj. rewrite Hrender by lia. intros [= Heq].
    revert Heq Hj. Z.div_mod_to_equations. lia.
Qed.

Lemma utcHour_of_spec (u : user) :
  convertLocalToUTC DateTimeFormat (localHour_of u) (timezone_of u)
  = Normal (utcHour_of DateTimeFormat u).
Proof.
  unfold utcHour_of.
  destruct (convertLocalToUTC_returns DateTimeFormat (localHour_of u)
              (timezone_of u)) as [h ->].
  reflexivity.
Qed.

Lemma schedule_users_filter currentHour (allUsers : list user) :
  forall acc : list user * list user,
    schedule_users DateTimeFormat currentHour allUsers acc
    = Normal
        ((acc.1 ++ List.filter (analysis_due DateTimeFormat currentHour)
                     allUsers)%list,
         (acc.2 ++ List.filter (email_due DateTimeFormat currentHour)
                     allUsers)%list).
Proof.
  induction allUsers as [|u rest IH]; intros [accA accE]; simpl.
  - now rewrite !app_nil_r.
  - unfold schedule_user. rewrite utcHour_of_spec. simpl.
    rewrite IH. simpl. unfold analysis_due, email_due.
    destruct (analysisHour (utcHour_of DateTimeFormat u) =? currentHour),
      (utcHour_of DateTimeFormat u =? currentHour);
      simpl; now rewrite <- ?app_assoc.
Qed.

(** The loop over the users as two filters. *)
Lemma due_sets_filter currentHour (allUsers : list user) :
  due_sets DateTimeFormat currentHour allUsers
  = Normal (List.filter (analysis_due DateTimeFormat currentHour) allUsers,
            List.filter (email_due DateTimeFormat currentHour) allUsers).
Proof. unfold due_sets. now rewrite schedule_users_filter. Qed.

(** X4. The loop over the users is two filters: the users for analysis are
    the users whose resolved hour is one hour after the current hour, the
    users for email those whose resolved hour is the current hour, each list
    in the order of the rows and as often as the rows hold the user. *)
Theorem due_sets_are_filters currentHour (allUsers : list user) :
  due_sets DateTimeFormat currentHour allUsers
  = Normal (List.filter (analysis_due DateTimeFormat currentHour) allUsers,
            List.filter (email_due DateTimeFormat currentHour) allUsers).
Proof. exact (due_sets_filter currentHour allUsers). Qed.

(** X5. A user whose local hour is from 0 to 23 is due for the email at
    exactly one of the 24 hours of the day, and for the analysis at exactly
    one, the hour before it (23 before 0). *)
Theorem one_email_hour_and_one_analysis_hour (allUsers : list user) (u : user) :
  u ∈ allUsers ->
  0 <= localHour_of u < 24 ->
  exists utcHour,
    0 <= utcHour < 24
    /\ forall currentHour usersForAnalysis usersForEmail,
         0 <= currentHour < 24 ->
         due_sets DateTimeFormat currentHour allUsers
           = Normal (usersForAnalysis, usersForEmail) ->
         (u ∈ usersForEmail <-> currentHour = utcHour)
         /\ (u ∈ usersForAnalysis <-> currentHour = (utcHour + 23) mod 24).
Proof.
  intros Hin Hlocal.
  destruct (convertLocalToUTC_range (localHour_of u) (timezone_of u) Hlocal)
    as (h & Hconv & Hh).
  assert (Hu : utcHour_of DateTimeFormat u = h)
    by (unfold utcHour_of; now rewrite Hconv).
  exists h. split; [assumption|].
  intros currentHour A E Hcur Hrun.
  rewrite due_sets_filter in Hrun. injection Hrun as <- <-.
  apply list_elem_of_In in Hin.
  rewrite !list_elem_of_In, !filter_In.
  unfold email_due, analysis_due. rewrite Hu, !Z.eqb_eq.
  unfold analysisHour. rewrite Z.rem_mod_nonneg by lia.
  split; split.
  - intros [_ Heq]. lia.
  - intros Heq. split; [assumption|lia].
  - intros [_ Heq]. revert Heq. Z.div_mod_to_equations. lia.
  - intros Heq. split; [assumption|].
    revert Heq. Z.div_mod_to_equations. lia.
Qed.

End SchedulerMore.

Local Open Scope Z_scope.

Lemma karachi_earliest_match :
  exists utcHour,
    convertLocalToUTC (fixed_offset_platform "Asia/Karachi" 5) 3 "Asia/Karachi"
      = Normal utcHour
    /\ 0 <= utcHour <= 22
    /\ (fun h => Some ((h + 5) mod 24)) utcHour = Some 3
    /\ forall j, 0 <= j < utcHour ->
                 (fun h => Some ((h + 5) mod 24)) j <> Some 3.
Proof.
  apply (convertLocalToUTC_earliest_match
           (fixed_offset_platform "Asia/Karachi" 5)
           (fun h => Some ((h + 5) mod 24)) "Asia/Karachi" 3 22).
  - reflexivity.
  - lia.
  - reflexivity.
Defined.

Lemma unknown_zone_stays_in_range :
  exists utcHour,
    convertLocalToUTC (fixed_offset_platform "UTC" 0) 7 "Mars/Olympus"
      = Normal utcHour
    /\ 0 <= utcHour < 24.
Proof.
  apply (convertLocalToUTC_in_range (fixed_offset_platform "UTC" 0) 7
           "Mars/Olympus").
  lia.
Defined.

Lemma new_york_winter_nine_is_utc_fourteen :
  convertLocalToUTC (fixed_offset_platform "America/New_York" (-5)) 9
    "America/New_York"
  = Normal ((9 - -5) mod 24).
Proof.
  apply (convertLocalToUTC_fixed_offset
           (fixed_offset_platform "America/New_York" (-5)) "America/New_York"
           (fun h => Some ((h + -5) mod 24)) (-5) 9).
  - reflexivity.
  - intros h Hh. reflexivity.
  - lia.
Defined.

Lemma eight_in_utc_has_one_hour_of_each :
  exists utcHour,
    0 <= utcHour < 24
    /\ forall currentHour usersForAnalysis usersForEmail,
         0 <= currentHour < 24 ->
         due_sets (fixed_offset_platform "UTC" 0) currentHour
           [User 1 (Some "UTC") (Some 8)]
           = Normal (usersForAnalysis, usersForEmail) ->
         (User 1 (Some "UTC") (Some 8) ∈ usersForEmail
          <-> currentHour = utcHour)
         /\ (User 1 (Some "UTC") (Some 8) ∈ usersForAnalysis
             <-> currentHour = (utcHour + 23) mod 24).
Proof.
  apply (one_email_hour_and_one_analysis_hour (fixed_offset_platform "UTC" 0)
           [User 1 (Some "UTC") (Some 8)] (User 1 (Some "UTC") (Some 8))).
  - apply list_elem_of_here.
  - change (0 <= 8 < 24). lia.
Defined.

Local Close Scope Z_scope.


(** ** Strings: concatenation *)

Section Concatenation.

#[local] Arguments String.append : simpl nomatch.

Lemma string_app_assoc (x y z : string) : (x +:+ y) +:+ z = x +:+ (y +:+ z).
Proof. induction x as [|c x IH]; simpl; [reflexivity|now f_equal]. Qed.

Lemma string_app_nil_r (x : string) : x +:+ "" = x.
Proof. induction x as [|c x IH]; simpl; [reflexivity|now f_equal]. Qed.

Lemma toLowerCase_app (x y : string) :
  toLowerCase (x +:+ y) = toLowerCase x +:+ toLowerCase y.
Proof. induction x as [|c x IH]; simpl; [reflexivity|now f_equal]. Qed.

Lemma strip_prefix_app (p x y r : string) :
  strip_prefix p x = Some r -> strip_prefix p (x +:+ y) = Some (r +:+ y).
Proof.
  revert x. induction p as [|a p IH]; intros x; simpl.
  - now intros [= ->].
  - destruct x as [|c x]; [discriminate|]. simpl.
    destruct (Ascii.eqb a c); [apply IH|discriminate].
Qed.

Lemma startsWith_app (x y p : string) :
  startsWith x p = true -> startsWith (x +:+ y) p = true.
Proof.
  unfold startsWith.
  destruct (strip_prefix p x) as [r|] eqn:Hp; [|discriminate].
  now rewrite (strip_prefix_app p x y r Hp).
Qed.

Lemma includes_app_l (x y p : string) :
  includes x p = true -> includes (x +:+ y) p = true.
Proof.
  induction x as [|c x IH]; simpl.
  - rewrite orb_false_r. intros Hp. destruct p as [|a p]; [|discriminate Hp].
    destruct y; reflexivity.
  - intros Hp. apply orb_true_iff in Hp as [Hp|Hp].
    + apply orb_true_iff. left.
      exact (startsWith_app (String c x) y p Hp).
    + apply orb_true_iff. right. now apply IH.
Qed.

Lemma includes_app_r (x y p : string) :
  includes y p = true -> includes (x +:+ y) p = true.
Proof.
  intros Hp. induction x as [|c x IH]; simpl; [assumption|].
  apply orb_true_iff. now right.
Qed.

End Concatenation.

(** The items of a list follow what was there. *)
Lemma list_items_from (items : list string) (html : string) :
  fold_left (fun html item => html +:+ "<li>" +:+ item +:+ "</li>") items html
  = html +:+ list_items items.
Proof.
  unfold list_items. revert html.
  induction items as [|item items IH]; intros html; simpl.
  - now rewrite string_app_nil_r.
  - rewrite IH. rewrite (IH (String.append "" _)).
    now rewrite !string_app_assoc.
Qed.

Lemma list_items_cons (item : string) (items : list string) :
  list_items (item :: items)
  = "<li>" +:+ item +:+ "</li>" +:+ list_items items.
Proof.
  unfold list_items at 1. cbn [fold_left].
  rewrite list_items_from. now rewrite !string_app_assoc.
Qed.

(** ** Strings: blank and not blank *)

Lemma trimEnd_keeps_head (c : ascii) (r : string) :
  is_space c = false -> exists r', trimEnd (String c r) = String c r'.
Proof.
  intros Hc. cbn [trimEnd]. destruct (trimEnd r); rewrite ?Hc; eauto.
Qed.

Lemma trim_not_all_space (s : string) :
  all_space s = false -> nonempty (trim s) = true.
Proof.
  unfold trim. induction s as [|c r IH]; [discriminate|]. cbn [all_space trimStart].
  destruct (is_space c) eqn:Hc; cbn [andb]; [exact IH|].
  intros _. destruct (trimEnd_keeps_head c r Hc) as [r' ->]. reflexivity.
Qed.

(** A string is blank for [trim] exactly when it holds white space only. *)
Lemma trim_empty_iff (s : string) : trim s = "" <-> all_space s = true.
Proof.
  split; [|apply trim_all_space].
  intros Htrim. destruct (all_space s) eqn:Hs; [reflexivity|].
  apply trim_not_all_space in Hs. rewrite Htrim in Hs. discriminate.
Qed.

(** ** The renderers: what they let through *)

Lemma kept_not_specified (html : string) :
  includes (toLowerCase html) "not specified" = true -> kept html = false.
Proof.
  intros Hin. unfold kept. rewrite Hin. simpl.
  now rewrite andb_false_r.
Qed.

Lemma kept_no_specific (html : string) :
  includes (toLowerCase html) "no specific" = true -> kept html = false.
Proof. intros Hin. unfold kept. rewrite Hin. now rewrite andb_false_r. Qed.

(** X6. The script renderer, on a string that is not blank, gives something
    the assembler keeps only if both labelled regions are there and not
    blank: a script with one of the regions missing is never shown, not even
    the region that it has. *)
Theorem script_kept_only_with_both_regions (scriptStr html : string) :
  all_space scriptStr = false ->
  formatSampleScriptHtml (VStr scriptStr) = Normal html ->
  kept html = true ->
  group_present (visualCuesMatch (replaceAll "**" "" scriptStr)) = true
  /\ group_present (voiceoverMatch (replaceAll "**" "" scriptStr)) = true.
Proof.
  intros Hs. unfold formatSampleScriptHtml. simpl.
  rewrite (trim_not_all_space scriptStr Hs). simpl.
  destruct (group_present (visualCuesMatch (replaceAll "**" "" scriptStr)))
    eqn:Hvisual;
  destruct (group_present (voiceoverMatch (replaceAll "**" "" scriptStr)))
    eqn:Hvoice;
  intros [= <-] Hkept.
  - split; reflexivity.
  - rewrite kept_not_specified in Hkept; [discriminate Hkept|].
    rewrite toLowerCase_app. apply includes_app_r. reflexivity.
  - rewrite kept_not_specified in Hkept; [discriminate Hkept|].
    rewrite !toLowerCase_app. apply includes_app_l. reflexivity.
  - rewrite kept_not_specified in Hkept; [discriminate Hkept|].
    rewrite !toLowerCase_app. apply includes_app_l. reflexivity.
Qed.

Lemma script_with_both_regions_is_kept :
  group_present
    (visualCuesMatch
       (replaceAll "**" "" "Visual Cues: \n- a\nVoiceover/Script: hi")) = true
  /\ group_present
       (voiceoverMatch
          (replaceAll "**" "" "Visual Cues: \n- a\nVoiceover/Script: hi"))
     = true.
Proof.
  apply (script_kept_only_with_both_regions
           "Visual Cues: \n- a\nVoiceover/Script: hi"
           ("<h4>Visual Cues:</h4><ul><li>a</li></ul>"
            +:+ "<h4>Voiceover/Script:</h4><p>hi</p>")).
  - reflexivity.
  - reflexivity.
  - reflexivity.
Defined.


(** ** The hashtag renderer *)

Lemma hashtag_line_no_label (st : hashtag_state) (line : string) :
  label_of line = None ->
  currentTitle st = None ->
  hashtag_line st line = st.
Proof.
  unfold label_of, hashtag_line. intros -> ->. reflexivity.
Qed.

Lemma hashtag_line_label (st : hashtag_state) (line title : string) :
  label_of line = Some title ->
  currentTitle (hashtag_line st line) = Some title.
Proof. unfold label_of, hashtag_line. intros ->. reflexivity. Qed.

Lemma hashtag_line_keeps_title (st : hashtag_state) (line : string) :
  currentTitle st <> None -> currentTitle (hashtag_line st line) <> None.
Proof.
  intros Hst. unfold hashtag_line.
  destruct (List.find _ sectionTitles) as [title|]; [discriminate|].
  repeat match goal with
         | |- context [if ?c then _ else _] => destruct c
         end; assumption.
Qed.

Lemma hashtag_lines_no_label (lines : list string) (st : hashtag_state) :
  Forall (fun line => label_of line = None) lines ->
  currentTitle st = None ->
  fold_left hashtag_line lines st = st.
Proof.
  intros Hlines. revert st.
  induction Hlines as [|line lines Hline _ IH]; intros st Hst; [reflexivity|].
  cbn [fold_left]. rewrite (hashtag_line_no_label st line Hline Hst).
  now apply IH.
Qed.

Lemma hashtag_lines_keep_title (lines : list string) (st : hashtag_state) :
  currentTitle st <> None ->
  currentTitle (fold_left hashtag_line lines st) <> None.
Proof.
  revert st. induction lines as [|line lines IH]; intros st Hst; [assumption|].
  cbn [fold_left]. apply IH. now apply hashtag_line_keeps_title.
Qed.

Lemma hashtag_lines_with_label (lines : list string) (st : hashtag_state) :
  Exists (fun line => label_of line <> None) lines ->
  currentTitle (fold_left hashtag_line lines st) <> None.
Proof.
  intros Hlines. revert st.
  induction Hlines as [line lines Hline|line lines _ IH]; intros st;
    cbn [fold_left]; [|apply IH].
  apply hashtag_lines_keep_title.
  destruct (label_of line) as [title|] eqn:Htitle; [|contradiction].
  now rewrite (hashtag_line_label st line title Htitle).
Qed.

(** Closing a section that has a title writes an [<h4>] heading. *)
Lemma flush_section_heading (st : hashtag_state) :
  currentTitle st <> None ->
  includes (hs_html (flush_section st)) "<h4>" = true.
Proof.
  unfold flush_section. destruct (currentTitle st) as [title|];
    [intros _|contradiction].
  destruct (currentHashtags st); cbn [hs_html];
    apply includes_app_r, includes_app_l; reflexivity.
Qed.

(** X7. On a string that is not blank, the hashtag renderer returns its
    placeholder exactly when no line starts, once trimmed, with one of the
    three section titles; as soon as one does, what it returns holds an
    [<h4>] heading. *)
Theorem hashtag_placeholder_iff_no_label (str : string) :
  all_space str = false ->
  (formatHashtagStrategyHtml (VStr str)
     = Normal "<p>No hashtag strategy provided.</p>"
   <-> Forall (fun line => label_of line = None) (hashtag_lines str))
  /\ (Exists (fun line => label_of line <> None) (hashtag_lines str) ->
      exists html,
        formatHashtagStrategyHtml (VStr str) = Normal html
        /\ includes html "<h4>" = true).
Proof.
  intros Hstr.
  assert (Hrun : formatHashtagStrategyHtml (VStr str)
                 = Normal
                     (let st := flush_section
                                  (fold_left hashtag_line (hashtag_lines str)
                                     (HashtagState "" None [] false)) in
                      if foundContent st || includes (hs_html st) "<h4>"
                      then hs_html st
                      else "<p>No hashtag strategy provided.</p>")).
  { unfold formatHashtagStrategyHtml. simpl.
    now rewrite (trim_not_all_space str Hstr). }
  assert (Hlabel : Exists (fun line => label_of line <> None)
                     (hashtag_lines str) ->
                   exists html,
                     formatHashtagStrategyHtml (VStr str) = Normal html
                     /\ includes html "<h4>" = true).
  { intros Hex. rewrite Hrun. cbv zeta.
    pose proof (flush_section_heading _
                  (hashtag_lines_with_label (hashtag_lines str)
                     (HashtagState "" None [] false) Hex)) as Hh4.
    rewrite Hh4, orb_true_r. eexists. split; [reflexivity|exact Hh4]. }
  split; [|exact Hlabel]. split.
  - intros Hplace. apply List.Forall_forall. intros line Hin.
    destruct (label_of line) as [title|] eqn:Hline; [exfalso|reflexivity].
    destruct Hlabel as (html & Hhtml & Hh4).
    + apply List.Exists_exists. exists line. split; [assumption|].
      now rewrite Hline.
    + rewrite Hplace in Hhtml. injection Hhtml as <-. discriminate Hh4.
  - intros Hnone. rewrite Hrun. cbv zeta.
    now rewrite (hashtag_lines_no_label (hashtag_lines str)
                   (HashtagState "" None [] false) Hnone eq_refl).
Qed.

Lemma text_without_labels_gives_the_placeholder :
  (formatHashtagStrategyHtml (VStr "#a #b\n- #c")
     = Normal "<p>No hashtag strategy provided.</p>"
   <-> Forall (fun line => label_of line = None) (hashtag_lines "#a #b\n- #c"))
  /\ (Exists (fun line => label_of line <> None) (hashtag_lines "#a #b\n- #c") ->
      exists html,
        formatHashtagStrategyHtml (VStr "#a #b\n- #c") = Normal html
        /\ includes html "<h4>" = true).
Proof.
  apply (hashtag_placeholder_iff_no_label "#a #b\n- #c"). reflexivity.
Defined.


(** What the hashtag renderer has written stays: each step appends. *)
Lemma flush_section_grows (st : hashtag_state) :
  exists more, hs_html (flush_section st) = hs_html st +:+ more.
Proof.
  unfold flush_section. destruct (currentTitle st) as [title|].
  - destruct (currentHashtags st); cbn [hs_html]; eauto.
  - exists "". now rewrite string_app_nil_r.
Qed.

Lemma hashtag_line_grows (st : hashtag_state) (line : string) :
  exists more, hs_html (hashtag_line st line) = hs_html st +:+ more.
Proof.
  unfold hashtag_line.
  destruct (List.find _ sectionTitles) as [title|].
  - cbn [hs_html]. apply flush_section_grows.
  - exists "". rewrite string_app_nil_r.
    repeat match goal with
           | |- context [if ?c then _ else _] => destruct c
           end; reflexivity.
Qed.

Lemma hashtag_lines_grow (lines : list string) (st : hashtag_state) :
  exists more, hs_html (fold_left hashtag_line lines st) = hs_html st +:+ more.
Proof.
  revert st. induction lines as [|line lines IH]; intros st; cbn [fold_left].
  - exists "". now rewrite string_app_nil_r.
  - destruct (IH (hashtag_line st line)) as [more2 ->].
    destruct (hashtag_line_grows st line) as [more1 ->].
    exists (more1 +:+ more2). now rewrite string_app_assoc.
Qed.

Lemma grown_includes (html more p : string) :
  includes (toLowerCase html) p = true ->
  includes (toLowerCase (html +:+ more)) p = true.
Proof. intros Hin. rewrite toLowerCase_app. now apply includes_app_l. Qed.

(** A line that is neither a title line nor an item leaves the state as it
    is. *)
Lemma hashtag_line_other (st : hashtag_state) (line : string) :
  label_of line = None -> item_line line = false ->
  hashtag_line st line = st.
Proof.
  unfold label_of, item_line, hashtag_line. intros -> ->.
  now destruct (_ && _).
Qed.

Lemma hashtag_lines_other (lines : list string) (st : hashtag_state) :
  Forall (fun line => label_of line = None /\ item_line line = false) lines ->
  fold_left hashtag_line lines st = st.
Proof.
  intros Hlines. revert st.
  induction Hlines as [|line lines [Hlabel Hitem] _ IH]; intros st;
    [reflexivity|].
  cbn [fold_left]. now rewrite hashtag_line_other.
Qed.

Lemma hashtag_line_bare_label (st : hashtag_state) (line : string) :
  bare_label line = true ->
  exists title,
    hashtag_line st line
    = HashtagState (hs_html (flush_section st)) (Some title) []
        (foundContent (flush_section st)).
Proof.
  unfold bare_label, label_of, hashtag_line.
  destruct (List.find _ sectionTitles) as [title|]; [|discriminate].
  intros Hbare. exists title. apply negb_true_iff in Hbare. now rewrite Hbare.
Qed.

(** Closing a section that has a title and no item writes the placeholder of
    the section. *)
Lemma flush_section_empty (st : hashtag_state) (title : string) :
  currentTitle st = Some title -> currentHashtags st = [] ->
  includes (toLowerCase (hs_html (flush_section st))) "no specific" = true.
Proof.
  unfold flush_section. intros -> ->. cbn [hs_html].
  rewrite !toLowerCase_app. do 3 apply includes_app_r. reflexivity.
Qed.

(** X8. When a title line of the hashtag text brings no item, neither on its
    own line nor on the lines up to the next title line or the end of the
    text, the renderer writes "No specific hashtags listed." for that
    section, and the assembler then leaves out the hashtag section as a
    whole, with the sections of it that have items. *)
Theorem hashtag_section_without_items_suppresses_all
    (str : string) (before : list string) (line : string)
    (between after : list string) :
  all_space str = false ->
  hashtag_lines str = (before ++ line :: between ++ after)%list ->
  bare_label line = true ->
  Forall (fun line => label_of line = None /\ item_line line = false)
    between ->
  (after = []
   \/ exists next rest, after = next :: rest /\ label_of next <> None) ->
  exists html,
    formatHashtagStrategyHtml (VStr str) = Normal html
    /\ includes html "<h4>" = true
    /\ kept html = false.
Proof.
  intros Hstr Hlines Hbare Hbetween Hafter.
  unfold formatHashtagStrategyHtml. simpl.
  rewrite (trim_not_all_space str Hstr). simpl.
  fold (hashtag_lines str). rewrite Hlines.
  rewrite fold_left_app. cbn [fold_left]. rewrite fold_left_app.
  set (st0 := fold_left hashtag_line before (HashtagState "" None [] false)).
  destruct (hashtag_line_bare_label st0 line Hbare) as [title ->].
  rewrite (hashtag_lines_other between _ Hbetween).
  set (st1 := HashtagState (hs_html (flush_section st0)) (Some title) []
                (foundContent (flush_section st0))).
  assert (Hfinal : currentTitle (fold_left hashtag_line after st1) <> None)
    by (apply hashtag_lines_keep_title; discriminate).
  pose proof (flush_section_heading _ Hfinal) as Hh4.
  rewrite Hh4, orb_true_r. eexists. split; [reflexivity|].
  split; [exact Hh4|]. apply kept_no_specific.
  destruct Hafter as [->|(next & rest & -> & Hnext)].
  - cbn [fold_left]. now apply (flush_section_empty st1 title).
  - cbn [fold_left].
    destruct (flush_section_grows (fold_left hashtag_line rest
                                     (hashtag_line st1 next))) as [m2 ->].
    destruct (hashtag_lines_grow rest (hashtag_line st1 next)) as [m1 ->].
    apply grown_includes, grown_includes.
    unfold hashtag_line. unfold label_of in Hnext.
    destruct (List.find _ sectionTitles) as [title'|]; [|contradiction].
    cbn [hs_html]. now apply (flush_section_empty st1 title).
Qed.

Lemma empty_secondary_suppresses_primary :
  exists html,
    formatHashtagStrategyHtml
      (VStr "Primary (Niche):\n- #a\nSecondary (Trending/Regional):\n(none)")
    = Normal html
    /\ includes html "<h4>" = true
    /\ kept html = false.
Proof.
  apply (hashtag_section_without_items_suppresses_all
           "Primary (Niche):\n- #a\nSecondary (Trending/Regional):\n(none)"
           ["Primary (Niche):"; "- #a"] "Secondary (Trending/Regional):"
           ["(none)"] []).
  - reflexivity.
  - reflexivity.
  - reflexivity.
  - repeat constructor.
  - now left.
Defined.


(** ** The theme renderer and the list renderer *)

Lemma append_theme_item (html : string) (theme : value) :
  append_theme html theme
  = match theme_item theme with
    | Some cleanedTheme => html +:+ "<li>" +:+ cleanedTheme +:+ "</li>"
    | None => html
    end.
Proof.
  unfold append_theme, theme_item. destruct theme; try reflexivity.
  now destruct (_ && _).
Qed.

Lemma fold_append_theme (items : list value) (html : string) :
  fold_left append_theme items html
  = html +:+ list_items (omap theme_item items).
Proof.
  revert html. induction items as [|theme items IH]; intros html;
    cbn [fold_left omap list_omap].
  - now rewrite string_app_nil_r.
  - rewrite IH, append_theme_item.
    change (omap theme_item (theme :: items))
      with (match theme_item theme with
            | Some c => c :: omap theme_item items
            | None => omap theme_item items
            end).
    destruct (theme_item theme) as [c|]; [|reflexivity].
    now rewrite list_items_cons, !string_app_assoc.
Qed.

(** X9. On an array, the theme renderer lists, in the order of the array, the
    cleaned text of each element that is a string and passes the tests of the
    loop; an element that is not a string, or whose cleaned text is dropped,
    leaves nothing; when no element is left, and so on the empty array, it
    returns its placeholder. *)
Theorem themes_of_an_array
    (JSON_parse : value -> completion value) (items : list value) :
  formatContentThemesHtml JSON_parse (VArr items)
  = Normal
      (match omap theme_item items with
       | [] => "<p>No specific themes provided.</p>"
       | survivors => "<ul>" +:+ list_items survivors +:+ "</ul>"
       end).
Proof.
  unfold formatContentThemesHtml. simpl.
  destruct items as [|theme items]; [reflexivity|].
  unfold render_themes. cbv zeta. unfold mret, completion_ret. f_equal.
  rewrite fold_append_theme.
  destruct (omap theme_item (theme :: items)) as [|c survivors].
  - reflexivity.
  - rewrite list_items_cons.
    replace (includes _ "<li>") with true; [now rewrite !string_app_assoc|].
    symmetry. rewrite !string_app_assoc.
    apply (includes_app_r "<ul>"), includes_app_l. reflexivity.
Qed.

(** X10. The list renderer never returns a list without items: what it
    returns starts with "<p>" (its placeholder, or the text as one
    paragraph) or with "<ul><li>". *)
Theorem createListHtml_paragraph_or_list_with_items
    (str : value) (title html : string) :
  createListHtml str title = Normal html ->
  startsWith html "<p>" = true \/ startsWith html "<ul><li>" = true.
Proof.
  unfold createListHtml.
  destruct str as [| | | | |s| |]; simpl;
    try (intros [= <-]; left; reflexivity).
  destruct (nonempty (trim s)); simpl; [|intros [= <-]; now left].
  set (cleanedStr := trim (replaceAll "---" "" _)).
  set (items := List.filter nonempty _).
  destruct items as [|item items'] eqn:Hitems.
  - simpl. intros [= <-]. now left.
  - assert (Hitem : nonempty item = true).
    { assert (Hin : In item (item :: items')) by now left.
      rewrite <- Hitems in Hin. unfold items in Hin.
      now apply filter_In in Hin. }
    destruct (_ || _); intros [= <-]; [now left|right].
    cbn [List.filter]. rewrite Hitem, list_items_cons.
    apply (startsWith_app "<ul><li>"). reflexivity.
Qed.


(** ** The assembler: the fields it reads *)

Section AssemblerFields.

Variable JSON_parse : value -> completion value.

Implicit Types (d : gmap string value) (section : section_desc).

Lemma section_key_listed section :
  section ∈ sections JSON_parse -> key section ∈ section_keys.
Proof.
  unfold sections, section_keys. intros Hin.
  repeat (apply elem_of_cons in Hin as [->|Hin]); cbn [key];
    rewrite ?elem_of_cons; auto 10.
  now apply elem_of_nil in Hin.
Qed.

Lemma for_sections_same_on d1 d2 (todo : list section_desc) :
  (forall section,
     section ∈ todo ->
     same_content (section_content d1 section) (section_content d2 section)) ->
  forall acc, for_sections d1 todo acc = for_sections d2 todo acc.
Proof.
  induction todo as [|section rest IH]; intros Hsame acc; [reflexivity|].
  cbn [for_sections].
  rewrite (section_step_same d1 d2 acc section)
    by (apply Hsame; now left).
  destruct (section_step d2 acc section) as [acc'|e]; simpl; [|reflexivity].
  apply IH. intros sec Hsec. apply Hsame. now right.
Qed.

(** Two documents that are not empty and agree, up to falsy values, on what
    each section is rendered from and on [postingFrequency] are assembled to
    the same. *)
Lemma format_same d1 d2 :
  d1 <> ∅ -> d2 <> ∅ ->
  (forall section,
     section ∈ sections JSON_parse ->
     same_content (section_content d1 section) (section_content d2 section)) ->
  same_content (get d1 "postingFrequency") (get d2 "postingFrequency") ->
  formatMarketingStrategyToHtml JSON_parse (Some d1)
  = formatMarketingStrategyToHtml JSON_parse (Some d2).
Proof.
  intros H1 H2 Hsections Htrailer. unfold formatMarketingStrategyToHtml.
  rewrite (Object_keys_non_empty d1 H1), (Object_keys_non_empty d2 H2).
  rewrite (for_sections_same_on d1 d2 (sections JSON_parse) Hsections).
  destruct (for_sections _ _ _) as [[html b]|e]; simpl; [|reflexivity].
  destruct b; simpl; [|reflexivity].
  now rewrite (add_trailer_same d1 d2 html Htrailer).
Qed.

Lemma get_insert_ne d (k k' : string) (v : value) :
  k <> k' -> get (<[k:=v]> d) k' = get d k'.
Proof. intros Hne. rewrite get_insert. now destruct (decide (k = k')). Qed.

Lemma same_content_refl (a : value) : same_content a a.
Proof. now left. Qed.

(** X11. A field that [formatMarketingStrategyToHtml] does not read changes
    nothing in a document that is not empty: a field under a key that is
    neither a section key nor [rawContent]; and [rawContent] itself when
    [observations] is truthy. *)
Theorem unread_field_changes_nothing d (k : string) (v : value) :
  d <> ∅ ->
  k ∉ section_keys ->
  (k = "rawContent" -> truthy (get d "observations") = true) ->
  formatMarketingStrategyToHtml JSON_parse (Some (<[k:=v]> d))
  = formatMarketingStrategyToHtml JSON_parse (Some d).
Proof.
  intros Hd Hk Hraw.
  apply format_same; [apply insert_non_empty|assumption| |].
  - intros section Hin. apply section_key_listed in Hin.
    assert (Hne : k <> key section) by (intros ->; contradiction).
    unfold section_content. rewrite (get_insert_ne d k _ v Hne).
    destruct (String.eqb_spec (key section) "observations") as [Hobs|Hobs];
      [|apply same_content_refl].
    rewrite Hobs in *. unfold js_or.
    destruct (truthy (get d "observations")) eqn:Htruthy;
      [apply same_content_refl|].
    rewrite get_insert. destruct (decide (k = "rawContent")) as [Heq|Heq];
      [|apply same_content_refl].
    specialize (Hraw Heq). congruence.
  - rewrite get_insert_ne; [apply same_content_refl|].
    intros ->. apply Hk. unfold section_keys. rewrite !elem_of_cons. auto 10.
Qed.

(** X12. [rawContent] stands in for [observations]: for a document that has
    neither field, the content given as [rawContent] is assembled as the same
    content given as [observations]. *)
Theorem rawContent_stands_in_for_observations d (content : value) :
  d !! "observations" = None ->
  d !! "rawContent" = None ->
  formatMarketingStrategyToHtml JSON_parse (Some (<["rawContent":=content]> d))
  = formatMarketingStrategyToHtml JSON_parse
      (Some (<["observations":=content]> d)).
Proof.
  intros Hobs Hraw.
  assert (Hget_obs : get d "observations" = VUndefined)
    by (unfold get; now rewrite Hobs).
  assert (Hget_raw : get d "rawContent" = VUndefined)
    by (unfold get; now rewrite Hraw).
  apply format_same; try apply insert_non_empty.
  - intros section Hin. apply section_key_listed in Hin.
    unfold section_content.
    destruct (String.eqb_spec (key section) "observations") as [Hkey|Hkey].
    + rewrite Hkey. rewrite (get_insert_ne d "rawContent" "observations")
        by discriminate.
      rewrite !get_insert. simpl. rewrite Hget_obs, Hget_raw. unfold js_or.
      simpl. destruct (truthy content) eqn:Hc; [now left|right].
      now split.
    + assert (Hne : "rawContent" <> key section).
      { intros Heq. rewrite <- Heq in Hin. revert Hin.
        unfold section_keys. rewrite !elem_of_cons, elem_of_nil.
        intros Hor. decompose [or] Hor; discriminate || contradiction. }
      rewrite (get_insert_ne d "rawContent" _ content Hne).
      rewrite (get_insert_ne d "observations" _ content)
        by (intros Heq; now apply Hkey).
      apply same_content_refl.
  - rewrite !get_insert_ne by discriminate. apply same_content_refl.
Qed.

End AssemblerFields.

Lemma debug_field_changes_nothing :
  formatMarketingStrategyToHtml JSON_parse_rejecting
    (Some (<["debug":=VStr "x"]> takeaways_only))
  = formatMarketingStrategyToHtml JSON_parse_rejecting (Some takeaways_only).
Proof.
  apply (unread_field_changes_nothing JSON_parse_rejecting takeaways_only
           "debug" (VStr "x")).
  - intros Hempty.
    apply (f_equal (fun d : gmap string value => d !! "keyTakeaways")) in Hempty.
    vm_compute in Hempty. discriminate Hempty.
  - unfold section_keys. rewrite !elem_of_cons, elem_of_nil.
    intros Hor. decompose [or] Hor; discriminate || contradiction.
  - discriminate.
Defined.

Lemma rawContent_beside_takeaways :
  formatMarketingStrategyToHtml JSON_parse_rejecting
    (Some (<["rawContent":=VStr "- x\n- y"]> takeaways_only))
  = formatMarketingStrategyToHtml JSON_parse_rejecting
      (Some (<["observations":=VStr "- x\n- y"]> takeaways_only)).
Proof.
  apply (rawContent_stands_in_for_observations JSON_parse_rejecting
           takeaways_only (VStr "- x\n- y")); reflexivity.
Defined.


(** ** The assembler: how a document opens *)

Lemma replaceAll_skip (a c : ascii) (p rep r : string) :
  strip_prefix (String a p) (String c r) = None ->
  replaceAll (String a p) rep (String c r)
  = String c (replaceAll (String a p) rep r).
Proof. intros Hp. now rewrite replaceAll_step, Hp. Qed.

Lemma collapse_breaks_skip (c : ascii) (r : string) :
  br_unit (String c r) = None ->
  collapse_breaks (String c r) = String c (collapse_breaks r).
Proof. intros Hu. now rewrite collapse_breaks_step, Hu. Qed.

(** The three passes of the clean-up go through a text in which none of their
    patterns starts, one unit at a time. *)
Ltac through_cleanup :=
  unfold cleanup; cbv [String.append];
  repeat first [ rewrite replaceAll_skip by reflexivity
               | rewrite collapse_breaks_skip by reflexivity ].

Section AssemblerOpening.

Variable JSON_parse : value -> completion value.

Implicit Types (d : gmap string value) (section : section_desc).

(** The clean-up leaves the title heading and the heading of a section as
    they are, whatever follows. *)
Lemma cleanup_after_headings section (rest : string) :
  section ∈ sections JSON_parse ->
  cleanup (strategy_heading +:+ "<h3>" +:+ title section +:+ "</h3>" +:+ rest)
  = strategy_heading +:+ "<h3>" +:+ title section +:+ "</h3>"
    +:+ cleanup rest.
Proof.
  unfold sections, strategy_heading. intros Hin.
  repeat (apply elem_of_cons in Hin as [->|Hin]); cbn [title];
    try (through_cleanup; reflexivity).
  now apply elem_of_nil in Hin.
Qed.

Lemma section_step_grows d (acc acc' : string * bool) section :
  section_step d acc section = Normal acc' ->
  exists more, acc'.1 = acc.1 +:+ more.
Proof.
  unfold section_step. destruct (truthy _).
  - destruct (processor section _) as [html|e]; simpl; [|discriminate].
    destruct (kept html); intros [= <-]; cbn [fst]; eauto.
    exists "". now rewrite string_app_nil_r.
  - intros [= <-]. exists "". now rewrite string_app_nil_r.
Qed.

Lemma for_sections_grows d (todo : list section_desc) :
  forall acc acc' : string * bool,
    for_sections d todo acc = Normal acc' ->
    exists more, acc'.1 = acc.1 +:+ more.
Proof.
  induction todo as [|section rest IH]; intros acc acc'; cbn [for_sections].
  - intros [= <-]. exists "". now rewrite string_app_nil_r.
  - destruct (section_step d acc section) as [acc1|e] eqn:Hstep; simpl;
      [|discriminate].
    intros Hrest. destruct (IH _ _ Hrest) as [more2 ->].
    destruct (section_step_grows d acc acc1 section Hstep) as [more1 ->].
    exists (more1 +:+ more2). now rewrite string_app_assoc.
Qed.

Lemma for_sections_app d (todo1 todo2 : list section_desc) (acc : string * bool) :
  for_sections d (todo1 ++ todo2) acc
  = for_sections d todo1 acc ≫= for_sections d todo2.
Proof.
  revert acc. induction todo1 as [|section rest IH]; intros acc;
    [reflexivity|].
  cbn [for_sections app].
  destruct (section_step d acc section) as [acc1|e]; simpl; [apply IH|].
  reflexivity.
Qed.

Lemma add_trailer_grows d (emailBodyHtml : string) :
  exists more, add_trailer d emailBodyHtml = Normal (emailBodyHtml +:+ more).
Proof.
  unfold add_trailer.
  destruct (truthy _ && is_string _) eqn:Htest.
  - destruct (get d "postingFrequency") as [| | | | |s| |];
      simpl in Htest; rewrite ?andb_false_r in Htest; try discriminate Htest.
    simpl.
    destruct (strategy_balances s) as [m0|]; [destruct (nonempty m0)|]; eauto;
      exists ""; now rewrite string_app_nil_r.
  - exists "". now rewrite string_app_nil_r.
Qed.

Lemma survivor_makes_non_empty d section :
  section_survives d section -> d <> ∅.
Proof.
  intros [Htruthy _] ->. unfold section_content, get in Htruthy.
  rewrite !lookup_empty in Htruthy. simpl in Htruthy.
  destruct (String.eqb _ _); discriminate Htruthy.
Qed.

(** How an assembled document with a surviving section opens. *)
Lemma opening_of_document
    d (before after : list section_desc) section :
  sections JSON_parse = (before ++ section :: after)%list ->
  (forall earlier, earlier ∈ before -> section_suppressed d earlier) ->
  section_survives d section ->
  exists rest,
    formatMarketingStrategyToHtml JSON_parse (Some d)
    = Normal (strategy_heading +:+ "<h3>" +:+ title section +:+ "</h3>"
              +:+ rest).
Proof.
  intros Hsplit Hbefore Hsurvives.
  assert (Hin : section ∈ sections JSON_parse)
    by (rewrite Hsplit, elem_of_app, elem_of_cons; auto).
  assert (Hsub : forall sec, sec ∈ before -> sec ∈ sections JSON_parse)
    by (intros sec Hsec; rewrite Hsplit, elem_of_app; auto).
  unfold formatMarketingStrategyToHtml.
  rewrite (Object_keys_non_empty d (survivor_makes_non_empty d section Hsurvives)).
  destruct (for_sections_spec JSON_parse d (sections JSON_parse) (fun _ H => H)
              (strategy_heading, false)) as (html & b & Hrun & Hb & _).
  fold strategy_heading. rewrite Hrun. simpl.
  assert (b = true) as -> by (apply Hb; right; eauto).
  rewrite Hsplit, for_sections_app in Hrun.
  destruct (for_sections_spec JSON_parse d before Hsub (strategy_heading, false))
    as (html0 & b0 & Hrun0 & _ & Hsame).
  rewrite Hrun0 in Hrun. specialize (Hsame Hbefore).
  injection Hsame as -> ->. simpl in Hrun.
  destruct (section_step_survives d (strategy_heading, false) section Hsurvives)
    as [html1 Hstep].
  cbn [for_sections] in Hrun. rewrite Hstep in Hrun. simpl in Hrun.
  destruct (for_sections_grows d after _ _ Hrun) as [more Hmore].
  cbn [fst] in Hmore. subst html. simpl.
  destruct (add_trailer_grows d
              ((strategy_heading +:+ "<h3>" +:+ title section +:+ "</h3>"
                +:+ html1) +:+ more)) as [trailer ->].
  simpl. unfold mret, completion_ret.
  rewrite !string_app_assoc.
  rewrite (cleanup_after_headings section _ Hin).
  eexists. reflexivity.
Qed.

(** X13. An assembled document in which a section survives opens with the
    title heading followed by the [<h3>] heading of the first section, in
    the fixed order, that survives; the clean-up does not touch them. *)
Theorem document_opens_with_first_surviving_section
    d (before after : list section_desc) section :
  sections JSON_parse = (before ++ section :: after)%list ->
  (forall earlier, earlier ∈ before -> section_suppressed d earlier) ->
  section_survives d section ->
  exists rest,
    formatMarketingStrategyToHtml JSON_parse (Some d)
    = Normal (strategy_heading +:+ "<h3>" +:+ title section +:+ "</h3>"
              +:+ rest).
Proof. exact (opening_of_document d before after section). Qed.

(** A field of white space only is rendered, for each section but the
    themes, to a placeholder that the assembler keeps. *)
Lemma blank_field_survives d section (s : string) :
  section ∈ sections JSON_parse ->
  key section <> "contentThemes" ->
  get d (key section) = VStr s ->
  all_space s = true -> s <> "" ->
  section_survives d section.
Proof.
  intros Hin Hkey Hget Hblank Hne.
  assert (Htruthy : truthy (VStr s) = true).
  { simpl. destruct (String.eqb_spec s ""); [contradiction|reflexivity]. }
  assert (Hcontent : section_content d section = VStr s).
  { unfold section_content, js_or. now rewrite Hget, Htruthy. }
  unfold section_survives. rewrite Hcontent. split; [assumption|].
  unfold sections in Hin.
  repeat (apply elem_of_cons in Hin as [->|Hin]); cbn [processor key] in *;
    try contradiction;
    try (rewrite (createListHtml_placeholder (VStr s) _ Hblank);
         eexists; split; reflexivity);
    try (rewrite (formatSampleScriptHtml_placeholder (VStr s) Hblank);
         eexists; split; reflexivity);
    try (rewrite (formatHashtagStrategyHtml_placeholder (VStr s) Hblank);
         eexists; split; reflexivity).
  now apply elem_of_nil in Hin.
Qed.

End AssemblerOpening.


(** ** The assembler returns *)

(** The assembler returns. *)
Lemma assembler_returns
    (JSON_parse : value -> completion value)
    (marketingStrategy : option (gmap string value)) :
  exists html,
    formatMarketingStrategyToHtml JSON_parse marketingStrategy = Normal html.
Proof.
  unfold formatMarketingStrategyToHtml.
  destruct marketingStrategy as [d|]; [|eexists; reflexivity].
  destruct (length (Object_keys d) =? 0)%nat; [eexists; reflexivity|].
  destruct (for_sections_spec JSON_parse d (sections JSON_parse) (fun _ H => H)
              ("<h2>Marketing Strategy & Content Ideas</h2>", false))
    as (html & b & -> & _). simpl.
  destruct b; simpl; [|eexists; reflexivity].
  destruct (add_trailer_grows d html) as [more ->]. simpl.
  eexists. reflexivity.
Qed.

(** X14. [formatMarketingStrategyToHtml] returns an HTML string on every
    document, and on null: nothing a processor or the trailer does throws. *)
Theorem formatMarketingStrategyToHtml_returns
    (JSON_parse : value -> completion value)
    (marketingStrategy : option (gmap string value)) :
  exists html,
    formatMarketingStrategyToHtml JSON_parse marketingStrategy = Normal html.
Proof. exact (assembler_returns JSON_parse marketingStrategy). Qed.

(** ** The orchestration *)

Section OrchestrationFacts.

Variable api_post : list event -> workflow_request -> settled value.
Variable store_select : list event -> settled select_result.
Variable store_update : list event -> nat -> patch -> settled unit.
Variable sendTransacEmail : list event -> smtp_email -> settled unit.
Variable EMAIL_SENDER : value.
Variable JSON_parse : value -> completion value.
Variable DateTimeFormat : string -> completion (Z -> option Z).
Variable large : Z -> string.

Lemma get_property_normal (v : value) (k : string) :
  nullish v = false -> get_property v k = Normal (optional_get v k).
Proof.
  unfold optional_get. destruct v; try discriminate; reflexivity.
Qed.

Lemma truthy_not_nullish (v : value) : truthy v = true -> nullish v = false.
Proof. destruct v; try discriminate; reflexivity. Qed.

(** Reading the message throws on a reason that is null or undefined, and on
    nothing else. *)
Lemma read_message_spec (x : exception) :
  read_message x = if nullish_reason x then Throw TypeError else Normal tt.
Proof.
  destruct x as [e|message|v]; try reflexivity.
  destruct v; reflexivity.
Qed.

Lemma log_workflow_error_nullish (x : exception) :
  nullish_reason x = true -> log_workflow_error large x = Throw TypeError.
Proof.
  intros Hx. unfold log_workflow_error. rewrite read_message_spec, Hx.
  reflexivity.
Qed.

Lemma log_workflow_error_spec (x : exception) :
  log_workflow_error large x = Normal tt <-> loggable large x.
Proof.
  destruct x as [e|message|v]; [now split|now split|].
  unfold log_workflow_error, loggable. rewrite read_message_spec.
  cbn [nullish_reason error_property].
  destruct (nullish v) eqn:Hv.
  { split; [discriminate|intros [[=] _]]. }
  cbn [mbind completion_bind].
  rewrite !(get_property_normal v) by exact Hv.
  cbn [mbind completion_bind].
  destruct (truthy (optional_get v "response")) eqn:Hresponse.
  - rewrite !(get_property_normal (optional_get v "response"))
      by now apply truthy_not_nullish.
    cbn [mbind completion_bind].
    destruct (ToString large
                (optional_get (optional_get v "response") "status"))
      as [written|e]; cbn [mbind completion_bind mret completion_ret].
    + split; [intros _; split; [reflexivity|eauto]|reflexivity].
    + split; [discriminate|].
      intros [_ Hstatus]. destruct (Hstatus eq_refl) as [written [=]].
  - split; [intros _; split; [reflexivity|discriminate]|].
    intros _. now destruct (truthy (optional_get v "request")).
Qed.

(** The run of [runWorkflowForUser]. *)
Lemma runWorkflowForUser_run (user : account) (history : list event) :
  runWorkflowForUser api_post large user history
  = if eligible user
    then (match api_post history (request_of user) with
          | Fulfilled response => Fulfilled (data_of response)
          | Rejected x =>
              match log_workflow_error large x with
              | Normal _ => Fulfilled VNull
              | Throw e => Rejected (Builtin e)
              end
          end,
          [Post (request_of user)])
    else (Fulfilled VNull, []).
Proof.
  unfold runWorkflowForUser, eligible, request_of, try_task.
  destruct (truthy (text (business_description user))); simpl; [|reflexivity].
  destruct (truthy (text (auth_id user))); simpl; [|reflexivity].
  unfold mbind, task_bind, mret, task_ret, perform, of_completion, data_of.
  simpl. rewrite !app_nil_r. destruct (api_post history _) as [response|x].
  - destruct (get_property response "data") as [response_data|e]; simpl;
      now rewrite ?app_nil_r.
  - destruct (log_workflow_error large x) as [[]|e]; simpl;
      now rewrite ?app_nil_r.
Qed.

(** X15. [runWorkflowForUser] rejects in one case only.  Without a business
    description or without an [auth_id] it makes no call and gives null.
    Else it posts one request, with the [auth_id] (not the id of the row) as
    [userId] and 3 videos per query; it gives the data of the response, and
    null for a response that is null or undefined; when the call is rejected
    it gives null if its [catch] block can log the rejection, and is
    rejected itself, with the TypeError of the block, if not.  The block can
    log every Error, and every other value except null, undefined and a
    value of which the [response] is truthy and has a [status] that cannot be
    written as a string. *)
Theorem runWorkflowForUser_spec (user : account) (history : list event) :
  runWorkflowForUser api_post large user history
  = (if eligible user
     then (match api_post history (request_of user) with
           | Fulfilled response => Fulfilled (data_of response)
           | Rejected x =>
               match log_workflow_error large x with
               | Normal _ => Fulfilled VNull
               | Throw e => Rejected (Builtin e)
               end
           end,
           [Post (request_of user)])
     else (Fulfilled VNull, []))
  /\ (forall x, log_workflow_error large x = Normal tt <-> loggable large x)
  /\ (forall x,
        nullish_reason x = true ->
        log_workflow_error large x = Throw TypeError).
Proof.
  split; [exact (runWorkflowForUser_run user history)|].
  split; [exact log_workflow_error_spec|exact log_workflow_error_nullish].
Qed.

(** The name of the greeting is written as it stands. *)
Lemma greeting_name_spec (user : account) :
  ToString large (js_or (text (full_name user)) (VStr "there"))
  = Normal (greeting_name user).
Proof.
  unfold greeting_name, js_or. destruct (full_name user) as [name|];
    [|reflexivity].
  cbn [text truthy]. unfold nonempty. now destruct (negb (String.eqb name "")).
Qed.

Lemma mail_for_recipient (user : account) (analysisResults : value)
    (mail : smtp_email) :
  mail_for EMAIL_SENDER JSON_parse large user analysisResults = Some mail ->
  truthy (text (email user)) = true /\ to_email mail = text (email user).
Proof.
  unfold mail_for. destruct (truthy (text (email user))); [|discriminate].
  destruct (get_property analysisResults "data") as [data|e];
    cbn [mbind completion_bind]; [|discriminate].
  destruct (formatMarketingStrategyToHtml _ _) as [html|e];
    cbn [mbind completion_bind]; [|discriminate].
  unfold analysis_email.
  destruct (ToString large (js_or (text (full_name user)) (VStr "there")))
    as [name|e]; cbn [mbind completion_bind]; [|discriminate].
  destruct (ToString large
              (js_or (optional_get (optional_get data "searchQueries")
                        "length") (VNum 0)))
    as [queries|e]; cbn [mbind completion_bind]; [|discriminate].
  destruct (ToString large (js_or (optional_get data "videosCount") (VNum 0)))
    as [videos|e]; cbn [mbind completion_bind mret completion_ret];
    [|discriminate].
  intros [= <-]. split; reflexivity.
Qed.

(** When no mail is made: no address, results that are null or undefined, or
    a count that cannot be written as a string. *)
Lemma mail_for_none (user : account) (analysisResults : value) :
  mail_for EMAIL_SENDER JSON_parse large user analysisResults = None
  <-> truthy (text (email user)) = false
      \/ nullish analysisResults = true
      \/ (exists e,
            ToString large
              (js_or (optional_get
                        (optional_get (optional_get analysisResults "data")
                           "searchQueries") "length") (VNum 0)) = Throw e)
      \/ (exists e,
            ToString large
              (js_or (optional_get (optional_get analysisResults "data")
                        "videosCount") (VNum 0)) = Throw e).
Proof.
  unfold mail_for. destruct (truthy (text (email user))); [|now split; auto].
  destruct (nullish analysisResults) eqn:Hnull.
  { split; [auto|intros _].
    destruct analysisResults; try discriminate Hnull; reflexivity. }
  rewrite (get_property_normal analysisResults "data" Hnull).
  cbn [mbind completion_bind].
  destruct (assembler_returns JSON_parse
              (document_of
                 (js_or (optional_get (optional_get analysisResults "data")
                           "marketingStrategy") (VObj []))))
    as [html ->].
  cbn [mbind completion_bind]. unfold analysis_email.
  rewrite greeting_name_spec. cbn [mbind completion_bind].
  destruct (ToString large
              (js_or (optional_get
                        (optional_get (optional_get analysisResults "data")
                           "searchQueries") "length") (VNum 0)))
    as [queries|e]; cbn [mbind completion_bind].
  - destruct (ToString large
                (js_or (optional_get (optional_get analysisResults "data")
                          "videosCount") (VNum 0)))
      as [videos|e]; cbn [mbind completion_bind mret completion_ret].
    + split; [discriminate|].
      intros [Hfalse|[Hfalse|[[e Hfalse]|[e Hfalse]]]]; discriminate.
    + split; [intros _|reflexivity]. right. right. right. now exists e.
  - split; [intros _|reflexivity]. right. right. left. now exists e.
Qed.

(** The run of [sendAnalysisEmail]. *)
Lemma sendAnalysisEmail_run
    (user : account) (analysisResults : value) (history : list event) :
  sendAnalysisEmail sendTransacEmail EMAIL_SENDER JSON_parse large user
    analysisResults history
  = match mail_for EMAIL_SENDER JSON_parse large user analysisResults with
    | Some mail =>
        (match sendTransacEmail history mail with
         | Fulfilled _ => Fulfilled true
         | Rejected x =>
             if nullish_reason x then Rejected (Builtin TypeError)
             else Fulfilled false
         end,
         [SendTransacEmail mail])
    | None => (Fulfilled false, [])
    end.
Proof.
  unfold sendAnalysisEmail, mail_for, try_task.
  destruct (truthy (text (email user))); simpl; [|reflexivity].
  unfold mbind at 1. unfold task_bind, of_completion.
  destruct (get_property analysisResults "data") as [data|e]; simpl;
    [|reflexivity].
  unfold mbind at 1. unfold task_bind.
  destruct (formatMarketingStrategyToHtml _ _) as [html|e]; simpl;
    [|reflexivity].
  unfold mbind at 1. unfold task_bind.
  destruct (analysis_email EMAIL_SENDER large user data html) as [mail|e];
    simpl; [|reflexivity].
  unfold mbind, task_bind, mret, task_ret, perform. simpl.
  rewrite !app_nil_r.
  destruct (sendTransacEmail history mail) as [[]|x]; [reflexivity|].
  rewrite read_message_spec. now destruct (nullish_reason x).
Qed.

(** X16. [sendAnalysisEmail] makes at most one call, and is rejected in one
    case only: when the transport rejects with null or undefined, which the
    [catch] block cannot log.  It makes no call and gives false when the
    user has no email address, when the results are null or undefined, and
    when a count found in them cannot be written as a string; in every other
    case it hands one mail to the transport, addressed to the address of the
    user, and gives true when the transport fulfils the call and false when
    it rejects with anything else. *)
Theorem sendAnalysisEmail_spec
    (user : account) (analysisResults : value) (history : list event) :
  sendAnalysisEmail sendTransacEmail EMAIL_SENDER JSON_parse large user
    analysisResults history
  = match mail_for EMAIL_SENDER JSON_parse large user analysisResults with
    | Some mail =>
        (match sendTransacEmail history mail with
         | Fulfilled _ => Fulfilled true
         | Rejected x =>
             if nullish_reason x then Rejected (Builtin TypeError)
             else Fulfilled false
         end,
         [SendTransacEmail mail])
    | None => (Fulfilled false, [])
    end
  /\ (mail_for EMAIL_SENDER JSON_parse large user analysisResults = None
      <-> truthy (text (email user)) = false
          \/ nullish analysisResults = true
          \/ (exists e,
                ToString large
                  (js_or (optional_get
                            (optional_get
                               (optional_get analysisResults "data")
                               "searchQueries") "length") (VNum 0))
                = Throw e)
          \/ (exists e,
                ToString large
                  (js_or (optional_get (optional_get analysisResults "data")
                            "videosCount") (VNum 0)) = Throw e))
  /\ (forall mail,
        mail_for EMAIL_SENDER JSON_parse large user analysisResults
        = Some mail ->
        to_email mail = text (email user)).
Proof.
  split; [apply sendAnalysisEmail_run|].
  split; [apply mail_for_none|intros mail; apply mail_for_recipient].
Qed.

(** X17. [sendAnalysisEmail] reads the counts and the strategy under the
    field [data] of the results: for a user with an address and results that
    have no such field (an object that holds the counts and the strategy
    themselves, an array, a string), it hands one mail to the transport, and
    the page of that mail reports 0 queries, 0 videos and the fragment of the
    empty strategy. *)
Theorem results_without_data_give_the_empty_report
    (user : account) (analysisResults : value) (history : list event) :
  truthy (text (email user)) = true ->
  get_property analysisResults "data" = Normal VUndefined ->
  exists mail outcome,
    sendAnalysisEmail sendTransacEmail EMAIL_SENDER JSON_parse large user
      analysisResults history
    = (outcome, [SendTransacEmail mail])
    /\ htmlContent mail
       = email_template (greeting_name user) "0" "0" no_strategy.
Proof.
  intros Hemail Hdata. rewrite sendAnalysisEmail_run.
  unfold mail_for. rewrite Hemail, Hdata. cbn [mbind completion_bind].
  assert (Hhtml : formatMarketingStrategyToHtml JSON_parse
                    (document_of
                       (js_or (optional_get VUndefined "marketingStrategy")
                          (VObj [])))
                  = Normal no_strategy) by reflexivity.
  rewrite Hhtml. cbn [mbind completion_bind]. unfold analysis_email.
  rewrite greeting_name_spec. cbn [mbind completion_bind].
  eexists _, _. split; reflexivity.
Qed.

Lemma perform_bind {A B} (call : event) (outcome : list event -> settled A)
    (f : A -> task B) (history : list event) :
  (perform call outcome ≫= f) history
  = match outcome history with
    | Fulfilled a =>
        let '(r, made') := f a (history ++ [call])%list in (r, call :: made')
    | Rejected x => (Rejected x, [call])
    end.
Proof.
  unfold mbind, task_bind, perform. now destruct (outcome history).
Qed.

Lemma bind_run {A B} (t : task A) (f : A -> task B) (history : list event) :
  (t ≫= f) history
  = match t history with
    | (Fulfilled a, made) =>
        let '(r, made') := f a (history ++ made)%list in
        (r, (made ++ made')%list)
    | (Rejected x, made) => (Rejected x, made)
    end.
Proof. reflexivity. Qed.

Lemma filter_filter_and {A} (f g : A -> bool) (xs : list A) :
  List.filter g (List.filter f xs) = List.filter (fun x => f x && g x) xs.
Proof.
  induction xs as [|x rest IH]; [reflexivity|]. cbn [List.filter].
  destruct (f x); cbn [List.filter andb]; [|exact IH].
  destruct (g x); now rewrite IH.
Qed.

Lemma has_keys_returns (result : value) :
  exists stored, has_keys result = Normal stored.
Proof.
  unfold has_keys. destruct result as [| |b|n| |s|items|fields]; simpl;
    try (eexists; reflexivity).
  - destruct b; eexists; reflexivity.
  - destruct (negb (n =? 0)%Z); eexists; reflexivity.
  - destruct (negb (String.eqb s "")); eexists; reflexivity.
Qed.

Lemma ready_for_email_returns (user : account) :
  exists ready, ready_for_email user = Normal ready.
Proof.
  unfold ready_for_email. destruct (truthy _); [apply has_keys_returns|].
  eexists. reflexivity.
Qed.

Lemma posts_app (made1 made2 : list event) :
  posts (made1 ++ made2) = (posts made1 ++ posts made2)%list.
Proof. apply omap_app. Qed.

Lemma mails_app (made1 made2 : list event) :
  mails (made1 ++ made2) = (mails made1 ++ mails made2)%list.
Proof. apply omap_app. Qed.

Lemma updates_app (made1 made2 : list event) :
  updates (made1 ++ made2) = (updates made1 ++ updates made2)%list.
Proof. apply omap_app. Qed.

(** A loop whose turns are all fulfilled is fulfilled, and its calls are
    those of its turns, one turn after the other. *)
Lemma for_each_fulfilled {A} (body : A -> task unit)
    (Q : A -> list event -> Prop) (xs : list A) :
  (forall x history,
     exists made, body x history = (Fulfilled tt, made) /\ Q x made) ->
  forall history,
    exists mades : list (list event),
      for_each xs body history = (Fulfilled tt, concat mades)
      /\ Forall2 Q xs mades.
Proof.
  intros Hbody. induction xs as [|x rest IH]; intros history.
  - exists []. split; [reflexivity|constructor].
  - destruct (Hbody x history) as (made & Hrun & HQ).
    destruct (IH (history ++ made)%list) as (mades & Hrest & Hall).
    exists (made :: mades). split; [|now constructor].
    cbn [for_each]. unfold mbind, task_bind. now rewrite Hrun, Hrest.
Qed.

Lemma schedule_accounts_filter (currentHour : Z) (allUsers : list account) :
  forall acc : list account * list account,
    schedule_accounts DateTimeFormat currentHour allUsers acc
    = Normal
        ((acc.1 ++ List.filter
                     (fun a => analysis_due DateTimeFormat currentHour
                                 (preferences a)) allUsers)%list,
         (acc.2 ++ List.filter
                     (fun a => email_due DateTimeFormat currentHour
                                 (preferences a)) allUsers)%list).
Proof.
  induction allUsers as [|a rest IH]; intros [accA accE]; simpl.
  - now rewrite !app_nil_r.
  - unfold schedule_account. rewrite utcHour_of_spec. simpl.
    rewrite IH. simpl. unfold analysis_due, email_due.
    destruct (analysisHour (utcHour_of DateTimeFormat (preferences a))
              =? currentHour)%Z,
      (utcHour_of DateTimeFormat (preferences a) =? currentHour)%Z;
      simpl; now rewrite <- ?app_assoc.
Qed.

(** The loop over the rows agrees with the loop over their preferences:
    the two lists of rows are the rows, in order, whose preferences are due
    for the analysis, respectively for the email, so their preferences are
    the two due sets. *)
Lemma schedule_accounts_are_due_sets
    (currentHour : Z) (allUsers : list account) :
  exists usersForAnalysis usersForEmail,
    schedule_accounts DateTimeFormat currentHour allUsers ([], [])
      = Normal (usersForAnalysis, usersForEmail)
    /\ usersForAnalysis
       = List.filter (fun a => analysis_due DateTimeFormat currentHour
                                 (preferences a)) allUsers
    /\ usersForEmail
       = List.filter (fun a => email_due DateTimeFormat currentHour
                                 (preferences a)) allUsers
    /\ due_sets DateTimeFormat currentHour (map preferences allUsers)
       = Normal (map preferences usersForAnalysis,
                 map preferences usersForEmail).
Proof.
  rewrite schedule_accounts_filter. simpl.
  eexists _, _. split; [reflexivity|]. split; [reflexivity|].
  split; [reflexivity|].
  rewrite due_sets_filter. f_equal. f_equal.
  - induction allUsers as [|a rest IH]; [reflexivity|]. simpl.
    destruct (analysis_due _ _ _); simpl; now rewrite IH.
  - induction allUsers as [|a rest IH]; [reflexivity|]. simpl.
    destruct (email_due _ _ _); simpl; now rewrite IH.
Qed.

(** X18. [runScheduledWorkflows] never rejects and starts by reading the
    rows.  When that read is rejected, or resolves to an error, or resolves
    to no rows at all, the tick ends there: no request is posted, no mail is
    sent and nothing is written. *)
Theorem failed_load_ends_the_tick (currentHour : Z) (history : list event) :
  (exists made,
     runScheduledWorkflows api_post store_select store_update
       sendTransacEmail EMAIL_SENDER JSON_parse DateTimeFormat large currentHour
       history
     = (Fulfilled tt, SelectUsers :: made))
  /\ ((exists x, store_select history = Rejected x)
      \/ (exists selected,
            store_select history = Fulfilled selected
            /\ (truthy (select_error selected) = true
                \/ data selected = None)) ->
      runScheduledWorkflows api_post store_select store_update
        sendTransacEmail EMAIL_SENDER JSON_parse DateTimeFormat large currentHour
        history
      = (Fulfilled tt, [SelectUsers])).
Proof.
  unfold runScheduledWorkflows, try_task. rewrite perform_bind.
  split.
  - destruct (store_select history) as [selected|x]; [|simpl; eauto].
    match goal with
    | |- context [let '(r, made') := ?t in (r, SelectUsers :: made')] =>
        destruct t as [[[]|x] made']
    end; simpl; eauto.
  - intros [[x ->]|(selected & -> & [Herr|Hdata])]; [reflexivity| |].
    + unfold mbind at 1. unfold task_bind. rewrite Herr. reflexivity.
    + unfold mbind at 1. unfold task_bind.
      destruct (truthy (select_error selected)); [reflexivity|].
      simpl. unfold mbind at 1. unfold task_bind. rewrite Hdata. reflexivity.
Qed.


Section Collaborators.

(** The store answers every update. *)
Hypothesis store_ok :
  forall history row change, store_update history row change = Fulfilled tt.

(** The analysis service rejects with what the [catch] block of
    [runWorkflowForUser] can log. *)
Hypothesis api_loggable :
  forall history request x,
    api_post history request = Rejected x -> loggable large x.

(** The transport does not reject with null or undefined. *)
Hypothesis transport_reasons :
  forall history mail x,
    sendTransacEmail history mail = Rejected x -> nullish_reason x = false.

Lemma analysis_turn_run (user : account) (history : list event) :
  exists made,
    analysis_turn api_post store_update large user history
    = (Fulfilled tt, made)
    /\ analysis_turn_made api_post user made.
Proof.
  unfold analysis_turn, analysis_turn_made.
  unfold mbind at 1. unfold task_bind. rewrite runWorkflowForUser_run.
  destruct (eligible user) eqn:Heligible.
  - destruct (api_post history (request_of user)) as [response|x] eqn:Hpost.
    + destruct (has_keys_returns (data_of response)) as [stored Hstored].
      unfold mbind at 1. unfold task_bind, of_completion. rewrite Hstored.
      cbn [mret task_ret]. destruct stored.
      * unfold updateLastRunTimestamp, try_task, perform, mbind, task_bind,
          mret, task_ret.
        rewrite !store_ok. simpl. eexists. split; [reflexivity|].
        split; [reflexivity|]. split; [reflexivity|].
        intros row change Hin.
        cbn in Hin. rewrite !elem_of_cons, elem_of_nil in Hin.
        destruct Hin as [[= -> ->]|[[= -> ->]|[]]];
          (split; [reflexivity|]; split; [reflexivity|]);
          exists response, history; auto.
      * simpl. eexists. split; [reflexivity|].
        split; [reflexivity|]. split; [reflexivity|].
        intros row change Hin. cbn in Hin. now apply elem_of_nil in Hin.
    + apply api_loggable, log_workflow_error_spec in Hpost. rewrite Hpost.
      simpl. eexists. split; [reflexivity|].
      split; [reflexivity|]. split; [reflexivity|].
      intros row change Hin. cbn in Hin. now apply elem_of_nil in Hin.
  - simpl. eexists. split; [reflexivity|].
    split; [reflexivity|]. split; [reflexivity|].
    intros row change Hin. cbn in Hin. now apply elem_of_nil in Hin.
Qed.

(** The run of the analysis pass. *)
Lemma analysis_pass_run (users : list account) (history : list event) :
  exists made,
    for_each users (analysis_turn api_post store_update large) history
      = (Fulfilled tt, made)
    /\ posts made = map request_of (List.filter eligible users)
    /\ mails made = []
    /\ forall row change,
         (row, change) ∈ updates made ->
         exists user response history',
           user ∈ users
           /\ row = id (preferences user)
           /\ api_post history' (request_of user) = Fulfilled response
           /\ has_keys (data_of response) = Normal true
           /\ (change = LastWorkflowRun
               \/ change = AnalysisStored (data_of response)).
Proof.
  destruct (for_each_fulfilled (analysis_turn api_post store_update large)
              (analysis_turn_made api_post) users analysis_turn_run history)
    as (mades & -> & Hall).
  exists (concat mades). split; [reflexivity|].
  induction Hall as [|user made rest mades (Hposts & Hmails & Hupdates) _ IH];
    [split; [reflexivity|]; split; [reflexivity|];
     intros row change Hin; now apply elem_of_nil in Hin|].
  destruct IH as (IHposts & IHmails & IHupdates).
  cbn [concat]. rewrite posts_app, mails_app, Hposts, Hmails, IHposts, IHmails.
  split; [|split; [reflexivity|]].
  - cbn [List.filter]. now destruct (eligible user).
  - intros row change Hin. rewrite updates_app, elem_of_app in Hin.
    destruct Hin as [Hin|Hin].
    + destruct (Hupdates row change Hin)
        as (Hrow & _ & response & history' & Hpost & Hkeys & Hchange).
      exists user, response, history'. repeat split; try assumption.
      apply list_elem_of_here.
    + destruct (IHupdates row change Hin)
        as (user' & response & history' & Huser & Hrest).
      exists user', response, history'. split; [|assumption].
      now apply list_elem_of_further.
Qed.

(** X19. The analysis pass, with a store that answers and an analysis
    service whose rejections the [catch] block of [runWorkflowForUser] can
    log (no rejection with null or undefined): whether the calls to the
    service are fulfilled or rejected, the pass is fulfilled and posts one
    request for each row that has a business description and an [auth_id], in
    the order of the rows; it sends no mail; and it writes to the store only
    for a row whose request was fulfilled with a response of which the data
    are truthy and have keys, those data and the time of the run. *)
Theorem analysis_pass_is_isolated (users : list account) (history : list event) :
  exists made,
    for_each users (analysis_turn api_post store_update large) history
      = (Fulfilled tt, made)
    /\ posts made = map request_of (List.filter eligible users)
    /\ mails made = []
    /\ forall row change,
         (row, change) ∈ updates made ->
         exists user response history',
           user ∈ users
           /\ row = id (preferences user)
           /\ api_post history' (request_of user) = Fulfilled response
           /\ has_keys (data_of response) = Normal true
           /\ (change = LastWorkflowRun
               \/ change = AnalysisStored (data_of response)).
Proof. exact (analysis_pass_run users history). Qed.

Lemma email_turn_run (user : account) (history : list event) :
  exists made,
    email_turn store_update sendTransacEmail EMAIL_SENDER JSON_parse large
      user history = (Fulfilled tt, made)
    /\ email_turn_made sendTransacEmail EMAIL_SENDER JSON_parse large user
         made.
Proof.
  unfold email_turn, email_turn_made, mail_due.
  destruct (ready_for_email_returns user) as [ready Hready].
  unfold mbind at 1. unfold task_bind, of_completion. rewrite Hready.
  cbn [mret task_ret]. destruct ready.
  - pose proof (sendAnalysisEmail_run user (last_analysis_results user)
                  (history ++ [])%list) as Hsend.
    unfold mbind at 1. unfold task_bind. rewrite Hsend.
    destruct (mail_for EMAIL_SENDER JSON_parse large user
                (last_analysis_results user)) as [mail|] eqn:Hmail.
    + destruct (sendTransacEmail (history ++ [])%list mail) as [[]|x] eqn:Hsent.
      * unfold perform, mret, task_ret. rewrite ?store_ok. simpl.
        eexists. split; [reflexivity|]. split; [reflexivity|].
        split; [reflexivity|].
        intros row change Hin. cbn in Hin.
        apply list_elem_of_singleton in Hin as [= -> ->].
        split; [reflexivity|]. split; [reflexivity|]. eauto.
      * rewrite (transport_reasons _ _ _ Hsent). simpl.
        eexists. split; [reflexivity|]. split; [reflexivity|].
        split; [reflexivity|].
        intros row change Hin. cbn in Hin. now apply elem_of_nil in Hin.
    + simpl. eexists. split; [reflexivity|]. split; [reflexivity|].
      split; [reflexivity|].
      intros row change Hin. cbn in Hin. now apply elem_of_nil in Hin.
  - simpl. eexists. split; [reflexivity|]. split; [reflexivity|].
    split; [reflexivity|].
    intros row change Hin. cbn in Hin. now apply elem_of_nil in Hin.
Qed.

(** The run of the email pass. *)
Lemma email_pass_run (users : list account) (history : list event) :
  exists made,
    for_each users
      (email_turn store_update sendTransacEmail EMAIL_SENDER JSON_parse large)
      history = (Fulfilled tt, made)
    /\ posts made = []
    /\ mails made = omap (mail_due EMAIL_SENDER JSON_parse large) users
    /\ forall row change,
         (row, change) ∈ updates made ->
         change = EmailSent
         /\ exists user mail history',
              user ∈ users
              /\ row = id (preferences user)
              /\ mail_due EMAIL_SENDER JSON_parse large user = Some mail
              /\ sendTransacEmail history' mail = Fulfilled tt.
Proof.
  destruct (for_each_fulfilled
              (email_turn store_update sendTransacEmail EMAIL_SENDER JSON_parse
                 large)
              (email_turn_made sendTransacEmail EMAIL_SENDER JSON_parse large)
              users email_turn_run history)
    as (mades & -> & Hall).
  exists (concat mades). split; [reflexivity|].
  induction Hall as [|user made rest mades (Hposts & Hmails & Hupdates) _ IH];
    [split; [reflexivity|]; split; [reflexivity|];
     intros row change Hin; now apply elem_of_nil in Hin|].
  destruct IH as (IHposts & IHmails & IHupdates).
  cbn [concat]. rewrite posts_app, mails_app, Hposts, Hmails, IHposts, IHmails.
  split; [reflexivity|]. split.
  - cbn [omap list_omap]. now destruct (mail_due _ _ _ user).
  - intros row change Hin. rewrite updates_app, elem_of_app in Hin.
    destruct Hin as [Hin|Hin].
    + destruct (Hupdates row change Hin)
        as (Hrow & Hchange & mail & history' & Hmail & Hsent).
      split; [assumption|]. exists user, mail, history'.
      repeat split; try assumption. apply list_elem_of_here.
    + destruct (IHupdates row change Hin)
        as (Hchange & user' & mail & history' & Huser & Hrest).
      split; [assumption|]. exists user', mail, history'.
      split; [|assumption]. now apply list_elem_of_further.
Qed.

(** X20. The email pass, with a store that answers and a transport that does
    not reject with null or undefined: whether the transport fulfils or
    rejects, the pass is fulfilled and hands one mail to the transport for
    each row that is ready (its flag is true and its stored results are
    truthy and have keys), has an address and has counts that can be written,
    in the order of the rows, and for no other row; it posts no request; and
    the only thing it writes is the clearing of the flag, for a row whose
    mail the transport accepted. *)
Theorem email_pass_is_isolated (users : list account) (history : list event) :
  exists made,
    for_each users
      (email_turn store_update sendTransacEmail EMAIL_SENDER JSON_parse large)
      history = (Fulfilled tt, made)
    /\ posts made = []
    /\ mails made = omap (mail_due EMAIL_SENDER JSON_parse large) users
    /\ forall row change,
         (row, change) ∈ updates made ->
         change = EmailSent
         /\ exists user mail history',
              user ∈ users
              /\ row = id (preferences user)
              /\ mail_due EMAIL_SENDER JSON_parse large user = Some mail
              /\ sendTransacEmail history' mail = Fulfilled tt.
Proof. exact (email_pass_run users history). Qed.

(** X21. A tick that gets its rows, with a store that answers, an analysis
    service whose rejections can be logged and a transport that does not
    reject with null or undefined: it is fulfilled; after reading the rows it
    runs the analysis pass and then the email pass; it posts one request for
    each row that is due for the analysis and has a business description and
    an [auth_id], and hands one mail to the transport for each row that is
    due for the email, ready and has an address, both in the order of the
    rows; no mail goes out before the last request. *)
Theorem tick_with_rows
    (currentHour : Z) (history : list event) (rows : list account)
    (error : value) :
  store_select history = Fulfilled (SelectResult (Some rows) error) ->
  truthy error = false ->
  exists made1 made2,
    runScheduledWorkflows api_post store_select store_update
      sendTransacEmail EMAIL_SENDER JSON_parse DateTimeFormat large
      currentHour history
    = (Fulfilled tt, SelectUsers :: (made1 ++ made2)%list)
    /\ posts made1
       = map request_of
           (List.filter
              (fun a => analysis_due DateTimeFormat currentHour (preferences a)
                        && eligible a) rows)
    /\ mails made1 = []
    /\ posts made2 = []
    /\ mails made2
       = omap (mail_due EMAIL_SENDER JSON_parse large)
           (List.filter
              (fun a => email_due DateTimeFormat currentHour (preferences a))
              rows).
Proof.
  intros Hselect Herror.
  unfold runScheduledWorkflows, try_task. rewrite perform_bind, Hselect.
  cbn [select_error data]. rewrite Herror.
  rewrite !bind_run. cbn [mret task_ret].
  rewrite !bind_run. cbn [mret task_ret].
  rewrite schedule_accounts_filter. cbn [of_completion fst snd app].
  unfold mret, task_ret. cbv beta iota. rewrite !bind_run.
  match goal with
  | |- context [for_each ?l (analysis_turn _ _ _) ?h] =>
      destruct (analysis_pass_run l h)
        as (made1 & Hrun1 & Hposts1 & Hmails1 & _)
  end.
  rewrite Hrun1. cbv beta iota. rewrite ?bind_run.
  match goal with
  | |- context [for_each ?l (email_turn _ _ _ _ _) ?h] =>
      destruct (email_pass_run l h)
        as (made2 & Hrun2 & Hposts2 & Hmails2 & _)
  end.
  rewrite Hrun2. cbv beta iota.
  exists made1, made2.
  split; [now rewrite !app_nil_r|].
  split; [|auto].
  rewrite Hposts1. f_equal. apply filter_filter_and.
Qed.

End Collaborators.

(** X22. The store is not isolated as the analysis service is: when it
    rejects the update that stores the result of a row, the analysis pass is
    rejected after that call, and the rows after it are not processed.  The
    update of the time of the run before it is fulfilled, or rejected with
    anything but null and undefined, which [updateLastRunTimestamp] logs. *)
Theorem store_rejection_ends_the_pass
    (user : account) (rest : list account) (history : list event)
    (response : value) (x : exception) :
  eligible user = true ->
  api_post history (request_of user) = Fulfilled response ->
  has_keys (data_of response) = Normal true ->
  (forall history' x',
     store_update history' (id (preferences user)) LastWorkflowRun
     = Rejected x' ->
     nullish_reason x' = false) ->
  (forall history',
     store_update history' (id (preferences user))
       (AnalysisStored (data_of response))
     = Rejected x) ->
  for_each (user :: rest) (analysis_turn api_post store_update large) history
  = (Rejected x,
     [ Post (request_of user);
       Update (id (preferences user)) LastWorkflowRun;
       Update (id (preferences user)) (AnalysisStored (data_of response)) ]).
Proof.
  intros Heligible Hpost Hkeys Hstamp Hstore.
  cbn [for_each]. rewrite bind_run. unfold analysis_turn. rewrite bind_run.
  rewrite runWorkflowForUser_run, Heligible, Hpost. cbv beta iota.
  rewrite bind_run. unfold of_completion. rewrite Hkeys.
  unfold mret, task_ret. cbv beta iota. rewrite bind_run.
  unfold updateLastRunTimestamp, try_task, perform.
  destruct (store_update _ _ LastWorkflowRun) as [[]|x'] eqn:Hfirst.
  - repeat (progress (unfold mret, task_ret; cbv beta iota; rewrite ?bind_run)).
    rewrite Hstore. reflexivity.
  - rewrite read_message_spec, (Hstamp _ _ Hfirst).
    unfold of_completion.
    repeat (progress (unfold mret, task_ret; cbv beta iota; rewrite ?bind_run)).
    rewrite Hstore. reflexivity.
Qed.

(** X24. A rejection without a reason is not isolated either: when the
    analysis service rejects the request of a row with null or undefined,
    the [catch] block of [runWorkflowForUser] throws on reading the message,
    the analysis pass is rejected with that TypeError after the request, and
    the rows after it are not processed. *)
Theorem rejection_without_reason_ends_the_pass
    (user : account) (rest : list account) (history : list event)
    (x : exception) :
  eligible user = true ->
  api_post history (request_of user) = Rejected x ->
  nullish_reason x = true ->
  for_each (user :: rest) (analysis_turn api_post store_update large) history
  = (Rejected (Builtin TypeError), [Post (request_of user)]).
Proof.
  intros Heligible Hpost Hx.
  cbn [for_each]. rewrite bind_run. unfold analysis_turn. rewrite bind_run.
  rewrite runWorkflowForUser_run, Heligible, Hpost.
  now rewrite (log_workflow_error_nullish x Hx).
Qed.

End OrchestrationFacts.


(** ** Instances of the further properties, and the blank field *)

Lemma two_items_start_a_list :
  startsWith "<ul><li>a</li><li>b</li></ul>" "<p>" = true
  \/ startsWith "<ul><li>a</li><li>b</li></ul>" "<ul><li>" = true.
Proof.
  apply (createListHtml_paragraph_or_list_with_items (VStr "- a\n- b") "X"
           "<ul><li>a</li><li>b</li></ul>").
  reflexivity.
Defined.

Lemma takeaways_open_the_document :
  exists rest,
    formatMarketingStrategyToHtml JSON_parse_rejecting (Some takeaways_only)
    = Normal (strategy_heading +:+ "<h3>" +:+ "Key Trend Takeaways"
              +:+ "</h3>" +:+ rest).
Proof.
  apply (document_opens_with_first_surviving_section JSON_parse_rejecting
           takeaways_only
           (List.firstn 1 (sections JSON_parse_rejecting))
           (List.skipn 2 (sections JSON_parse_rejecting))
           (SectionDesc "Key Trend Takeaways" "keyTakeaways"
              (fun content => createListHtml content "Key Trend Takeaways"))).
  - reflexivity.
  - intros earlier Hin. apply list_elem_of_singleton in Hin as ->.
    left. vm_compute. reflexivity.
  - split; [vm_compute; reflexivity|]. eexists. split; vm_compute; reflexivity.
Defined.

Section BlankField.

Variable JSON_parse : value -> completion value.

Implicit Types (d : gmap string value) (section : section_desc).

(** Among sections of which one survives there is a first one. *)
Lemma first_survivor d (todo : list section_desc) :
  (forall section, section ∈ todo -> section ∈ sections JSON_parse) ->
  (exists section, section ∈ todo /\ section_survives d section) ->
  exists before section after,
    todo = (before ++ section :: after)%list
    /\ (forall earlier, earlier ∈ before -> section_suppressed d earlier)
    /\ section_survives d section.
Proof.
  induction todo as [|first rest IH]; intros Hsub (section & Hin & Hsurvives).
  - now apply elem_of_nil in Hin.
  - destruct (section_suppressed_or_survives JSON_parse d first)
      as [Hfirst|Hfirst]; [apply Hsub; now left| |].
    + destruct IH as (before & sec & after & -> & Hbefore & Hsec).
      * intros s Hs. apply Hsub. now right.
      * apply elem_of_cons in Hin as [->|Hin]; [|eauto].
        now apply section_survives_not_suppressed in Hsurvives.
      * exists (first :: before), sec, after. split; [reflexivity|].
        split; [|assumption]. intros earlier Hearlier.
        apply elem_of_cons in Hearlier as [->|Hearlier]; auto.
    + exists [], first, rest. split; [reflexivity|]. split; [|assumption].
      intros earlier Hearlier. now apply elem_of_nil in Hearlier.
Qed.

(** X23. A field of white space only (and not empty) is not treated as an
    absent one by any section but the themes: the list, script and hashtag
    renderers turn it into their placeholder, none of the suppression phrases
    matches that placeholder, and the section is shown; so the document is
    not the fragment for a strategy without information. *)
Theorem blank_field_is_shown d section (s : string) :
  section ∈ sections JSON_parse ->
  key section <> "contentThemes" ->
  get d (key section) = VStr s ->
  all_space s = true -> s <> "" ->
  section_survives d section
  /\ exists first rest,
       first ∈ sections JSON_parse
       /\ formatMarketingStrategyToHtml JSON_parse (Some d)
          = Normal (strategy_heading +:+ "<h3>" +:+ title first +:+ "</h3>"
                    +:+ rest).
Proof.
  intros Hin Hkey Hget Hblank Hne.
  pose proof (blank_field_survives JSON_parse d section s Hin Hkey Hget Hblank
                Hne) as Hsurvives.
  split; [assumption|].
  destruct (first_survivor d (sections JSON_parse) (fun _ H => H))
    as (before & first & after & Hsplit & Hbefore & Hfirst); [eauto|].
  destruct (opening_of_document JSON_parse d before after first Hsplit Hbefore
              Hfirst) as [rest Hrest].
  exists first, rest. split; [|assumption].
  rewrite Hsplit, elem_of_app, elem_of_cons. auto.
Qed.

End BlankField.

Lemma blank_observations_are_shown :
  section_survives (<["observations":=VStr "  "]> takeaways_only)
    (SectionDesc "Observations" "observations"
       (fun content => createListHtml content "Observations"))
  /\ exists first rest,
       first ∈ sections JSON_parse_rejecting
       /\ formatMarketingStrategyToHtml JSON_parse_rejecting
            (Some (<["observations":=VStr "  "]> takeaways_only))
          = Normal (strategy_heading +:+ "<h3>" +:+ title first +:+ "</h3>"
                    +:+ rest).
Proof.
  apply (blank_field_is_shown JSON_parse_rejecting
           (<["observations":=VStr "  "]> takeaways_only)
           (SectionDesc "Observations" "observations"
              (fun content => createListHtml content "Observations")) "  ").
  - apply list_elem_of_here.
  - discriminate.
  - vm_compute. reflexivity.
  - reflexivity.
  - discriminate.
Defined.

Lemma bare_report_gives_the_empty_report :
  exists mail outcome,
    sendAnalysisEmail transport_accepts VUndefined JSON_parse_rejecting
      no_large_integer dua bare_report []
    = (outcome, [SendTransacEmail mail])
    /\ htmlContent mail = email_template "Dua" "0" "0" no_strategy.
Proof.
  apply (results_without_data_give_the_empty_report transport_accepts
           VUndefined JSON_parse_rejecting no_large_integer dua bare_report
           []).
  - reflexivity.
  - vm_compute. reflexivity.
Defined.

(** The collaborators of the instances are as the passes need them. *)
Lemma service_fails_loggable history request x :
  service_fails history request = Rejected x -> loggable no_large_integer x.
Proof.
  intros [= <-]. split; [reflexivity|].
  intros _. eexists. vm_compute. reflexivity.
Qed.

Lemma service_up_loggable response_data history request x :
  service_up response_data history request = Rejected x ->
  loggable no_large_integer x.
Proof. discriminate. Qed.

Lemma transport_accepts_reasons history mail x :
  transport_accepts history mail = Rejected x -> nullish_reason x = false.
Proof. discriminate. Qed.

Lemma requests_go_out_while_the_service_fails :
  exists made,
    for_each [bob; cyd; ann]
      (analysis_turn service_fails store_answers no_large_integer) []
      = (Fulfilled tt, made)
    /\ posts made = map request_of (List.filter eligible [bob; cyd; ann])
    /\ mails made = [].
Proof.
  destruct (analysis_pass_is_isolated service_fails store_answers
              no_large_integer (fun _ _ _ => eq_refl) service_fails_loggable
              [bob; cyd; ann] [])
    as (made & Hrun & Hposts & Hmails & _).
  exists made. split; [exact Hrun|]. split; [exact Hposts|exact Hmails].
Defined.

Lemma mail_goes_to_the_ready_row_only :
  exists made,
    for_each [bob; ann]
      (email_turn store_answers transport_accepts VUndefined
         JSON_parse_rejecting no_large_integer) []
      = (Fulfilled tt, made)
    /\ posts made = []
    /\ mails made
       = omap (mail_due VUndefined JSON_parse_rejecting no_large_integer)
           [bob; ann].
Proof.
  destruct (email_pass_is_isolated store_answers transport_accepts VUndefined
              JSON_parse_rejecting no_large_integer (fun _ _ _ => eq_refl)
              transport_accepts_reasons [bob; ann] [])
    as (made & Hrun & Hposts & Hmails & _).
  exists made. split; [exact Hrun|]. split; [exact Hposts|exact Hmails].
Defined.

Lemma tick_at_nine :
  exists made1 made2,
    runScheduledWorkflows (service_up stored_report)
      (rows_loaded [ann; bob; cyd]) store_answers transport_accepts VUndefined
      JSON_parse_rejecting (fixed_offset_platform "UTC" 0) no_large_integer
      9%Z []
    = (Fulfilled tt, SelectUsers :: (made1 ++ made2)%list)
    /\ posts made1
       = map request_of
           (List.filter
              (fun a => analysis_due (fixed_offset_platform "UTC" 0) 9%Z
                          (preferences a) && eligible a) [ann; bob; cyd])
    /\ mails made1 = []
    /\ posts made2 = []
    /\ mails made2
       = omap (mail_due VUndefined JSON_parse_rejecting no_large_integer)
           (List.filter
              (fun a => email_due (fixed_offset_platform "UTC" 0) 9%Z
                          (preferences a)) [ann; bob; cyd]).
Proof.
  apply (tick_with_rows (service_up stored_report)
           (rows_loaded [ann; bob; cyd]) store_answers transport_accepts
           VUndefined JSON_parse_rejecting (fixed_offset_platform "UTC" 0)
           no_large_integer (fun _ _ _ => eq_refl)
           (service_up_loggable stored_report) transport_accepts_reasons
           9%Z [] [ann; bob; cyd] VNull).
  - reflexivity.
  - reflexivity.
Defined.

Lemma refused_result_stops_the_pass :
  for_each [bob; ann]
    (analysis_turn (service_up stored_report) store_refuses_results
       no_large_integer) []
  = (Rejected (NewError "fetch failed"),
     [ Post (request_of bob);
       Update (id (preferences bob)) LastWorkflowRun;
       Update (id (preferences bob)) (AnalysisStored stored_report) ]).
Proof.
  apply (store_rejection_ends_the_pass (service_up stored_report)
           store_refuses_results no_large_integer bob [ann] []
           (VObj [("data", stored_report)]) (NewError "fetch failed")).
  - reflexivity.
  - reflexivity.
  - vm_compute. reflexivity.
  - intros history' x'. discriminate.
  - intros history'. reflexivity.
Defined.

Lemma null_rejection_stops_the_pass :
  for_each [bob; ann]
    (analysis_turn service_rejects_with_null store_answers no_large_integer)
    []
  = (Rejected (Builtin TypeError), [Post (request_of bob)]).
Proof.
  apply (rejection_without_reason_ends_the_pass service_rejects_with_null
           store_answers no_large_integer bob [ann] [] (Reason VNull)).
  - reflexivity.
  - reflexivity.
  - reflexivity.
Defined.
